(** * RegexPlay: the regex engine adapters and the engine factory

    A shallow embedding of [src/engines/jsEngine.js], [src/engines/pcreEngine.js]
    and [src/engines/engineFactory.js].

    Modelling conventions.
    - A JavaScript string is a [string]: a sequence of 8-bit code units.
      Positions and lengths count code units.
    - JavaScript values that reach the adapters are of type [JS.value];
      [typeof] decides the input checks exactly as the source does.
    - A function that can throw returns a [JS.completion]; [try]/[catch] is a
      [match] on it.  An [async] method that throws is a rejected promise: the
      same [Throw].
    - [Date.now()] is an oracle [clock : nat -> Z]: the k-th reading taken
      during one call.  The [timestamp] field of a result and the [stack]
      field of an error (only set in development mode) are left out.
    - The regular expression machinery of the platform (the pattern compiler
      and the matcher) is not part of the repository: it is a parameter
      ([RegExp.Host], [PCREEngine.Host]).  [RegExp.exec] and [RegExp.replace]
      follow ECMA-262 (RegExpBuiltinExec, RegExp.prototype[@@replace]) on top
      of the host's matcher.  Among 8-bit code units there are no surrogate
      pairs: a character is one code unit, the scan of [exec] starts at
      [lastIndex] and AdvanceStringIndex advances by one, with or without
      the [u] flag. *)

From Stdlib Require Import String Ascii List Arith Bool ZArith Lia DecimalString.
Import ListNotations.
Set Warnings "-abstract-large-number".
Local Open Scope string_scope.
Local Open Scope list_scope.

(* ================================================================== *)
(** * JavaScript values, exceptions and string primitives *)

Module JS.

Inductive value : Type :=
| VUndefined
| VNull
| VBool (b : bool)
| VNumber (z : Z)
| VString (s : string)
| VObject (tag : string).

Definition typeof (v : value) : string :=
  match v with
  | VUndefined => "undefined"
  | VNull => "object"
  | VBool _ => "boolean"
  | VNumber _ => "number"
  | VString _ => "string"
  | VObject _ => "object"
  end.

Definition is_string (v : value) : bool :=
  match v with VString _ => true | _ => false end.

(** [!v] is [negb (truthy v)]. *)
Definition truthy (v : value) : bool :=
  match v with
  | VUndefined | VNull => false
  | VBool b => b
  | VNumber z => negb (Z.eqb z 0)
  | VString s => negb (String.eqb s "")
  | VObject _ => true
  end.

(** A default parameter [x = d] replaces [undefined] only. *)
Definition default_param (v d : value) : value :=
  match v with VUndefined => d | _ => v end.

(** An exception object: [message] and [constructor.name]. *)
Record error : Type := mkError { message : string; name : string }.

Definition Error (msg : string) : error := mkError msg "Error".
Definition SyntaxError (msg : string) : error := mkError msg "SyntaxError".

Inductive completion (A : Type) : Type :=
| Return (a : A)
| Throw (e : error).
Arguments Return {A} a.
Arguments Throw {A} e.

Definition bind {A B : Type} (c : completion A) (k : A -> completion B)
  : completion B :=
  match c with
  | Return a => k a
  | Throw e => Throw e
  end.

Definition returned {A : Type} (c : completion A) : bool :=
  match c with Return _ => true | Throw _ => false end.

(** ** Strings as arrays of code units *)

Definition chars (s : string) : list ascii := list_ascii_of_string s.
Definition str (l : list ascii) : string := string_of_list_ascii l.

Definition mem (c : ascii) (l : list ascii) : bool :=
  existsb (Ascii.eqb c) l.

(** [s.includes(c)] for a one-character [c]. *)
Definition includes (s : string) (c : ascii) : bool := mem c (chars s).

(** [arr.join(sep)] *)
Fixpoint join (sep : string) (l : list string) : string :=
  match l with
  | [] => ""
  | [x] => x
  | x :: rest => (x ++ sep ++ join sep rest)%string
  end.

(** [s.substring(a, b)]: both ends clamped to the length, swapped when
    out of order. *)
Definition substring (s : string) (a b : nat) : string :=
  let len := String.length s in
  let a' := Nat.min a len in
  let b' := Nat.min b len in
  let from := Nat.min a' b' in
  let to := Nat.max a' b' in
  str (firstn (to - from) (skipn from (chars s))).

(** [[...new Set(arr)]]: the distinct elements in first-occurrence order. *)
Fixpoint set_add_all (seen l : list ascii) : list ascii :=
  match l with
  | [] => seen
  | c :: rest =>
      if mem c seen then set_add_all seen rest
      else set_add_all (seen ++ [c]) rest
  end.

Definition set_of (l : list ascii) : list ascii := set_add_all [] l.

(** The same for an array of strings (engine names). *)
Definition smem (x : string) (l : list string) : bool :=
  existsb (String.eqb x) l.

Fixpoint sset_add_all (seen l : list string) : list string :=
  match l with
  | [] => seen
  | x :: rest =>
      if smem x seen then sset_add_all seen rest
      else sset_add_all (seen ++ [x]) rest
  end.

(** [s.toLowerCase()] on 8-bit code units: A-Z and the Latin-1 capitals. *)
Definition lower_char (c : ascii) : ascii :=
  let n := nat_of_ascii c in
  if (((65 <=? n) && (n <=? 90))
      || ((192 <=? n) && (n <=? 222) && negb (n =? 215)))%nat
  then ascii_of_nat (n + 32) else c.

Definition toLowerCase (s : string) : string :=
  str (map lower_char (chars s)).

(** White space and line terminators among the 8-bit code units. *)
Definition is_space (c : ascii) : bool :=
  let n := nat_of_ascii c in
  (((9 <=? n) && (n <=? 13)) || (n =? 32) || (n =? 160))%nat.

Fixpoint drop_space (l : list ascii) : list ascii :=
  match l with
  | [] => []
  | c :: rest => if is_space c then drop_space rest else l
  end.

(** [s.trim()] *)
Definition trim (s : string) : string :=
  str (rev (drop_space (rev (drop_space (chars s))))).

(** [s.substring(a, b)] with numbers: a negative bound counts as 0. *)
Definition substringZ (s : string) (a b : Z) : string :=
  substring s (Z.to_nat a) (Z.to_nat b).

(** [a || d] on numbers and on strings that may be [undefined]. *)
Definition num_or (a d : Z) : Z := if (a =? 0)%Z then d else a.

Definition str_or (a : option string) (d : string) : string :=
  match a with
  | Some s => if String.eqb s "" then d else s
  | None => d
  end.

(** [`${n}`] for a non-negative integer. *)
Definition string_of_nat (n : nat) : string :=
  NilEmpty.string_of_uint (Nat.to_uint n).

End JS.

Notation "x <- c ;; k" := (JS.bind c (fun x => k))
  (at level 61, c at next level, right associativity).

(* ================================================================== *)
(** * The platform's RegExp objects *)

Module RegExp.

(** What one successful match attempt at a given position reports: the
    number of code units consumed and the capture groups. *)
Record MatchState : Type := mkMatchState {
  consumed : nat;
  captures : list (option string);
  groupsOf : option (list (string * option string))
}.

(** The host: [initialize pattern flags] is the pattern compiler of
    [new RegExp(pattern, flags)] (a compiled matcher, or the message of
    the SyntaxError); [matcher m S i] attempts a match of [S] at position
    [i] exactly. *)
Record Host : Type := mkHost {
  compiled : Type;
  initialize : string -> string -> compiled + string;
  matcher : compiled -> string -> nat -> option MatchState
}.

Section Objects.
Variable H : Host.

(** A RegExp object: its matcher, its flags and the mutable [lastIndex]. *)
Record object : Type := mkObject {
  code : compiled H;
  flagsOf : string;
  lastIndex : nat
}.

Definition set_lastIndex (R : object) (n : nat) : object :=
  mkObject (code R) (flagsOf R) n.

(** [new RegExp(pattern, flags)] *)
Definition create (pattern flags : string) : JS.completion object :=
  match initialize H pattern flags with
  | inl m => JS.Return (mkObject m flags 0)
  | inr msg => JS.Throw (JS.SyntaxError msg)
  end.

(** The array returned by a successful [exec]. *)
Record match_array : Type := mkMatchArray {
  at0 : string;
  index : nat;
  slice1 : list (option string);
  groups : option (list (string * option string));
  input : string
}.

(** The scan of RegExpBuiltinExec: [fuel] is [length + 1 - i], so that
    [fuel = 0] is the test [lastIndex > length]. *)
Fixpoint search (m : compiled H) (sticky : bool) (subject : string)
         (fuel i : nat) : option (nat * MatchState) :=
  match fuel with
  | 0 => None
  | S fuel' =>
      match matcher H m subject i with
      | Some st => Some (i, st)
      | None =>
          if sticky then None else search m sticky subject fuel' (S i)
      end
  end.

(** [R.exec(subject)]: the result and the object with its updated
    [lastIndex].  The scan starts at [lastIndex]; under the [u] flag the
    platform starts from the code point that holds [lastIndex], which
    among 8-bit code units is [lastIndex] itself: a text with a surrogate
    pair is not a text of this model. *)
Definition exec (R : object) (subject : string)
  : option match_array * object :=
  let len := String.length subject in
  let global := JS.includes (flagsOf R) "g" in
  let sticky := JS.includes (flagsOf R) "y" in
  let start := if global || sticky then lastIndex R else 0 in
  match search (code R) sticky subject (len + 1 - start) start with
  | None =>
      (None, if global || sticky then set_lastIndex R 0 else R)
  | Some (i, st) =>
      let e := Nat.min (i + consumed st) len in
      (Some (mkMatchArray (JS.substring subject i e) i (captures st)
                          (groupsOf st) subject),
       if global || sticky then set_lastIndex R e else R)
  end.

End Objects.

Arguments code {H} _.
Arguments flagsOf {H} _.
Arguments lastIndex {H} _.
Arguments set_lastIndex {H} _ _.

(** ** [String.prototype.replace] with a RegExp *)

Definition digit_of (c : ascii) : option nat :=
  let n := nat_of_ascii c in
  if ((48 <=? n) && (n <=? 57))%nat then Some (n - 48) else None.

(** Splits [name>rest] at the first [>]. *)
Fixpoint split_at_gt (l : list ascii) : option (list ascii * list ascii) :=
  match l with
  | [] => None
  | c :: r =>
      if Ascii.eqb c ">" then Some ([], r)
      else match split_at_gt r with
           | Some (n, r') => Some (c :: n, r')
           | None => None
           end
  end.

Fixpoint lookup_group (name : string) (g : list (string * option string))
  : option string :=
  match g with
  | [] => None
  | (k, v) :: rest => if String.eqb k name then v else lookup_group name rest
  end.

Definition capture_text (c : option string) : string :=
  match c with Some t => t | None => "" end.

Section Substitution.
Variable matched subject : string.
Variable position : nat.
Variable caps : list (option string).
Variable namedCaptures : option (list (string * option string)).

Definition capture_ref (idx : nat) (ref : list ascii) : string :=
  if ((1 <=? idx) && (idx <=? List.length caps))%nat
  then capture_text (nth (idx - 1) caps None)
  else JS.str ref.

(** One step of GetSubstitution: the text produced by the head of the
    template and the rest of the template. *)
Definition subst_step (template : list ascii) : string * list ascii :=
  match template with
  | [] => ("", [])
  | c :: rest =>
      if negb (Ascii.eqb c "$") then (JS.str [c], rest)
      else
        match rest with
        | [] => ("$", [])
        | d :: rest1 =>
            if Ascii.eqb d "$" then ("$", rest1)
            else if Ascii.eqb d "`" then
              (JS.substring subject 0 position, rest1)
            else if Ascii.eqb d "&" then (matched, rest1)
            else if Ascii.eqb d "'" then
              (JS.substring subject (position + String.length matched)
                            (String.length subject), rest1)
            else if Ascii.eqb d "<" then
              match namedCaptures with
              | None => ("$<", rest1)
              | Some g =>
                  match split_at_gt rest1 with
                  | None => ("$<", rest1)
                  | Some (nm, rest2) =>
                      (capture_text (lookup_group (JS.str nm) g), rest2)
                  end
              end
            else
              match digit_of d with
              | None => ("$", rest)
              | Some n1 =>
                  match rest1 with
                  | d2 :: rest2 =>
                      match digit_of d2 with
                      | Some n2 =>
                          if (10 * n1 + n2 <=? List.length caps)%nat
                          then (capture_ref (10 * n1 + n2) [c; d; d2],
                                rest2)
                          else (capture_ref n1 [c; d], rest1)
                      | None => (capture_ref n1 [c; d], rest1)
                      end
                  | [] => (capture_ref n1 [c; d], rest1)
                  end
              end
        end
  end.

(** Every step consumes a character, so the length of the template is
    fuel enough. *)
Fixpoint subst_loop (fuel : nat) (template : list ascii) : string :=
  match fuel with
  | 0 => ""
  | S fuel' =>
      match template with
      | [] => ""
      | _ =>
          let (piece, rest) := subst_step template in
          (piece ++ subst_loop fuel' rest)%string
      end
  end.

Definition GetSubstitution (replacement : string) : string :=
  subst_loop (String.length replacement) (JS.chars replacement).
End Substitution.

Section Replace.
Variable H : Host.

(** The result list of RegExp.prototype[@@replace].  In global mode
    [lastIndex] grows at every round and [exec] fails beyond the end of
    the subject, so [length + 2] rounds are enough. *)
Fixpoint collect (global : bool) (subject : string) (fuel : nat)
         (R : object H) : list match_array :=
  match fuel with
  | 0 => []
  | S fuel' =>
      match exec H R subject with
      | (None, _) => []
      | (Some m, R1) =>
          if global then
            m :: collect global subject fuel'
                   (if String.eqb (at0 m) ""
                    then set_lastIndex R1 (lastIndex R1 + 1) else R1)
          else [m]
      end
  end.

Fixpoint assemble (subject replacement : string)
         (results : list match_array) (acc : string)
         (nextSourcePosition : nat) : string :=
  match results with
  | [] =>
      if (String.length subject <=? nextSourcePosition)%nat then acc
      else (acc ++ JS.substring subject nextSourcePosition
                     (String.length subject))%string
  | m :: rest =>
      let position := Nat.min (index m) (String.length subject) in
      let piece :=
        GetSubstitution (at0 m) subject position (slice1 m) (groups m)
                        replacement in
      if (nextSourcePosition <=? position)%nat then
        assemble subject replacement rest
          (acc ++ JS.substring subject nextSourcePosition position
               ++ piece)%string
          (position + String.length (at0 m))
      else assemble subject replacement rest acc nextSourcePosition
  end.

(** [subject.replace(R, replacement)] *)
Definition replace (R : object H) (subject replacement : string)
  : string :=
  let global := JS.includes (flagsOf R) "g" in
  let R0 := if global then set_lastIndex R 0 else R in
  assemble subject replacement
    (collect global subject (String.length subject + 2) R0) "" 0.
End Replace.

End RegExp.

(* ================================================================== *)
(** * The result objects shared by the adapters and the factory *)

(** [{ message, type, operation }]; the objects built by the factory have
    no [operation]. *)
Module ErrorInfo.
Record t : Type := mk {
  message : string;
  type : string;
  operation : option string
}.
End ErrorInfo.

(** [{ fullMatch, index, length, groups, namedGroups, input }]; [index] and
    [length] are JavaScript numbers (integers here). *)
Module Match.
Record t : Type := mk {
  fullMatch : string;
  index : Z;
  length : Z;
  groups : list (option string);
  namedGroups : list (string * option string);
  input : string
}.
End Match.

(** [{ success, engine, pattern, flags, text, matches, error }] *)
Module Result.
Record t : Type := mk {
  success : bool;
  engine : string;
  pattern : JS.value;
  flags : JS.value;
  text : JS.value;
  matches : list Match.t;
  error : option ErrorInfo.t
}.
End Result.

(** [{ success, engine, pattern, flags, text, replacement, result, error }] *)
Module ReplaceResult.
Record t : Type := mk {
  success : bool;
  engine : string;
  pattern : JS.value;
  flags : JS.value;
  text : JS.value;
  replacement : JS.value;
  result : JS.value;
  error : option ErrorInfo.t
}.
End ReplaceResult.

(** [{ valid, pattern, flags, error }], the object of [validatePattern]. *)
Module Validation.
Record t : Type := mk {
  valid : bool;
  pattern : JS.value;
  flags : JS.value;
  error : option ErrorInfo.t
}.
End Validation.

(* ================================================================== *)
(** * jsEngine.js *)

Module JavaScriptEngine.
Import JS.

Definition ENGINE_NAME : string := "JavaScript".
Definition SUPPORTED_FLAGS : list ascii := ["i"; "g"; "m"; "s"; "u"; "y"]%char.
Definition MAX_RECURSION_DEPTH : nat := 1000.
Definition MAX_ITERATIONS : nat := 10000.
(** [const TIMEOUT_MS = 5000] in [test], [findAll] and [replace]. *)
Definition TIMEOUT_MS : Z := 5000.

Definition validateAndSanitizeFlags (flags : value) : completion string :=
  match default_param flags (VString "") with
  | VString f =>
      let flagArray := chars f in
      let invalidFlags :=
        filter (fun flag => negb (mem flag SUPPORTED_FLAGS)) flagArray in
      if (0 <? List.length invalidFlags)%nat then
        Throw (Error ("Unsupported flags for JavaScript engine: "
                        ++ str invalidFlags ++ ". Supported: "
                        ++ str SUPPORTED_FLAGS))
      else Return (str (set_of flagArray))
  | _ => Throw (Error "Flags must be a string")
  end.

Definition createResult (success : bool) (pattern flags text : value)
           (matches : list Match.t) (error : option ErrorInfo.t)
  : Result.t :=
  Result.mk success ENGINE_NAME pattern flags text matches error.

Definition createError (error : JS.error) (operation : string)
  : ErrorInfo.t :=
  ErrorInfo.mk (JS.message error) (JS.name error) (Some operation).

Definition formatMatch (match_ : RegExp.match_array) : Match.t :=
  Match.mk (RegExp.at0 match_)
           (Z.of_nat (RegExp.index match_))
           (Z.of_nat (String.length (RegExp.at0 match_)))
           (RegExp.slice1 match_)
           (match RegExp.groups match_ with Some g => g | None => [] end)
           (RegExp.input match_).

Definition tooManyMatches : JS.error :=
  Error ("Too many matches found (>" ++ string_of_nat MAX_ITERATIONS
           ++ "). Pattern may be too broad.").

Definition executionTimeout : JS.error :=
  Error "Regex execution timeout - pattern may be too complex".

Definition replacementTimeout : JS.error :=
  Error "Regex replacement timeout - pattern may be too complex".

Section Methods.
Variable H : RegExp.Host.
Variable clock : nat -> Z.

Definition timedOut (reading : nat) : bool :=
  (clock reading - clock 0 >? TIMEOUT_MS)%Z.

(** [test(pattern, text, flags = '')] *)
Definition test (pattern text flags : value) : Result.t :=
  let flags := default_param flags (VString "") in
  let body : completion Result.t :=
    match pattern, text with
    | VString p, VString t =>
        sanitizedFlags <- validateAndSanitizeFlags flags ;;
        match RegExp.create H p sanitizedFlags with
        | Throw syntaxError =>
            Return (createResult false pattern (VString sanitizedFlags)
                      text []
                      (Some (createError syntaxError
                                         "pattern compilation")))
        | Return regex =>
            let attempt : completion (option RegExp.match_array) :=
              let match_ := fst (RegExp.exec H regex t) in
              if timedOut 1 then Throw executionTimeout
              else Return match_ in
            match attempt with
            | Throw execError =>
                Return (createResult false pattern
                          (VString sanitizedFlags) text []
                          (Some (createError execError
                                             "pattern execution")))
            | Return None =>
                Return (createResult false pattern
                          (VString sanitizedFlags) text [] None)
            | Return (Some match_) =>
                Return (createResult true pattern
                          (VString sanitizedFlags) text
                          [formatMatch match_] None)
            end
        end
    | VString _, _ => Throw (Error "Text must be a string")
    | _, _ => Throw (Error "Pattern must be a string")
    end in
  match body with
  | Return r => r
  | Throw error =>
      createResult false pattern flags text []
                   (Some (createError error "test operation"))
  end.

(** The [while ((match = regex.exec(text)) !== null)] loop of [findAll].
    [remaining] is [MAX_ITERATIONS - iterationCount], the variant of the
    loop: at the cap test, [remaining = 0] is
    [iterationCount > MAX_ITERATIONS].  The loop ends normally with the
    matches, or throws with the matches pushed so far. *)
Fixpoint findAll_loop (t : string) (remaining iterationCount : nat)
         (regex : RegExp.object H) (matches : list Match.t)
  : list Match.t * option JS.error :=
  match RegExp.exec H regex t with
  | (None, _) => (matches, None)
  | (Some match_, regex1) =>
      let iterationCount := S iterationCount in
      match remaining with
      | 0 => (matches, Some tooManyMatches)
      | S remaining' =>
          if timedOut iterationCount then
            (matches, Some executionTimeout)
          else
            let matches := matches ++ [formatMatch match_] in
            let regex2 :=
              if (RegExp.index match_ =? RegExp.lastIndex regex1)%nat
              then RegExp.set_lastIndex regex1
                     (RegExp.lastIndex regex1 + 1)
              else regex1 in
            if (String.length t <? RegExp.lastIndex regex2)%nat
            then (matches, None)
            else findAll_loop t remaining' iterationCount regex2 matches
      end
  end.

(** [sanitizedFlags.includes('g') ? sanitizedFlags : sanitizedFlags + 'g'] *)
Definition globalFlagsOf (sanitizedFlags : string) : string :=
  if includes sanitizedFlags "g" then sanitizedFlags
  else (sanitizedFlags ++ "g")%string.

(** [findAll(pattern, text, flags = '')] *)
Definition findAll (pattern text flags : value) : Result.t :=
  let flags := default_param flags (VString "") in
  let body : completion Result.t :=
    match pattern, text with
    | VString p, VString t =>
        sanitizedFlags <- validateAndSanitizeFlags flags ;;
        let globalFlags := globalFlagsOf sanitizedFlags in
        match RegExp.create H p globalFlags with
        | Throw syntaxError =>
            Return (createResult false pattern (VString globalFlags)
                      text []
                      (Some (createError syntaxError
                                         "pattern compilation")))
        | Return regex =>
            match findAll_loop t MAX_ITERATIONS 0 regex [] with
            | (matches, Some execError) =>
                if (0 <? List.length matches)%nat then
                  Return (createResult true pattern (VString globalFlags)
                            text matches
                            (Some (createError execError
                               "partial execution - some matches found")))
                else
                  Return (createResult false pattern
                            (VString globalFlags) text []
                            (Some (createError execError
                                               "pattern execution")))
            | (matches, None) =>
                Return (createResult (0 <? List.length matches)%nat
                          pattern (VString globalFlags) text matches
                          None)
            end
        end
    | VString _, _ => Throw (Error "Text must be a string")
    | _, _ => Throw (Error "Pattern must be a string")
    end in
  match body with
  | Return r => r
  | Throw error =>
      createResult false pattern flags text []
                   (Some (createError error "findAll operation"))
  end.

(** [replace(pattern, text, replacement, flags = '')] *)
Definition replace (pattern text replacement flags : value)
  : ReplaceResult.t :=
  let flags := default_param flags (VString "") in
  let body : completion ReplaceResult.t :=
    match pattern, text, replacement with
    | VString p, VString t, VString r =>
        sanitizedFlags <- validateAndSanitizeFlags flags ;;
        match RegExp.create H p sanitizedFlags with
        | Throw syntaxError =>
            Return (ReplaceResult.mk false ENGINE_NAME pattern
                      (VString sanitizedFlags) text replacement text
                      (Some (createError syntaxError
                                         "pattern compilation")))
        | Return regex =>
            let attempt : completion string :=
              let result := RegExp.replace H regex t r in
              if timedOut 1 then Throw replacementTimeout
              else Return result in
            match attempt with
            | Throw replaceError =>
                Return (ReplaceResult.mk false ENGINE_NAME pattern
                          (VString sanitizedFlags) text replacement text
                          (Some (createError replaceError
                                             "replacement execution")))
            | Return result =>
                Return (ReplaceResult.mk true ENGINE_NAME pattern
                          (VString sanitizedFlags) text replacement
                          (VString result) None)
            end
        end
    | VString _, VString _, _ =>
        Throw (Error "Replacement must be a string")
    | VString _, _, _ => Throw (Error "Text must be a string")
    | _, _, _ => Throw (Error "Pattern must be a string")
    end in
  match body with
  | Return r => r
  | Throw error =>
      ReplaceResult.mk false ENGINE_NAME pattern flags text replacement
                       text (Some (createError error "replace operation"))
  end.

(** [validatePattern(pattern, flags = '')] *)
Definition validatePattern (pattern flags : value) : Validation.t :=
  let flags := default_param flags (VString "") in
  let body : completion Validation.t :=
    match pattern with
    | VString p =>
        sanitizedFlags <- validateAndSanitizeFlags flags ;;
        _ <- RegExp.create H p sanitizedFlags ;;
        Return (Validation.mk true pattern (VString sanitizedFlags) None)
    | _ => Throw (Error "Pattern must be a string")
    end in
  match body with
  | Return v => v
  | Throw error =>
      Validation.mk false pattern flags
                    (Some (createError error "pattern validation"))
  end.

End Methods.

(** [getCapabilities().performance] *)
Definition performance : Z * nat := (5000%Z, MAX_ITERATIONS).

End JavaScriptEngine.

(* ================================================================== *)
(** * pcreEngine.js *)

Module PCREEngine.
Import JS.

Definition ENGINE_NAME : string := "PCRE".
Definition SUPPORTED_FLAGS : list ascii := ["i"; "m"; "s"; "x"; "u"; "g"]%char.
Definition MAX_RECURSION_DEPTH : nat := 100.
Definition TIMEOUT_MS : Z := 10000.
(** [const MAX_ITERATIONS = 5000] in [findAll], [1000] in [replace]. *)
Definition MAX_ITERATIONS : nat := 5000.
Definition REPLACE_MAX_ITERATIONS : nat := 1000.

(** The object returned by [quickMatch] and by [regex.exec]. *)
Record exec_result : Type := mkExecResult {
  succeeded : bool;
  start : Z;
  end_ : Z;
  matchText : option string;
  groups : option (list (option string));
  namedGroups : option (list (string * option string))
}.

(** The [@syntropiq/libpcre-ts] library: the option constants, the pattern
    compiler behind [new PCRERegex(pattern, options)], [regex.exec(text,
    offset)] and [quickMatch(pattern, text, options)].  [None] is a
    [null] result. *)
Record Host : Type := mkHost {
  compiled : Type;
  CASELESS : Z;
  MULTILINE : Z;
  DOTALL : Z;
  EXTENDED : Z;
  UTF8 : Z;
  compile : string -> Z -> compiled + JS.error;
  exec : compiled -> string -> Z -> completion (option exec_result);
  quickMatch : string -> string -> Z -> completion (option exec_result)
}.

(** The fields of the engine object that the methods read. *)
Record engine : Type := mkEngine {
  initialized : bool;
  initializationError : option JS.error
}.

Definition validateAndSanitizeFlags (flags : value) : completion string :=
  match default_param flags (VString "") with
  | VString f =>
      let flagArray := chars f in
      let invalidFlags :=
        filter (fun flag => negb (mem flag SUPPORTED_FLAGS)) flagArray in
      if (0 <? List.length invalidFlags)%nat then
        Throw (Error ("Unsupported flags for PCRE engine: "
                        ++ str invalidFlags ++ ". Supported: "
                        ++ str SUPPORTED_FLAGS))
      else Return (str (set_of flagArray))
  | _ => Throw (Error "Flags must be a string")
  end.

Definition createResult (success : bool) (pattern flags text : value)
           (matches : list Match.t) (error : option ErrorInfo.t)
  : Result.t :=
  Result.mk success ENGINE_NAME pattern flags text matches error.

Definition createError (error : JS.error) (operation : string)
  : ErrorInfo.t :=
  ErrorInfo.mk (JS.message error) (JS.name error) (Some operation).

Definition formatMatch (match_ : exec_result) (text : string) : Match.t :=
  Match.mk (str_or (matchText match_)
                   (substringZ text (start match_) (end_ match_)))
           (num_or (start match_) 0)
           (num_or (end_ match_) 0 - num_or (start match_) 0)
           (match groups match_ with Some g => g | None => [] end)
           (match namedGroups match_ with Some g => g | None => [] end)
           text.

(** [!result || !result.success] *)
Definition noMatch (result : option exec_result) : bool :=
  match result with
  | None => true
  | Some r => negb (succeeded r)
  end.

Definition executionTimeout : JS.error :=
  Error "PCRE execution timeout - pattern may be too complex".

Definition replacementTimeout : JS.error :=
  Error "PCRE replacement timeout - pattern may be too complex".

Definition tooManyMatches : JS.error :=
  Error ("Too many matches found (>" ++ string_of_nat MAX_ITERATIONS
           ++ "). Pattern may be too broad.").

(** How [findAll] moves past a match:
    [offset = result.end || (result.start + 1);
     if (result.start === result.end) offset++]. *)
Definition nextOffset (result : exec_result) : Z :=
  let offset := num_or (end_ result) (start result + 1) in
  if (start result =? end_ result)%Z then (offset + 1)%Z else offset.

Section Methods.
Variable P : Host.
Variable this : engine.
Variable clock : nat -> Z.

Definition _ensureInitialized : completion unit :=
  if initialized this then Return tt
  else
    match initializationError this with
    | Some e =>
        Throw (Error ("PCRE engine initialization failed: "
                        ++ JS.message e))
    | None =>
        Throw (Error "PCRE engine not initialized. Call initialize() first.")
    end.

Definition _convertFlags (flags : string) : Z :=
  let options := 0%Z in
  let options :=
    if includes flags "i" then Z.lor options (CASELESS P) else options in
  let options :=
    if includes flags "m" then Z.lor options (MULTILINE P) else options in
  let options :=
    if includes flags "s" then Z.lor options (DOTALL P) else options in
  let options :=
    if includes flags "x" then Z.lor options (EXTENDED P) else options in
  let options :=
    if includes flags "u" then Z.lor options (UTF8 P) else options in
  options.

Definition timedOut (reading : nat) : bool :=
  (clock reading - clock 0 >? TIMEOUT_MS)%Z.

(** [test(pattern, text, flags = '')] *)
Definition test (pattern text flags : value) : Result.t :=
  let flags := default_param flags (VString "") in
  let body : completion Result.t :=
    match pattern, text with
    | VString p, VString t =>
        _ <- _ensureInitialized ;;
        sanitizedFlags <- validateAndSanitizeFlags flags ;;
        let options := _convertFlags sanitizedFlags in
        match quickMatch P p t options with
        | Throw pcreError =>
            Return (createResult false pattern (VString sanitizedFlags)
                      text []
                      (Some (createError pcreError "pattern execution")))
        | Return result =>
            if timedOut 1 then
              Return (createResult false pattern (VString sanitizedFlags)
                        text []
                        (Some (createError executionTimeout
                                           "timeout protection")))
            else
              match result with
              | Some r =>
                  if succeeded r then
                    Return (createResult true pattern
                              (VString sanitizedFlags) text
                              [formatMatch r t] None)
                  else
                    Return (createResult false pattern
                              (VString sanitizedFlags) text [] None)
              | None =>
                  Return (createResult false pattern
                            (VString sanitizedFlags) text [] None)
              end
        end
    | VString _, _ => Throw (Error "Text must be a string")
    | _, _ => Throw (Error "Pattern must be a string")
    end in
  match body with
  | Return r => r
  | Throw error =>
      createResult false pattern flags text []
                   (Some (createError error "test operation"))
  end.

(** How the scan loop of [findAll] ends: by a [return] inside the loop,
    or by leaving the loop with the matches and the iteration count. *)
Inductive loop_end : Type :=
| Returned (r : Result.t)
| Left (matches : list Match.t) (iterationCount : nat).

(** [while (offset < text.length && iterationCount < MAX_ITERATIONS)];
    [remaining] is [MAX_ITERATIONS - iterationCount]. *)
Fixpoint findAll_loop (regex : compiled P) (pattern : value)
         (sanitizedFlags t : string) (remaining iterationCount : nat)
         (offset : Z) (matches : list Match.t) : loop_end :=
  if negb (offset <? Z.of_nat (String.length t))%Z then
    Left matches iterationCount
  else
    match remaining with
    | 0 => Left matches iterationCount
    | S remaining' =>
        let iterationCount := S iterationCount in
        let partial (e : JS.error) (operation : string) : loop_end :=
          if (0 <? List.length matches)%nat then
            Returned (createResult true pattern (VString sanitizedFlags)
                        (VString t) matches
                        (Some (createError e
                           "partial execution - some matches found")))
          else
            Returned (createResult false pattern (VString sanitizedFlags)
                        (VString t) []
                        (Some (createError e operation))) in
        if timedOut iterationCount then
          partial executionTimeout "timeout protection"
        else
          match exec P regex t offset with
          | Throw execError => partial execError "pattern execution"
          | Return result =>
              match result with
              | Some r =>
                  if succeeded r then
                    let matches := matches ++ [formatMatch r t] in
                    let offset := nextOffset r in
                    if (Z.of_nat (String.length t) <? offset)%Z then
                      Left matches iterationCount
                    else
                      findAll_loop regex pattern sanitizedFlags t
                                   remaining' iterationCount offset
                                   matches
                  else Left matches iterationCount
              | None => Left matches iterationCount
              end
          end
    end.

(** [findAll(pattern, text, flags = '')] *)
Definition findAll (pattern text flags : value) : Result.t :=
  let flags := default_param flags (VString "") in
  let body : completion Result.t :=
    match pattern, text with
    | VString p, VString t =>
        _ <- _ensureInitialized ;;
        sanitizedFlags <- validateAndSanitizeFlags flags ;;
        let options := _convertFlags sanitizedFlags in
        match compile P p options with
        | inr compileError =>
            Return (createResult false pattern (VString sanitizedFlags)
                      text []
                      (Some (createError compileError
                                         "pattern compilation")))
        | inl regex =>
            match findAll_loop regex pattern sanitizedFlags t
                               MAX_ITERATIONS 0 0%Z [] with
            | Returned r => Return r
            | Left matches iterationCount =>
                if (MAX_ITERATIONS <=? iterationCount)%nat
                   && (0 <? List.length matches)%nat
                then
                  Return (createResult true pattern
                            (VString sanitizedFlags) text matches
                            (Some (createError tooManyMatches
                     "iteration limit reached - some matches found")))
                else
                  Return (createResult (0 <? List.length matches)%nat
                            pattern (VString sanitizedFlags) text
                            matches None)
            end
        end
    | VString _, _ => Throw (Error "Text must be a string")
    | _, _ => Throw (Error "Pattern must be a string")
    end in
  match body with
  | Return r => r
  | Throw error =>
      createResult false pattern flags text []
                   (Some (createError error "findAll operation"))
  end.

(** The scan loop of [replace]: it throws on a timeout, and a fault of
    [regex.exec] is not caught inside the loop either. *)
Fixpoint replace_loop (regex : compiled P) (t : string) (isGlobal : bool)
         (remaining iterationCount : nat) (offset : Z)
         (matches : list exec_result) : completion (list exec_result) :=
  if negb (offset <? Z.of_nat (String.length t))%Z then Return matches
  else
    match remaining with
    | 0 => Return matches
    | S remaining' =>
        let iterationCount := S iterationCount in
        if timedOut iterationCount then Throw replacementTimeout
        else
          result <- exec P regex t offset ;;
          match result with
          | Some m =>
              if succeeded m then
                let matches := matches ++ [m] in
                let offset := num_or (end_ m) (start m + 1) in
                if negb isGlobal then Return matches
                else
                  let offset :=
                    if (start m =? end_ m)%Z then (offset + 1)%Z
                    else offset in
                  replace_loop regex t isGlobal remaining'
                               iterationCount offset matches
              else Return matches
          | None => Return matches
          end
    end.

(** [result.substring(0, startPos) + replacement + result.substring(endPos)] *)
Definition splice (replacement : string) (result : string)
           (m : exec_result) : string :=
  let startPos := num_or (start m) 0 in
  let endPos := num_or (end_ m) startPos in
  (substringZ result 0 startPos ++ replacement
     ++ substringZ result endPos (Z.of_nat (String.length result)))%string.

(** [replace(pattern, text, replacement, flags = '')] *)
Definition replace (pattern text replacement flags : value)
  : ReplaceResult.t :=
  let flags := default_param flags (VString "") in
  let body : completion ReplaceResult.t :=
    match pattern, text, replacement with
    | VString p, VString t, VString r =>
        _ <- _ensureInitialized ;;
        sanitizedFlags <- validateAndSanitizeFlags flags ;;
        let options := _convertFlags sanitizedFlags in
        match compile P p options with
        | inr compileError =>
            Return (ReplaceResult.mk false ENGINE_NAME pattern
                      (VString sanitizedFlags) text replacement text
                      (Some (createError compileError
                                         "pattern compilation")))
        | inl regex =>
            let isGlobal := includes sanitizedFlags "g" in
            matches <- replace_loop regex t isGlobal
                         REPLACE_MAX_ITERATIONS 0 0%Z [] ;;
            (* from the last match to the first *)
            let result := fold_left (splice r) (rev matches) t in
            Return (ReplaceResult.mk true ENGINE_NAME pattern
                      (VString sanitizedFlags) text replacement
                      (VString result) None)
        end
    | VString _, VString _, _ =>
        Throw (Error "Replacement must be a string")
    | VString _, _, _ => Throw (Error "Text must be a string")
    | _, _, _ => Throw (Error "Pattern must be a string")
    end in
  match body with
  | Return r => r
  | Throw error =>
      ReplaceResult.mk false ENGINE_NAME pattern flags text replacement
                       text (Some (createError error "replace operation"))
  end.

(** [validatePattern(pattern, flags = '')] *)
Definition validatePattern (pattern flags : value) : Validation.t :=
  let flags := default_param flags (VString "") in
  let body : completion Validation.t :=
    match pattern with
    | VString p =>
        _ <- _ensureInitialized ;;
        sanitizedFlags <- validateAndSanitizeFlags flags ;;
        let options := _convertFlags sanitizedFlags in
        match compile P p options with
        | inr compileError =>
            Return (Validation.mk false pattern flags
                      (Some (createError compileError "pattern validation")))
        | inl _ =>
            Return (Validation.mk true pattern (VString sanitizedFlags) None)
        end
    | _ => Throw (Error "Pattern must be a string")
    end in
  match body with
  | Return v => v
  | Throw error =>
      Validation.mk false pattern flags
                    (Some (createError error "pattern validation"))
  end.

End Methods.

(** [getCapabilities().performance] *)
Definition performance : Z * nat := (TIMEOUT_MS, 5000).

(** [async initialize()]: [init] is the outcome of [new PCRE()] and
    [pcre.init()].  The outcome of the call and the engine afterwards. *)
Definition initialize (init : completion unit) (this : engine)
  : completion unit * engine :=
  if initialized this then (Return tt, this)
  else
    match initializationError this with
    | Some e => (Throw e, this)
    | None =>
        match init with
        | Return _ => (Return tt, mkEngine true None)
        | Throw error =>
            let e := Error ("Failed to initialize PCRE engine: "
                              ++ JS.message error) in
            (Throw e, mkEngine false (Some e))
        end
    end.

(** [destroy()] *)
Definition destroy (this : engine) : engine := mkEngine false None.

End PCREEngine.

(* ================================================================== *)
(** * engineFactory.js *)

(** An engine object as the factory uses it: its [name] and its three
    matching methods, each run against the time oracle of the call. *)
Module Engine.
Import JS.

Record t : Type := mk {
  name : string;
  test : (nat -> Z) -> value -> value -> value -> completion Result.t;
  findAll : (nat -> Z) -> value -> value -> value -> completion Result.t;
  replace : (nat -> Z) -> value -> value -> value -> value
            -> completion ReplaceResult.t
}.

(** [new JavaScriptEngine()] *)
Definition javascript (H : RegExp.Host) : t :=
  mk JavaScriptEngine.ENGINE_NAME
     (fun clock p t f => Return (JavaScriptEngine.test H clock p t f))
     (fun clock p t f => Return (JavaScriptEngine.findAll H clock p t f))
     (fun clock p t r f =>
        Return (JavaScriptEngine.replace H clock p t r f)).
End Engine.

Module EngineFactory.
Import JS.

(** [Object.entries(ENGINE_ALIASES)], in source order. *)
Definition ENGINE_ALIASES : list (string * list string) :=
  [("javascript", ["javascript"; "js"]); ("pcre", ["pcre"; "perl"])].

Definition DEFAULT_ENGINE : string := "javascript".

(** The [for (const [canonical, aliases] of ...)] loop. *)
Fixpoint canonicalOf (entries : list (string * list string))
         (normalizedName : string) : option string :=
  match entries with
  | [] => None
  | (canonical, aliases) :: rest =>
      if smem normalizedName aliases then Some canonical
      else canonicalOf rest normalizedName
  end.

Definition normalizeEngineName (name : value) : completion string :=
  match name with
  | VString n =>
      if negb (truthy name) then
        Throw (Error "Engine name must be a non-empty string")
      else
        let normalizedName := trim (toLowerCase n) in
        match canonicalOf ENGINE_ALIASES normalizedName with
        | Some canonical => Return canonical
        | None =>
            Throw (Error ("Unknown engine: " ++ n
                            ++ ". Available engines: "
                            ++ join ", " (map fst ENGINE_ALIASES)))
        end
  | _ => Throw (Error "Engine name must be a non-empty string")
  end.

Definition validatePattern (pattern : value) : completion unit :=
  match pattern with
  | VNull | VUndefined =>
      Throw (Error "Pattern cannot be null or undefined")
  | VString _ => Return tt
  | _ => Throw (Error "Pattern must be a string")
  end.

Definition validateText (text : value) : completion unit :=
  match text with
  | VNull | VUndefined => Throw (Error "Text cannot be null or undefined")
  | VString _ => Return tt
  | _ => Throw (Error "Text must be a string")
  end.

Definition validateFlags (flags : value) : completion string :=
  match default_param flags (VString "") with
  | VNull | VUndefined => Return ""
  | VString f => Return f
  | _ => Throw (Error "Flags must be a string")
  end.

(** The factory object.  [engines] is a [Map] in insertion order. *)
Record t : Type := mk {
  engines : list (string * Engine.t);
  initialized : bool;
  initializationErrors : list (string * string);
  pcreTried : bool;
  options : list (string * value)
}.

(** [constructor(options = {})]: the defaults, then the caller's entries. *)
Definition new (options : list (string * value)) : t :=
  mk [] false [] false
     ([("quiet", VBool false); ("json", VBool false);
       ("debug", VBool false)] ++ options).

(** [map.get(key)] and [map.set(key, value)] *)
Fixpoint map_get (m : list (string * Engine.t)) (key : string)
  : option Engine.t :=
  match m with
  | [] => None
  | (k, v) :: rest => if String.eqb k key then Some v else map_get rest key
  end.

Fixpoint map_set (m : list (string * Engine.t)) (key : string)
         (v : Engine.t) : list (string * Engine.t) :=
  match m with
  | [] => [(key, v)]
  | (k, v0) :: rest =>
      if String.eqb k key then (k, v) :: rest
      else (k, v0) :: map_set rest key v
  end.

Definition aliasesOf (canonical : string) : list string :=
  match find (fun e => String.eqb (fst e) canonical) ENGINE_ALIASES with
  | Some e => snd e
  | None => []
  end.

(** [this.options[key]]: the entry written last for the key. *)
Definition option_get (o : list (string * value)) (key : string) : value :=
  match find (fun e => String.eqb (fst e) key) (rev o) with
  | Some e => snd e
  | None => VUndefined
  end.

(** [_silent()]: [(quiet || json) && !debug], as a condition. *)
Definition _silent (f : t) : bool :=
  (truthy (option_get (options f) "quiet")
   || truthy (option_get (options f) "json"))
  && negb (truthy (option_get (options f) "debug")).

(** [getAvailableEngines()] *)
Fixpoint canonicalNames (keys : list string) (seen : list string)
  : completion (list string) :=
  match keys with
  | [] => Return seen
  | name :: rest =>
      canonical <- normalizeEngineName (VString name) ;;
      canonicalNames rest
        (if smem canonical seen then seen else seen ++ [canonical])
  end.

Definition getAvailableEngines (f : t) : completion (list string) :=
  if negb (initialized f) then Return []
  else canonicalNames (map fst (engines f)) [].

(** [initialize()]: the JavaScript engine is registered under all its
    aliases; the PCRE block is commented out in the source.  The closing
    log line, written unless the factory is silent, calls
    [getAvailableEngines()], whose exception is the exception of
    [initialize]: the result is the factory after a call that returns. *)
Definition initialize (H : RegExp.Host) (f : t) : completion t :=
  if initialized f then Return f
  else
    let jsEngine := Engine.javascript H in
    let engines :=
      fold_left (fun m alias => map_set m alias jsEngine)
                (aliasesOf "javascript") (engines f) in
    if (List.length engines =? 0)%nat then
      Throw (Error "No regex engines could be initialized")
    else
      let this := mk engines true [] (pcreTried f) (options f) in
      if _silent this then Return this
      else
        _ <- getAvailableEngines this ;;
        Return this.

(** [getEngine(name)] *)
Definition getEngine (f : t) (name : value) : completion Engine.t :=
  if negb (initialized f) then
    Throw (Error "EngineFactory not initialized. Call initialize() first.")
  else
    normalizedName <- normalizeEngineName name ;;
    match map_get (engines f) normalizedName with
    | Some engine => Return engine
    | None =>
        available <- getAvailableEngines f ;;
        Throw (Error ("Engine '"
                        ++ match name with VString n => n | _ => "" end
                        ++ "' not available. Available engines: "
                        ++ join ", " available))
    end.

(** The [{ message, type }] object of the factory's [catch] blocks. *)
Definition errorOf (error : JS.error) : ErrorInfo.t :=
  ErrorInfo.mk (JS.message error) (JS.name error) None.

(** [async test(engineName, pattern, text, flags = '')] *)
Definition test (clock : nat -> Z) (f : t)
           (engineName pattern text flags : value)
  : completion Result.t :=
  _ <- validatePattern pattern ;;
  _ <- validateText text ;;
  validatedFlags <- validateFlags flags ;;
  engine <- getEngine f engineName ;;
  match Engine.test engine clock pattern text (VString validatedFlags) with
  | Return r => Return r
  | Throw error =>
      Return (Result.mk false (Engine.name engine) pattern
                        (VString validatedFlags) text []
                        (Some (errorOf error)))
  end.

(** [async findAll(engineName, pattern, text, flags = '')] *)
Definition findAll (clock : nat -> Z) (f : t)
           (engineName pattern text flags : value)
  : completion Result.t :=
  _ <- validatePattern pattern ;;
  _ <- validateText text ;;
  validatedFlags <- validateFlags flags ;;
  engine <- getEngine f engineName ;;
  match Engine.findAll engine clock pattern text
                       (VString validatedFlags) with
  | Return r => Return r
  | Throw error =>
      Return (Result.mk false (Engine.name engine) pattern
                        (VString validatedFlags) text []
                        (Some (errorOf error)))
  end.

(** [async replace(engineName, pattern, text, replacement, flags = '')] *)
Definition replace (clock : nat -> Z) (f : t)
           (engineName pattern text replacement flags : value)
  : completion ReplaceResult.t :=
  _ <- validatePattern pattern ;;
  _ <- validateText text ;;
  validatedFlags <- validateFlags flags ;;
  _ <- match replacement with
       | VNull | VUndefined =>
           Throw (Error "Replacement cannot be null or undefined")
       | VString _ => Return tt
       | _ => Throw (Error "Replacement must be a string")
       end ;;
  engine <- getEngine f engineName ;;
  match Engine.replace engine clock pattern text replacement
                       (VString validatedFlags) with
  | Return r => Return r
  | Throw error =>
      Return (ReplaceResult.mk false (Engine.name engine) pattern
                (VString validatedFlags) text replacement text
                (Some (errorOf error)))
  end.

(** [getAllEngineNames()] *)
Definition getAllEngineNames (f : t) : list string :=
  if negb (initialized f) then [] else map fst (engines f).

(** [map.has(key)] *)
Definition map_has (m : list (string * Engine.t)) (key : string) : bool :=
  match map_get m key with Some _ => true | None => false end.

(** [isEngineAvailable(engineName)] *)
Definition isEngineAvailable (f : t) (engineName : value) : bool :=
  match normalizeEngineName engineName with
  | Return normalizedName => map_has (engines f) normalizedName
  | Throw _ => false
  end.

(** [async maybeLazyLoadEngine(name)]: the value returned and the factory
    afterwards.  The dynamic import is commented out in the source. *)
Definition maybeLazyLoadEngine (f : t) (name : string) : bool * t :=
  let target := toLowerCase name in
  if negb (String.eqb target "pcre") then (false, f)
  else if isEngineAvailable f (VString "pcre") then (false, f)
  else if pcreTried f then (false, f)
  else (false, mk (engines f) (initialized f) (initializationErrors f) true
                  (options f)).

(** [results[key] = value] on a plain object with string keys. *)
Fixpoint obj_set (o : list (string * Result.t)) (key : string)
         (v : Result.t) : list (string * Result.t) :=
  match o with
  | [] => [(key, v)]
  | (k, v0) :: rest =>
      if String.eqb k key then (k, v) :: rest
      else (k, v0) :: obj_set rest key v
  end.

(** The loop of [compare]; [clocks call] is the time oracle of the
    [call]-th call of [test]. *)
Fixpoint compare_loop (clocks : nat -> nat -> Z) (f : t)
         (pattern text : value) (validatedFlags : string)
         (engineNames : list string) (call : nat)
         (results : list (string * Result.t)) : list (string * Result.t) :=
  match engineNames with
  | [] => results
  | engineName :: rest =>
      let entry :=
        match test (clocks call) f (VString engineName) pattern text
                   (VString validatedFlags) with
        | Return r => r
        | Throw error =>
            Result.mk false engineName pattern (VString validatedFlags) text
                      [] (Some (ErrorInfo.mk (JS.message error) "EngineError"
                                             None))
        end in
      compare_loop clocks f pattern text validatedFlags rest (S call)
                   (obj_set results engineName entry)
  end.

(** [async compare(pattern, text, flags = '')] *)
Definition compare (clocks : nat -> nat -> Z) (f : t)
           (pattern text flags : value)
  : completion (list (string * Result.t)) :=
  _ <- validatePattern pattern ;;
  _ <- validateText text ;;
  validatedFlags <- validateFlags flags ;;
  engineNames <- getAvailableEngines f ;;
  Return (compare_loop clocks f pattern text validatedFlags engineNames 0 []).

(** [destroy()]: the engines are destroyed and the map is cleared. *)
Definition destroy (f : t) : t := mk [] false [] (pcreTried f) (options f).

End EngineFactory.

(* ================================================================== *)
(** * argParser.js: the validators of the engine name and of the flags *)

Module ArgParser.
Import JS.

Definition SUPPORTED_ENGINES : list string := ["js"; "javascript"; "pcre"].
Definition VALID_FLAGS : list ascii :=
  ["i"; "g"; "m"; "s"; "u"; "y"; "x"]%char.
Definition DEFAULT_ENGINE : string := "javascript".

(** [validateFlags(flags)] on a command-line string. *)
Definition validateFlags (flags : string) : completion string :=
  if negb (truthy (VString flags)) then Return ""
  else
    let flagArray := chars flags in
    let invalidFlags :=
      filter (fun flag => negb (mem flag VALID_FLAGS)) flagArray in
    if (0 <? List.length invalidFlags)%nat then
      Throw (Error ("Invalid regex flags: " ++ str invalidFlags
                      ++ ". Valid flags: "
                      ++ join ", " (map (fun c => str [c]) VALID_FLAGS)))
    else Return (str (set_of flagArray)).

(** [validateEngine(engine)] *)
Definition validateEngine (engine : string) : completion string :=
  let normalizedEngine := toLowerCase engine in
  if negb (smem normalizedEngine SUPPORTED_ENGINES) then
    Throw (Error ("Invalid engine: " ++ engine ++ ". Supported engines: "
                    ++ join ", " SUPPORTED_ENGINES))
  else
    Return (if String.eqb normalizedEngine "js" then "javascript"
            else normalizedEngine).

End ArgParser.

(* ================================================================== *)
(** * app.js: the callers of the factory *)

Module RegexPlayApp.
Import JS.

(** The fields of the application that [testPattern] and [findAllMatches]
    read. *)
Record t : Type := mk {
  initialized : bool;
  engineFactory : option EngineFactory.t
}.

(** In [runCLI]: [workingFlags.replace(/x/g, '')] removes every [x] when
    the engine is not [pcre]. *)
Definition executionFlags (workingFlags workingEngine : string) : string :=
  if includes workingFlags "x" && negb (String.eqb workingEngine "pcre")
  then str (filter (fun c => negb (Ascii.eqb c "x")) (chars workingFlags))
  else workingFlags.

Section Methods.
(** [this.initialize()], which needs the terminal and the process, and the
    TypeError of a method call on [null]. *)
Variable initialize : t -> completion t.
Variable nullAccess : JS.error.
Variable clock : nat -> Z.

Definition checkInputs (pattern text flags : value) : completion unit :=
  match pattern, text with
  | VString p, VString _ =>
      match flags with
      | VString _ =>
          if (String.length p =? 0)%nat then
            Throw (Error "Pattern cannot be empty")
          else Return tt
      | _ => Throw (Error "Flags must be a string")
      end
  | _, _ => Throw (Error "Pattern and text must be strings")
  end.

(** [async testPattern(engine, pattern, text, flags = '')] *)
Definition testPattern (this : t) (engine pattern text flags : value)
  : completion Result.t :=
  let flags := default_param flags (VString "") in
  this <- (if initialized this then Return this else initialize this) ;;
  _ <- checkInputs pattern text flags ;;
  match (match engineFactory this with
         | Some f => EngineFactory.test clock f engine pattern text flags
         | None => Throw nullAccess
         end) with
  | Return result => Return result
  | Throw error =>
      Throw (Error ("Pattern test failed: " ++ JS.message error))
  end.

(** [async findAllMatches(engine, pattern, text, flags = '')] *)
Definition findAllMatches (this : t) (engine pattern text flags : value)
  : completion Result.t :=
  let flags := default_param flags (VString "") in
  this <- (if initialized this then Return this else initialize this) ;;
  _ <- checkInputs pattern text flags ;;
  match (match engineFactory this with
         | Some f => EngineFactory.findAll clock f engine pattern text flags
         | None => Throw nullAccess
         end) with
  | Return result => Return result
  | Throw error => Throw (Error ("FindAll failed: " ++ JS.message error))
  end.

End Methods.
End RegexPlayApp.

(* ================================================================== *)
(** * A reference host for a fragment of the pattern language

    A pattern of the fragment is a sequence of atoms (a literal character,
    [.], [\d], [\w], [\s], [\n], [\t], [\r], an escaped syntax character),
    each optionally followed by one greedy quantifier [*], [+] or [?].
    Matching backtracks as the platform's engines do.  The flags [i] and [s]
    change the matcher; groups, classes, anchors and alternation are outside
    the fragment and are reported as such by this host. *)

Module Reference.
Import JS.

Inductive atom : Type :=
| Lit (c : ascii)
| AnyChar
| Digit
| Word
| Space.

Inductive quantifier : Type := One | Star | Plus | Opt.

Inductive token : Type :=
| TAtom (a : atom)
| TQuant (q : quantifier)
| TOutside
| TDangling.

Record program : Type := mkProgram {
  items : list (atom * quantifier);
  ignoreCase : bool;
  dotAll : bool
}.

Definition is_syntax_char (c : ascii) : bool :=
  mem c ["^"; "$"; "\"; "."; "*"; "+"; "?"; "("; ")"; "["; "]"; "{"; "}";
         "|"; "/"]%char.

Definition escape (c : ascii) : token :=
  if Ascii.eqb c "d" then TAtom Digit
  else if Ascii.eqb c "w" then TAtom Word
  else if Ascii.eqb c "s" then TAtom Space
  else if Ascii.eqb c "n" then TAtom (Lit (ascii_of_nat 10))
  else if Ascii.eqb c "t" then TAtom (Lit (ascii_of_nat 9))
  else if Ascii.eqb c "r" then TAtom (Lit (ascii_of_nat 13))
  else if is_syntax_char c then TAtom (Lit c)
  else TOutside.

Fixpoint tokens (l : list ascii) : list token :=
  match l with
  | [] => []
  | c :: rest =>
      if Ascii.eqb c "\" then
        match rest with
        | [] => [TDangling]
        | e :: rest' => escape e :: tokens rest'
        end
      else if Ascii.eqb c "." then TAtom AnyChar :: tokens rest
      else if Ascii.eqb c "*" then TQuant Star :: tokens rest
      else if Ascii.eqb c "+" then TQuant Plus :: tokens rest
      else if Ascii.eqb c "?" then TQuant Opt :: tokens rest
      else if is_syntax_char c then TOutside :: tokens rest
      else TAtom (Lit c) :: tokens rest
  end.

Fixpoint group (ts : list token) : list (atom * quantifier) + string :=
  match ts with
  | [] => inl []
  | TAtom a :: rest =>
      match rest with
      | TQuant q :: rest' =>
          match rest' with
          | TQuant _ :: _ => inr "outside the fragment"
          | _ =>
              match group rest' with
              | inl its => inl ((a, q) :: its)
              | inr e => inr e
              end
          end
      | _ =>
          match group rest with
          | inl its => inl ((a, One) :: its)
          | inr e => inr e
          end
      end
  | TQuant _ :: _ => inr "Nothing to repeat"
  | TOutside :: _ => inr "outside the fragment"
  | TDangling :: _ => inr "\ at end of pattern"
  end.

Definition initialize (pattern flags : string) : program + string :=
  match group (tokens (chars pattern)) with
  | inl its => inl (mkProgram its (includes flags "i") (includes flags "s"))
  | inr e =>
      inr ("Invalid regular expression: /" ++ pattern ++ "/: " ++ e)%string
  end.

Definition atom_ok (ic ds : bool) (a : atom) (c : ascii) : bool :=
  let n := nat_of_ascii c in
  match a with
  | Lit x =>
      if ic then Ascii.eqb (lower_char x) (lower_char c) else Ascii.eqb x c
  | AnyChar => ds || negb ((n =? 10) || (n =? 13))%nat
  | Digit => ((48 <=? n) && (n <=? 57))%nat
  | Word =>
      (((48 <=? n) && (n <=? 57)) || ((65 <=? n) && (n <=? 90))
       || ((97 <=? n) && (n <=? 122)) || (n =? 95))%nat
  | Space => is_space c
  end.

(** The longest run of characters accepted by the atom. *)
Fixpoint run (ok : ascii -> bool) (l : list ascii) : nat :=
  match l with
  | c :: rest => if ok c then S (run ok rest) else 0
  | [] => 0
  end.

(** The number of characters consumed by a match of the items at the head
    of [l]: the greedy choice first, then shorter ones. *)
Fixpoint match_items (ic ds : bool) (its : list (atom * quantifier))
         (l : list ascii) : option nat :=
  match its with
  | [] => Some 0
  | (a, q) :: rest =>
      let longest := run (atom_ok ic ds a) l in
      let hi := match q with
                | One | Opt => Nat.min 1 longest
                | Star | Plus => longest
                end in
      let lo := match q with One | Plus => 1 | Star | Opt => 0 end in
      let fix attempt (k : nat) : option nat :=
        match match_items ic ds rest (skipn k l) with
        | Some n => Some (k + n)
        | None =>
            match k with
            | 0 => None
            | S k' => if (k' <? lo)%nat then None else attempt k'
            end
        end in
      if (hi <? lo)%nat then None else attempt hi
  end.

Definition matcher (p : program) (subject : string) (i : nat)
  : option RegExp.MatchState :=
  if (i <=? String.length subject)%nat then
    match match_items (ignoreCase p) (dotAll p) (items p)
                      (skipn i (chars subject)) with
    | Some n => Some (RegExp.mkMatchState n [] None)
    | None => None
    end
  else None.

(** The platform's RegExp restricted to the fragment. *)
Definition host : RegExp.Host := RegExp.mkHost program initialize matcher.

(** The PCRE library restricted to the fragment, with the option bits of
    PCRE. *)
Definition pcre_compile (pattern : string) (options : Z)
  : program + JS.error :=
  match group (tokens (chars pattern)) with
  | inl its => inl (mkProgram its (Z.testbit options 0) (Z.testbit options 2))
  | inr e => inr (Error ("compilation failed: " ++ e))
  end.

Fixpoint pcre_search (p : program) (subject : string) (fuel i : nat)
  : option PCREEngine.exec_result :=
  match fuel with
  | 0 => None
  | S fuel' =>
      match matcher p subject i with
      | Some st =>
          let e := Nat.min (i + RegExp.consumed st) (String.length subject) in
          Some (PCREEngine.mkExecResult true (Z.of_nat i) (Z.of_nat e)
                  (Some (substring subject i e)) (Some []) None)
      | None => pcre_search p subject fuel' (S i)
      end
  end.

Definition pcre_exec (p : program) (subject : string) (offset : Z)
  : completion (option PCREEngine.exec_result) :=
  Return (pcre_search p subject
            (String.length subject + 1 - Z.to_nat offset)
            (Z.to_nat offset)).

Definition pcre_quickMatch (pattern subject : string) (options : Z)
  : completion (option PCREEngine.exec_result) :=
  match pcre_compile pattern options with
  | inl p => pcre_exec p subject 0
  | inr e => Throw e
  end.

Definition pcre : PCREEngine.Host :=
  PCREEngine.mkHost program 1 2 4 8 2048 pcre_compile pcre_exec
                    pcre_quickMatch.

Definition ready : PCREEngine.engine := PCREEngine.mkEngine true None.

(** A clock that never advances, and one that jumps by a minute at every
    reading. *)
Definition frozen : nat -> Z := fun _ => 0%Z.
Definition slow : nat -> Z := fun k => (60000 * Z.of_nat k)%Z.

(** A clock that advances by a tenth of a second at every reading. *)
Definition steady : nat -> Z := fun k => (100 * Z.of_nat k)%Z.

(** The factory that [initialize] builds over the reference host from
    [new EngineFactory()]. *)
Definition factory : EngineFactory.t :=
  EngineFactory.mk
    [("javascript", Engine.javascript host); ("js", Engine.javascript host)]
    true [] false (EngineFactory.options (EngineFactory.new [])).

Definition repeat_string (c : ascii) (n : nat) : string :=
  str (repeat c n).

End Reference.


(* ================================================================== *)
(** * Vocabulary of the properties *)

Module Props.
Import JS.

(** The flags are made of the characters of [supported] only. *)
Definition made_of (supported : list ascii) (flags : string) : bool :=
  forallb (fun c => mem c supported) (chars flags).

(** The distinct flags of a string, in first-occurrence order. *)
Definition distinct (flags : string) : string := str (set_of (chars flags)).

(** The span recorded in a match is the matched text inside the subject. *)
Definition span_ok (subject : string) (m : Match.t) : Prop :=
  (0 <= Match.index m)%Z
  /\ (0 <= Match.length m)%Z
  /\ (Match.index m + Match.length m <= Z.of_nat (String.length subject))%Z
  /\ substringZ subject (Match.index m) (Match.index m + Match.length m)
     = Match.fullMatch m.

(** Consecutive matches start at strictly increasing positions and do not
    overlap. *)
Definition ordered (ms : list Match.t) : Prop :=
  forall i a b,
    nth_error ms i = Some a -> nth_error ms (S i) = Some b ->
    (Match.index a < Match.index b)%Z
    /\ (Match.index a + Match.length a <= Match.index b)%Z.

(** The match ends, and starts, before the position [bound]. *)
Definition before (bound : nat) (m : Match.t) : Prop :=
  (Match.index m < Z.of_nat bound)%Z
  /\ (Match.index m + Match.length m <= Z.of_nat bound)%Z.

(** What the adapter relies on in a successful result of the PCRE
    library: a span inside the subject, and the matched text when the
    library reports it. *)
Definition result_ok (subject : string) (r : PCREEngine.exec_result)
  : Prop :=
  (0 <= PCREEngine.start r)%Z
  /\ (PCREEngine.start r <= PCREEngine.end_ r)%Z
  /\ (PCREEngine.end_ r <= Z.of_nat (String.length subject))%Z
  /\ (PCREEngine.matchText r = None
      \/ PCREEngine.matchText r
         = Some (substringZ subject (PCREEngine.start r)
                            (PCREEngine.end_ r))).

Definition library_ok (P : PCREEngine.Host) : Prop :=
  (forall regex subject offset r,
      PCREEngine.exec P regex subject offset = Return (Some r) ->
      PCREEngine.succeeded r = true -> result_ok subject r)
  /\ (forall pattern subject options r,
         PCREEngine.quickMatch P pattern subject options = Return (Some r) ->
         PCREEngine.succeeded r = true -> result_ok subject r).

(** What holds of the matches pushed so far when the scan loop of
    [JavaScriptEngine.findAll] tests its condition: they are ordered, lie
    before [lastIndex], record their spans, and there are at most
    [lastIndex] of them. *)
Definition loop_inv (H : RegExp.Host) (t : string) (regex : RegExp.object H)
           (ms : list Match.t) : Prop :=
  includes (RegExp.flagsOf regex) "g" = true
  /\ RegExp.lastIndex regex <= String.length t
  /\ List.length ms <= RegExp.lastIndex regex
  /\ ordered ms
  /\ Forall (before (RegExp.lastIndex regex)) ms
  /\ Forall (span_ok t) ms.

(** What holds of the matches when that loop is left. *)
Definition loop_post (t : string) (ms : list Match.t) : Prop :=
  List.length ms <= String.length t + 1
  /\ ordered ms
  /\ Forall (span_ok t) ms.

(** The matches carried out of the scan loop of [PCREEngine.findAll] record
    their spans. *)
Definition end_ok (t : string) (e : PCREEngine.loop_end) : Prop :=
  match e with
  | PCREEngine.Returned r => Forall (span_ok t) (Result.matches r)
  | PCREEngine.Left ms _ => Forall (span_ok t) ms
  end.

(** Follows the spec's words ("every non-overlapping match is substituted,
    scanning left-to-right"): each match of the list is replaced by its
    substitution, and the text between the matches is kept. *)
Fixpoint substitute_each (subject replacement : string)
         (results : list RegExp.match_array) (from : nat) : string :=
  match results with
  | [] => substring subject from (String.length subject)
  | m :: rest =>
      (substring subject from (RegExp.index m)
         ++ RegExp.GetSubstitution (RegExp.at0 m) subject (RegExp.index m)
              (RegExp.slice1 m) (RegExp.groups m) replacement
         ++ substitute_each subject replacement rest
              (RegExp.index m + String.length (RegExp.at0 m)))%string
  end.

(** The matches of the list follow each other inside a subject of [len]
    code units, the first one at or after [from]. *)
Fixpoint chain (len from : nat) (results : list RegExp.match_array) : Prop :=
  match results with
  | [] => True
  | m :: rest =>
      from <= RegExp.index m
      /\ RegExp.index m + String.length (RegExp.at0 m) <= len
      /\ chain len (RegExp.index m + String.length (RegExp.at0 m)) rest
  end.

(** The flags echoed in a result are a string with each character once. *)
Definition echoes_once (flags : value) : Prop :=
  exists s, flags = VString s /\ NoDup (chars s).

(** The entry that [compare] stores for an engine: the result of [test],
    or the failed result built from the exception of [test]. *)
Definition compare_entry (clock : nat -> Z) (f : EngineFactory.t)
           (pattern text : value) (vf : string) (name : string) : Result.t :=
  match EngineFactory.test clock f (VString name) pattern text (VString vf)
  with
  | Return r => r
  | Throw error =>
      Result.mk false name pattern (VString vf) text []
                (Some (ErrorInfo.mk (JS.message error) "EngineError" None))
  end.

(** The key is an alias that [normalizeEngineName] knows. *)
Definition known_alias (key : string) : bool :=
  returned (EngineFactory.normalizeEngineName (VString key)).

(** What the scan loops of the PCRE adapter rely on to make progress: a
    match found from an offset starts at or after that offset. *)
Definition library_advances (P : PCREEngine.Host) : Prop :=
  forall regex subject offset r,
    PCREEngine.exec P regex subject offset = Return (Some r) ->
    PCREEngine.succeeded r = true ->
    (offset <= PCREEngine.start r)%Z.

(** The matches that the scan loop of [PCREEngine.findAll] hands over. *)
Definition carried (e : PCREEngine.loop_end) : list Match.t :=
  match e with
  | PCREEngine.Returned r => Result.matches r
  | PCREEngine.Left ms _ => ms
  end.

End Props.

(* ================================================================== *)
(** * Properties *)

Import JS.
Import Props.

(** ** Strings and sets of flags *)

Lemma length_chars (s : string) : List.length (chars s) = String.length s.
Proof.
  induction s as [|c s IH]; simpl; [reflexivity | now rewrite IH].
Qed.

Lemma chars_str (l : list ascii) : chars (str l) = l.
Proof. apply list_ascii_of_string_of_list_ascii. Qed.

Lemma str_chars (s : string) : str (chars s) = s.
Proof. apply string_of_list_ascii_of_string. Qed.

Lemma length_str (l : list ascii) : String.length (str l) = List.length l.
Proof. now rewrite <- length_chars, chars_str. Qed.

Lemma chars_append (s1 s2 : string) :
  chars (s1 ++ s2)%string = chars s1 ++ chars s2.
Proof.
  induction s1 as [|c s1 IH]; simpl; [reflexivity | now rewrite IH].
Qed.

Lemma includes_str (l : list ascii) (c : ascii) : includes (str l) c = mem c l.
Proof. unfold includes. now rewrite chars_str. Qed.

Lemma mem_In (c : ascii) (l : list ascii) : mem c l = true <-> In c l.
Proof.
  unfold mem. rewrite existsb_exists. split.
  - intros [x [Hin Heq]]. apply Ascii.eqb_eq in Heq. now subst.
  - intros Hin. exists c. split; [assumption | apply Ascii.eqb_refl].
Qed.

Lemma mem_app (c : ascii) (l1 l2 : list ascii) :
  mem c (l1 ++ l2) = mem c l1 || mem c l2.
Proof. unfold mem. apply existsb_app. Qed.

(** The length of a substring taken inside the subject. *)
Lemma substring_length (s : string) (a b : nat) :
  a <= b -> b <= String.length s ->
  String.length (substring s a b) = b - a.
Proof.
  intros Hab Hb. unfold substring.
  rewrite length_str, length_firstn, length_skipn, length_chars.
  lia.
Qed.

Lemma substring_all (s : string) : substring s 0 (String.length s) = s.
Proof.
  unfold substring.
  rewrite Nat.min_0_l, Nat.min_id, Nat.min_0_l, Nat.max_0_l, Nat.sub_0_r.
  simpl. rewrite <- length_chars, firstn_all. apply str_chars.
Qed.

Lemma substringZ_of_nat (s : string) (a b : nat) :
  substringZ s (Z.of_nat a) (Z.of_nat b) = substring s a b.
Proof. unfold substringZ. now rewrite !Nat2Z.id. Qed.

(** Adding the elements of a list to a set of distinct elements. *)
Lemma set_add_all_NoDup (l seen : list ascii) :
  NoDup seen -> NoDup (set_add_all seen l).
Proof.
  revert seen. induction l as [|c l IH]; intros seen Hnd; simpl.
  - assumption.
  - destruct (mem c seen) eqn:Hm.
    + now apply IH.
    + apply IH. apply NoDup_app; [assumption | repeat constructor; easy |].
      intros x Hx [Hc|[]]. subst x.
      apply mem_In in Hx. congruence.
Qed.

Lemma set_add_all_mem (c : ascii) (l seen : list ascii) :
  mem c (set_add_all seen l) = mem c seen || mem c l.
Proof.
  revert seen. induction l as [|d l IH]; intros seen; simpl.
  - now rewrite orb_false_r.
  - destruct (mem d seen) eqn:Hm; rewrite IH.
    + destruct (Ascii.eqb c d) eqn:Hcd; simpl; [|reflexivity].
      apply Ascii.eqb_eq in Hcd. subst d. now rewrite Hm.
    + rewrite mem_app. simpl. rewrite orb_false_r.
      now rewrite orb_assoc.
Qed.

Lemma set_add_all_app (l1 l2 seen : list ascii) :
  set_add_all seen (l1 ++ l2) = set_add_all (set_add_all seen l1) l2.
Proof.
  revert seen. induction l1 as [|c l1 IH]; intros seen; simpl.
  - reflexivity.
  - destruct (mem c seen); apply IH.
Qed.

(** Elements that are new and distinct are appended as they come. *)
Lemma set_add_all_fresh (l seen : list ascii) :
  NoDup (seen ++ l) -> set_add_all seen l = seen ++ l.
Proof.
  revert seen. induction l as [|c l IH]; intros seen Hnd; simpl.
  - now rewrite app_nil_r.
  - destruct (mem c seen) eqn:Hm.
    + exfalso. apply mem_In in Hm.
      apply NoDup_remove_2 in Hnd. apply Hnd.
      apply in_or_app. now left.
    + rewrite IH; rewrite <- app_assoc; [reflexivity | exact Hnd].
Qed.

Lemma set_of_NoDup (l : list ascii) : NoDup (set_of l).
Proof. apply set_add_all_NoDup. constructor. Qed.

Lemma set_of_idempotent (l : list ascii) : set_of (set_of l) = set_of l.
Proof.
  unfold set_of at 1. apply (set_add_all_fresh (set_of l) []).
  apply set_of_NoDup.
Qed.

Lemma set_of_mem (c : ascii) (l : list ascii) : mem c (set_of l) = mem c l.
Proof. unfold set_of. now rewrite set_add_all_mem. Qed.

Lemma filter_nil_forallb {A : Type} (f : A -> bool) (l : list A) :
  (0 <? List.length (filter (fun x => negb (f x)) l))%nat = negb (forallb f l).
Proof.
  induction l as [|x l IH]; simpl; [reflexivity|].
  destruct (f x); simpl; [assumption | reflexivity].
Qed.

Lemma forallb_set_of (f : ascii -> bool) (l : list ascii) :
  forallb f l = true -> forallb f (set_of l) = true.
Proof.
  rewrite !forallb_forall. intros Hl x Hx. apply Hl.
  apply mem_In. rewrite <- set_of_mem. now apply mem_In.
Qed.

(** ** What [exec] reports *)

Section Exec.
Variable H : RegExp.Host.

Lemma search_range (m : RegExp.compiled H) (sticky : bool) (t : string)
      (fuel i j : nat) (st : RegExp.MatchState) :
  RegExp.search H m sticky t fuel i = Some (j, st) ->
  i <= j /\ j < i + fuel.
Proof.
  revert i. induction fuel as [|fuel IH]; intros i; simpl.
  - discriminate.
  - destruct (RegExp.matcher H m t i) as [st'|].
    + intros E. injection E as <- <-. lia.
    + destruct sticky; [discriminate|].
      intros E. apply IH in E. lia.
Qed.

(** A match lies inside the subject, at or after the position the scan
    started from, and [match[0]] is the text of its span. *)
Lemma exec_match (R R1 : RegExp.object H) (t : string)
      (m : RegExp.match_array) :
  RegExp.exec H R t = (Some m, R1) ->
  exists e,
    RegExp.index m <= e /\ e <= String.length t
    /\ RegExp.at0 m = substring t (RegExp.index m) e
    /\ String.length (RegExp.at0 m) = e - RegExp.index m
    /\ RegExp.flagsOf R1 = RegExp.flagsOf R
    /\ RegExp.code R1 = RegExp.code R
    /\ (includes (RegExp.flagsOf R) "g" = true ->
        RegExp.lastIndex R <= RegExp.index m /\ RegExp.lastIndex R1 = e).
Proof.
  unfold RegExp.exec.
  remember (if includes (RegExp.flagsOf R) "g"
               || includes (RegExp.flagsOf R) "y"
            then RegExp.lastIndex R else 0) as start eqn:Hstart.
  destruct (RegExp.search H (RegExp.code R) _ t _ start) as [[i st]|] eqn:Es;
    [|discriminate].
  apply search_range in Es.
  intros E. injection E as <- <-. simpl.
  exists (Nat.min (i + RegExp.consumed st) (String.length t)).
  assert (Hi : i <= String.length t) by lia.
  repeat split; try lia.
  - apply substring_length; lia.
  - now destruct (_ || _).
  - now destruct (_ || _).
  - rewrite H0 in Hstart. simpl in Hstart. lia.
  - rewrite H0. reflexivity.
Qed.

Lemma create_fresh (p f : string) (R : RegExp.object H) :
  RegExp.create H p f = Return R ->
  RegExp.flagsOf R = f /\ RegExp.lastIndex R = 0.
Proof.
  unfold RegExp.create. destruct (RegExp.initialize H p f); [|discriminate].
  intros E. injection E as <-. now split.
Qed.
End Exec.

(** ** The scan loop of [JavaScriptEngine.findAll] *)

Lemma ordered_nil : ordered [].
Proof. intros i a b Ha. destruct i; discriminate. Qed.

Lemma ordered_snoc (ms : list Match.t) (x : Match.t) (bound : nat) :
  ordered ms -> Forall (before bound) ms ->
  (Z.of_nat bound <= Match.index x)%Z ->
  ordered (ms ++ [x]).
Proof.
  intros Hord Hall Hx i a b Ha Hb.
  destruct (Nat.lt_ge_cases (S i) (List.length ms)) as [Hlt|Hge].
  - rewrite nth_error_app1 in Ha by lia.
    rewrite nth_error_app1 in Hb by lia.
    now apply (Hord i).
  - assert (Hi : i < List.length ms).
    { assert (Hi' : i < List.length (ms ++ [x]))
        by (apply nth_error_Some; congruence).
      rewrite length_app in Hi'. simpl in Hi'.
      destruct (Nat.eq_dec i (List.length ms)) as [->|]; [|lia].
      rewrite nth_error_app2 in Hb by lia.
      replace (S (List.length ms) - List.length ms) with 1 in Hb by lia.
      discriminate. }
    rewrite nth_error_app1 in Ha by lia.
    rewrite nth_error_app2 in Hb by lia.
    replace (S i - List.length ms) with 0 in Hb by lia.
    simpl in Hb. injection Hb as <-.
    apply nth_error_In in Ha.
    rewrite Forall_forall in Hall. destruct (Hall a Ha) as [H1 H2].
    lia.
Qed.

Lemma Forall_before_mono (ms : list Match.t) (b1 b2 : nat) :
  b1 <= b2 -> Forall (before b1) ms -> Forall (before b2) ms.
Proof.
  intros Hle. apply Forall_impl. intros m [H1 H2]. unfold before. lia.
Qed.

Section FindAllLoop.
Variable H : RegExp.Host.
Variable clock : nat -> Z.
Variable t : string.

Lemma formatMatch_span (R R1 : RegExp.object H) (m : RegExp.match_array) :
  RegExp.exec H R t = (Some m, R1) ->
  span_ok t (JavaScriptEngine.formatMatch m).
Proof.
  intros E. apply exec_match in E.
  destruct E as (e & H1 & H2 & H3 & H4 & _).
  unfold span_ok, JavaScriptEngine.formatMatch. simpl.
  repeat split; try lia.
  rewrite H4, <- Nat2Z.inj_add, substringZ_of_nat.
  replace (RegExp.index m + (e - RegExp.index m)) with e by lia.
  now symmetry.
Qed.

Lemma findAll_loop_post (remaining : nat) :
  forall iterationCount regex ms ms' err,
    loop_inv H t regex ms ->
    JavaScriptEngine.findAll_loop H clock t remaining iterationCount
                                  regex ms = (ms', err) ->
    loop_post t ms'.
Proof.
  induction remaining as [|remaining IH];
    intros count regex ms ms' err (Hg & Hli & Hlen & Hord & Hbef & Hspan);
    simpl;
    destruct (RegExp.exec H regex t) as [[m|] regex1] eqn:E.
  1, 2, 4: intros X; injection X as <- <-;
    (split; [lia | split; assumption]).
  destruct (JavaScriptEngine.timedOut clock (S count)).
  { intros X; injection X as <- <-.
    split; [lia | split; assumption]. }
  pose proof (formatMatch_span _ _ _ E) as Hm.
  apply exec_match in E.
  destruct E as (e & H1 & H2 & H3 & H4 & H5 & _ & H6).
  destruct (H6 Hg) as [H7 H8]. clear H6.
  set (regex2 := if (RegExp.index m =? RegExp.lastIndex regex1)%nat
                 then _ else regex1).
  assert (Hli2 : RegExp.index m < RegExp.lastIndex regex2
                 /\ e <= RegExp.lastIndex regex2
                 /\ RegExp.lastIndex regex2 <= e + 1
                 /\ RegExp.flagsOf regex2 = RegExp.flagsOf regex).
  { subst regex2.
    destruct (RegExp.index m =? RegExp.lastIndex regex1)%nat eqn:Q;
      [apply Nat.eqb_eq in Q | apply Nat.eqb_neq in Q]; simpl;
      repeat split; try lia; assumption. }
  destruct Hli2 as (L1 & L2 & L3 & L4).
  assert (Hord' : ordered (ms ++ [JavaScriptEngine.formatMatch m])).
  { apply (ordered_snoc _ _ (RegExp.lastIndex regex)); try assumption.
    simpl. lia. }
  assert (Hspan' : Forall (span_ok t)
                          (ms ++ [JavaScriptEngine.formatMatch m])).
  { apply Forall_app. split; [assumption | now constructor]. }
  assert (Hlen' : List.length (ms ++ [JavaScriptEngine.formatMatch m])
                  <= RegExp.lastIndex regex2).
  { rewrite length_app. simpl. lia. }
  destruct (String.length t <? RegExp.lastIndex regex2)%nat eqn:Q.
  - intros X; injection X as <- <-.
    split; [|split; assumption].
    rewrite length_app. simpl. lia.
  - apply Nat.ltb_ge in Q. apply IH.
    split; [now rewrite L4|].
    do 3 (split; [assumption|]).
    split; [|assumption].
    + apply Forall_app. split.
      * apply (Forall_before_mono _ (RegExp.lastIndex regex)); [lia|].
        assumption.
      * constructor; [|constructor].
        unfold before, JavaScriptEngine.formatMatch. simpl. lia.
Qed.

(** Leaving the loop on the cap: exactly [remaining] matches were pushed. *)
Lemma findAll_loop_cap (remaining : nat) :
  forall iterationCount regex ms ms',
    JavaScriptEngine.findAll_loop H clock t remaining iterationCount
                                  regex ms
    = (ms', Some JavaScriptEngine.tooManyMatches) ->
    List.length ms' = List.length ms + remaining.
Proof.
  induction remaining as [|remaining IH]; intros count regex ms ms';
    cbn [JavaScriptEngine.findAll_loop];
    destruct (RegExp.exec H regex t) as [[m|] regex1].
  - intros X. apply (f_equal fst) in X. cbn [fst] in X. subst ms'. lia.
  - intros X. apply (f_equal snd) in X. cbn [snd] in X. discriminate X.
  - destruct (JavaScriptEngine.timedOut clock (S count)).
    + intros X. apply (f_equal snd) in X. cbn [snd] in X.
      assert (Q : JS.message JavaScriptEngine.executionTimeout
                  = JS.message JavaScriptEngine.tooManyMatches)
        by congruence.
      cbv in Q. discriminate Q.
    + destruct (_ <? _)%nat.
      * intros X. apply (f_equal snd) in X. cbn [snd] in X. discriminate X.
      * intros X. apply IH in X. rewrite length_app in X. simpl in X. lia.
  - intros X. apply (f_equal snd) in X. cbn [snd] in X. discriminate X.
Qed.
End FindAllLoop.

(** ** Sanitized flags *)

Lemma js_sanitize (f : string) :
  made_of JavaScriptEngine.SUPPORTED_FLAGS f = true ->
  JavaScriptEngine.validateAndSanitizeFlags (VString f) = Return (distinct f).
Proof.
  intros Hf. unfold JavaScriptEngine.validateAndSanitizeFlags.
  cbn [default_param]. rewrite filter_nil_forallb.
  unfold made_of in Hf. now rewrite Hf.
Qed.

Lemma pcre_sanitize (f : string) :
  made_of PCREEngine.SUPPORTED_FLAGS f = true ->
  PCREEngine.validateAndSanitizeFlags (VString f) = Return (distinct f).
Proof.
  intros Hf. unfold PCREEngine.validateAndSanitizeFlags.
  cbn [default_param]. rewrite filter_nil_forallb.
  unfold made_of in Hf. now rewrite Hf.
Qed.

Lemma made_of_distinct (supported : list ascii) (f : string) :
  made_of supported f = true -> made_of supported (distinct f) = true.
Proof.
  unfold made_of, distinct. rewrite chars_str. apply forallb_set_of.
Qed.

Lemma distinct_idempotent (f : string) : distinct (distinct f) = distinct f.
Proof. unfold distinct. now rewrite chars_str, set_of_idempotent. Qed.

Lemma distinct_NoDup (f : string) : NoDup (chars (distinct f)).
Proof. unfold distinct. rewrite chars_str. apply set_of_NoDup. Qed.

Lemma includes_distinct (f : string) (c : ascii) :
  includes (distinct f) c = includes f c.
Proof. unfold distinct. rewrite includes_str. apply set_of_mem. Qed.

(** Whatever the caller's flags, the flags [findAll] compiles with contain
    [g], and each flag once. *)
Lemma globalFlagsOf_g (f : string) :
  includes (JavaScriptEngine.globalFlagsOf (distinct f)) "g" = true.
Proof.
  unfold JavaScriptEngine.globalFlagsOf.
  destruct (includes (distinct f) "g") eqn:E; [assumption|].
  unfold includes. rewrite chars_append, mem_app. simpl.
  now rewrite orb_true_r.
Qed.

Lemma globalFlagsOf_NoDup (f : string) :
  NoDup (chars (JavaScriptEngine.globalFlagsOf (distinct f))).
Proof.
  unfold JavaScriptEngine.globalFlagsOf.
  destruct (includes (distinct f) "g") eqn:E; [apply distinct_NoDup|].
  rewrite chars_append. simpl.
  apply NoDup_app; [apply distinct_NoDup | repeat constructor; easy |].
  intros x Hx [Hg|[]]. subst x.
  apply mem_In in Hx. unfold includes in E. congruence.
Qed.

Lemma globalFlagsOf_append_g (f : string) :
  JavaScriptEngine.globalFlagsOf (distinct (f ++ "g"))
  = JavaScriptEngine.globalFlagsOf (distinct f).
Proof.
  unfold JavaScriptEngine.globalFlagsOf at 2.
  assert (Hd : distinct (f ++ "g")
               = if includes (distinct f) "g" then distinct f
                 else (distinct f ++ "g")%string).
  { unfold distinct at 1. rewrite chars_append. unfold set_of.
    rewrite set_add_all_app. fold (set_of (chars f)). simpl.
    rewrite includes_distinct. unfold includes.
    rewrite <- (set_of_mem "g" (chars f)).
    destruct (mem "g" (set_of (chars f))); [reflexivity|].
    unfold distinct.
    rewrite <- (str_chars (str (set_of (chars f)) ++ "g")).
    now rewrite chars_append, chars_str. }
  rewrite Hd.
  destruct (includes (distinct f) "g") eqn:E.
  - unfold JavaScriptEngine.globalFlagsOf. now rewrite E.
  - unfold JavaScriptEngine.globalFlagsOf.
    assert (Hg : includes (distinct f ++ "g") "g" = true).
    { unfold includes. rewrite chars_append, mem_app. simpl.
      now rewrite orb_true_r. }
    now rewrite Hg.
Qed.

(** ** The matches of [JavaScriptEngine.findAll] *)

Section FindAll.
Variable H : RegExp.Host.
Variable clock : nat -> Z.

(** The matches of a result are those of one run of the scan loop on a
    freshly compiled regular expression with the [g] flag. *)
Lemma findAll_matches (pattern text flags : value) :
  Result.matches (JavaScriptEngine.findAll H clock pattern text flags) = []
  \/ exists p t f regex ms err,
      pattern = VString p /\ text = VString t
      /\ RegExp.create H p (JavaScriptEngine.globalFlagsOf (distinct f))
         = Return regex
      /\ JavaScriptEngine.findAll_loop H clock t
           JavaScriptEngine.MAX_ITERATIONS 0 regex [] = (ms, err)
      /\ Result.matches (JavaScriptEngine.findAll H clock pattern text flags)
         = ms.
Proof.
  unfold JavaScriptEngine.findAll.
  generalize JavaScriptEngine.MAX_ITERATIONS. intros cap.
  destruct pattern as [| | | |p|]; try (now left).
  all: destruct text as [| | | |t|]; try (now left).
  unfold JavaScriptEngine.validateAndSanitizeFlags.
  destruct (default_param (default_param flags (VString "")) (VString ""))
    as [| | | |f|]; try (now left).
  destruct (0 <? _)%nat; [now left|].
  cbn [bind]. fold (distinct f).
  destruct (RegExp.create H p _) as [regex|e] eqn:Ec; [|now left].
  destruct (JavaScriptEngine.findAll_loop H clock t cap 0 regex [])
    as [ms [e|]] eqn:El.
  - destruct (0 <? List.length ms)%nat; [|now left].
    right. exists p, t, f, regex, ms, (Some e). now repeat split.
  - right. exists p, t, f, regex, ms, None. now repeat split.
Qed.

Lemma findAll_post (pattern : value) (t : string) (flags : value) :
  loop_post t
    (Result.matches
       (JavaScriptEngine.findAll H clock pattern (VString t) flags)).
Proof.
  destruct (findAll_matches pattern (VString t) flags)
    as [-> | (p & t' & f & regex & ms & err & _ & Et & Ec & El & ->)].
  - split; [simpl; lia | split; [apply ordered_nil | constructor]].
  - injection Et as <-.
    apply create_fresh in Ec. destruct Ec as [Ef E0].
    apply (findAll_loop_post H clock t _ _ _ _ _ _) in El; [assumption|].
    unfold loop_inv. rewrite Ef, E0.
    split; [apply globalFlagsOf_g|].
    split; [lia|]. split; [simpl; lia|].
    split; [apply ordered_nil|]. split; constructor.
Qed.
End FindAll.

(** ** Spans recorded by the adapters *)

Lemma test_span (H : RegExp.Host) (clock : nat -> Z)
      (pattern : value) (t : string) (flags : value) :
  Forall (span_ok t)
         (Result.matches
            (JavaScriptEngine.test H clock pattern (VString t) flags)).
Proof.
  unfold JavaScriptEngine.test.
  destruct pattern as [| | | |p|]; try constructor.
  destruct (JavaScriptEngine.validateAndSanitizeFlags _) as [s|e];
    [|constructor].
  cbn [bind].
  destruct (RegExp.create H p s) as [regex|e]; [|constructor].
  destruct (JavaScriptEngine.timedOut clock 1); [constructor|].
  destruct (RegExp.exec H regex t) as [[m|] regex1] eqn:E; [|constructor].
  cbn. constructor; [|constructor].
  exact (formatMatch_span H t _ _ _ E).
Qed.

Lemma pcre_formatMatch_span (t : string) (r : PCREEngine.exec_result) :
  result_ok t r -> span_ok t (PCREEngine.formatMatch r t).
Proof.
  intros (H0 & H1 & H2 & H3).
  unfold span_ok, PCREEngine.formatMatch. cbn.
  assert (Hs : num_or (PCREEngine.start r) 0 = PCREEngine.start r).
  { unfold num_or. destruct (PCREEngine.start r =? 0)%Z eqn:Q;
      [apply Z.eqb_eq in Q; now rewrite Q | reflexivity]. }
  assert (He : num_or (PCREEngine.end_ r) 0 = PCREEngine.end_ r).
  { unfold num_or. destruct (PCREEngine.end_ r =? 0)%Z eqn:Q;
      [apply Z.eqb_eq in Q; now rewrite Q | reflexivity]. }
  rewrite Hs, He.
  replace (PCREEngine.start r + (PCREEngine.end_ r - PCREEngine.start r))%Z
    with (PCREEngine.end_ r) by lia.
  repeat split; try lia.
  destruct H3 as [-> | ->]; unfold str_or; [reflexivity|].
  now destruct (String.eqb _ "") eqn:Q; [|reflexivity].
Qed.

Section PCRESpans.
Variable P : PCREEngine.Host.
Variable this : PCREEngine.engine.
Variable clock : nat -> Z.
Hypothesis P_ok : library_ok P.

Lemma pcre_findAll_loop_span (regex : PCREEngine.compiled P)
      (pattern : value) (s t : string) (remaining : nat) :
  forall iterationCount offset ms,
    Forall (span_ok t) ms ->
    end_ok t (PCREEngine.findAll_loop P clock regex pattern s t remaining
                                      iterationCount offset ms).
Proof.
  induction remaining as [|remaining IH]; intros count offset ms Hms;
    cbn [PCREEngine.findAll_loop];
    destruct (negb (offset <? Z.of_nat (String.length t))%Z);
    try exact Hms.
  assert (Hpartial : forall e op,
    end_ok t
      (if (0 <? List.length ms)%nat
       then PCREEngine.Returned
              (PCREEngine.createResult true pattern (VString s) (VString t)
                 ms (Some (PCREEngine.createError e
                             "partial execution - some matches found")))
       else PCREEngine.Returned
              (PCREEngine.createResult false pattern (VString s) (VString t)
                 [] (Some (PCREEngine.createError e op))))).
  { intros e op. destruct (0 <? List.length ms)%nat; cbn;
      [exact Hms | constructor]. }
  destruct (PCREEngine.timedOut clock (S count)); [apply Hpartial|].
  destruct (PCREEngine.exec P regex t offset) as [[r|]|e] eqn:E;
    [| exact Hms | apply Hpartial].
  destruct (PCREEngine.succeeded r) eqn:Es; [|exact Hms].
  assert (Hms' : Forall (span_ok t) (ms ++ [PCREEngine.formatMatch r t])).
  { apply Forall_app. split; [assumption|].
    constructor; [|constructor]. apply pcre_formatMatch_span.
    destruct P_ok as [Hexec _]. exact (Hexec _ _ _ _ E Es). }
  destruct (Z.of_nat (String.length t) <? PCREEngine.nextOffset r)%Z;
    [exact Hms'|].
  apply IH. exact Hms'.
Qed.

Lemma pcre_findAll_span (pattern : value) (t : string) (flags : value) :
  Forall (span_ok t)
         (Result.matches
            (PCREEngine.findAll P this clock pattern (VString t) flags)).
Proof.
  unfold PCREEngine.findAll.
  generalize PCREEngine.MAX_ITERATIONS. intros cap.
  destruct pattern as [| | | |p|]; try constructor.
  destruct (PCREEngine._ensureInitialized this) as [[]|e]; [|constructor].
  cbn [bind].
  destruct (PCREEngine.validateAndSanitizeFlags _) as [s|e];
    [|constructor].
  cbn [bind].
  destruct (PCREEngine.compile P p _) as [regex|e]; [|constructor].
  pose proof (pcre_findAll_loop_span regex (VString p) s t cap 0 0%Z []
                (Forall_nil _)) as Hend.
  destruct (PCREEngine.findAll_loop P clock regex (VString p) s t cap 0 0 [])
    as [r|ms count]; [exact Hend|].
  destruct (_ && _); exact Hend.
Qed.

Lemma pcre_test_span (pattern : value) (t : string) (flags : value) :
  Forall (span_ok t)
         (Result.matches
            (PCREEngine.test P this clock pattern (VString t) flags)).
Proof.
  unfold PCREEngine.test.
  destruct pattern as [| | | |p|]; try constructor.
  destruct (PCREEngine._ensureInitialized this) as [[]|e]; [|constructor].
  cbn [bind].
  destruct (PCREEngine.validateAndSanitizeFlags _) as [s|e];
    [|constructor].
  cbn [bind].
  destruct (PCREEngine.quickMatch P p t _) as [[r|]|e] eqn:E;
    try (destruct (PCREEngine.timedOut clock 1); constructor).
  destruct (PCREEngine.timedOut clock 1); [constructor|].
  destruct (PCREEngine.succeeded r) eqn:Es; [|constructor].
  cbn. constructor; [|constructor]. apply pcre_formatMatch_span.
  destruct P_ok as [_ Hquick]. exact (Hquick _ _ _ _ E Es).
Qed.
End PCRESpans.

(** ** The reference PCRE library keeps the contract *)

Lemma reference_matcher_inside (p : Reference.program) (t : string)
      (i : nat) (st : RegExp.MatchState) :
  Reference.matcher p t i = Some st -> i <= String.length t.
Proof.
  unfold Reference.matcher.
  destruct (i <=? String.length t)%nat eqn:Q; [|discriminate].
  intros _. now apply Nat.leb_le.
Qed.

Lemma reference_search_ok (p : Reference.program) (t : string) (fuel : nat) :
  forall i r,
    Reference.pcre_search p t fuel i = Some r ->
    PCREEngine.succeeded r = true /\ result_ok t r.
Proof.
  induction fuel as [|fuel IH]; intros i r; simpl; [discriminate|].
  destruct (Reference.matcher p t i) as [st|] eqn:E; [|apply IH].
  apply reference_matcher_inside in E.
  intros X. injection X as <-. cbn.
  split; [reflexivity|]. unfold result_ok. cbn.
  repeat split; try lia.
  right. now rewrite substringZ_of_nat.
Qed.

Lemma reference_library_ok : library_ok Reference.pcre.
Proof.
  split.
  - intros regex t offset r E _. cbn in E. unfold Reference.pcre_exec in E.
    injection E as E. now apply reference_search_ok in E.
  - intros pattern t options r E _. cbn in E.
    unfold Reference.pcre_quickMatch in E.
    destruct (Reference.pcre_compile pattern options); [|discriminate].
    unfold Reference.pcre_exec in E.
    injection E as E. now apply reference_search_ok in E.
Qed.

(* ================================================================== *)
(** * The claims *)

(** C6.  Every match recorded by [test] or [findAll] round-trips: the text
    of the subject between [index] and [index + length] is [fullMatch], with
    [index >= 0] and [index + length] within the subject.  For the
    JavaScript adapter this holds for every pattern and flags; for the PCRE
    adapter it holds as soon as the library reports spans inside the subject
    (and, when it reports the matched text, the text of that span). *)
Theorem C6_match_span_round_trips
        (H : RegExp.Host) (P : PCREEngine.Host) (this : PCREEngine.engine)
        (clock : nat -> Z) (pattern : value) (t : string) (flags : value) :
  library_ok P ->
  Forall (span_ok t)
         (Result.matches
            (JavaScriptEngine.test H clock pattern (VString t) flags))
  /\ Forall (span_ok t)
            (Result.matches
               (JavaScriptEngine.findAll H clock pattern (VString t) flags))
  /\ Forall (span_ok t)
            (Result.matches
               (PCREEngine.test P this clock pattern (VString t) flags))
  /\ Forall (span_ok t)
            (Result.matches
               (PCREEngine.findAll P this clock pattern (VString t) flags)).
Proof.
  intros P_ok.
  split; [apply test_span|].
  split; [apply findAll_post|].
  split; [now apply pcre_test_span | now apply pcre_findAll_span].
Qed.

Lemma C6_witness :
  library_ok Reference.pcre
  /\ Forall (span_ok "Order #123 and #45")
            (Result.matches
               (JavaScriptEngine.findAll Reference.host Reference.frozen
                  (VString "\d+") (VString "Order #123 and #45")
                  (VString "")))
  /\ Forall (span_ok "Order #123 and #45")
            (Result.matches
               (PCREEngine.findAll Reference.pcre Reference.ready
                  Reference.frozen (VString "\d+")
                  (VString "Order #123 and #45") (VString ""))).
Proof.
  split; [exact reference_library_ok|].
  pose proof (C6_match_span_round_trips Reference.host Reference.pcre
                Reference.ready Reference.frozen (VString "\d+")
                "Order #123 and #45" (VString "") reference_library_ok)
    as (_ & Hjs & _ & Hpcre).
  split; assumption.
Defined.

(** The JavaScript adapter's [findAll] is total, and a subject of [n] code
    units yields at most [n + 1] matches. *)
Lemma findAll_at_most_length_plus_one
      (H : RegExp.Host) (clock : nat -> Z)
      (pattern : value) (t : string) (flags : value) :
  List.length
    (Result.matches
       (JavaScriptEngine.findAll H clock pattern (VString t) flags))
  <= String.length t + 1.
Proof. apply findAll_post. Qed.

(** After an empty match at [i] the JavaScript adapter's loop goes on from
    [i + 1]. *)
Lemma findAll_loop_advances_past_empty_match
      (H : RegExp.Host) (clock : nat -> Z) (t : string)
      (remaining iterationCount : nat) (regex regex1 : RegExp.object H)
      (m : RegExp.match_array) (ms : list Match.t) :
  includes (RegExp.flagsOf regex) "g" = true ->
  RegExp.exec H regex t = (Some m, regex1) ->
  RegExp.at0 m = "" ->
  JavaScriptEngine.timedOut clock (S iterationCount) = false ->
  RegExp.index m + 1 <= String.length t ->
  JavaScriptEngine.findAll_loop H clock t (S remaining) iterationCount
                                regex ms
  = JavaScriptEngine.findAll_loop H clock t remaining (S iterationCount)
      (RegExp.set_lastIndex regex1 (RegExp.index m + 1))
      (ms ++ [JavaScriptEngine.formatMatch m]).
Proof.
  intros Hg E H0 Ht Hlen.
  cbn [JavaScriptEngine.findAll_loop]. rewrite E, Ht.
  apply exec_match in E.
  destruct E as (e & H1 & H2 & H3 & H4 & _ & _ & H6).
  destruct (H6 Hg) as [_ H8].
  rewrite H0 in H4. simpl in H4.
  assert (He : e = RegExp.index m) by lia.
  rewrite H8, He, Nat.eqb_refl. cbn [RegExp.lastIndex RegExp.set_lastIndex].
  destruct (String.length t <? RegExp.index m + 1)%nat eqn:Q;
    [apply Nat.ltb_lt in Q; lia | reflexivity].
Qed.

(** C3.  The PCRE adapter moves past a match with
    [offset = result.end || (result.start + 1)] and then adds one for an
    empty match: after an empty match at [i > 0] the scan goes on from
    [i + 1], but after an empty match at [0] it goes on from [2].  On the
    subject [ba] the pattern [a*] has matches at 0, 1 and 2 (found by the
    JavaScript adapter); the PCRE adapter reports the one at 0 only. *)
Theorem C3_pcre_findAll_skips_position_1
        (s : bool) (i : Z) (m : option string)
        (g : option (list (option string)))
        (n : option (list (string * option string))) :
  PCREEngine.nextOffset (PCREEngine.mkExecResult s i i m g n)
  = (if (i =? 0)%Z then 2 else i + 1)%Z
  /\ map Match.index
         (Result.matches
            (PCREEngine.findAll Reference.pcre Reference.ready
               Reference.frozen (VString "a*") (VString "ba") (VString "")))
     = [0%Z]
  /\ map Match.index
         (Result.matches
            (JavaScriptEngine.findAll Reference.host Reference.frozen
               (VString "a*") (VString "ba") (VString "")))
     = [0; 1; 2]%Z.
Proof.
  split; [|split; vm_compute; reflexivity].
  unfold PCREEngine.nextOffset, num_or. cbn.
  rewrite Z.eqb_refl.
  destruct (i =? 0)%Z eqn:Q; [|reflexivity].
  apply Z.eqb_eq in Q. now subst i.
Qed.

(** ** The JavaScript adapter on strings and supported flags

    With strings for the pattern and the text and flags made of supported
    characters, the catch-all handler of a method is never reached: its
    result is the one computed from the sanitized flags. *)

Section OnStrings.
Variable H : RegExp.Host.
Variable clock : nat -> Z.
Variables p t : string.

Lemma js_test_on_strings (f : string) :
  made_of JavaScriptEngine.SUPPORTED_FLAGS f = true ->
  JavaScriptEngine.test H clock (VString p) (VString t) (VString f)
  = match RegExp.create H p (distinct f) with
    | Throw syntaxError =>
        JavaScriptEngine.createResult false (VString p)
          (VString (distinct f)) (VString t) []
          (Some (JavaScriptEngine.createError syntaxError
                                              "pattern compilation"))
    | Return regex =>
        if JavaScriptEngine.timedOut clock 1 then
          JavaScriptEngine.createResult false (VString p)
            (VString (distinct f)) (VString t) []
            (Some (JavaScriptEngine.createError
                     JavaScriptEngine.executionTimeout "pattern execution"))
        else
          match fst (RegExp.exec H regex t) with
          | None =>
              JavaScriptEngine.createResult false (VString p)
                (VString (distinct f)) (VString t) [] None
          | Some match_ =>
              JavaScriptEngine.createResult true (VString p)
                (VString (distinct f)) (VString t)
                [JavaScriptEngine.formatMatch match_] None
          end
    end.
Proof.
  intros Hf. unfold JavaScriptEngine.test. cbn [default_param].
  rewrite (js_sanitize f Hf). cbn [bind].
  destruct (RegExp.create H p (distinct f)) as [regex|e]; [|reflexivity].
  destruct (JavaScriptEngine.timedOut clock 1); [reflexivity|].
  now destruct (fst (RegExp.exec H regex t)).
Qed.

Lemma js_findAll_on_strings (f : string) :
  made_of JavaScriptEngine.SUPPORTED_FLAGS f = true ->
  JavaScriptEngine.findAll H clock (VString p) (VString t) (VString f)
  = let globalFlags := JavaScriptEngine.globalFlagsOf (distinct f) in
    match RegExp.create H p globalFlags with
    | Throw syntaxError =>
        JavaScriptEngine.createResult false (VString p)
          (VString globalFlags) (VString t) []
          (Some (JavaScriptEngine.createError syntaxError
                                              "pattern compilation"))
    | Return regex =>
        match JavaScriptEngine.findAll_loop H clock t
                JavaScriptEngine.MAX_ITERATIONS 0 regex [] with
        | (matches, Some execError) =>
            if (0 <? List.length matches)%nat then
              JavaScriptEngine.createResult true (VString p)
                (VString globalFlags) (VString t) matches
                (Some (JavaScriptEngine.createError execError
                         "partial execution - some matches found"))
            else
              JavaScriptEngine.createResult false (VString p)
                (VString globalFlags) (VString t) []
                (Some (JavaScriptEngine.createError execError
                                                    "pattern execution"))
        | (matches, None) =>
            JavaScriptEngine.createResult (0 <? List.length matches)%nat
              (VString p) (VString globalFlags) (VString t) matches None
        end
    end.
Proof.
  intros Hf. unfold JavaScriptEngine.findAll. cbn [default_param].
  rewrite (js_sanitize f Hf). cbn [bind]. cbv zeta.
  destruct (RegExp.create H p _) as [regex|e]; [|reflexivity].
  destruct (JavaScriptEngine.findAll_loop H clock t _ 0 regex [])
    as [ms [e|]]; [|reflexivity].
  now destruct (0 <? List.length ms)%nat.
Qed.

Lemma js_replace_on_strings (r f : string) :
  made_of JavaScriptEngine.SUPPORTED_FLAGS f = true ->
  JavaScriptEngine.replace H clock (VString p) (VString t) (VString r)
                           (VString f)
  = match RegExp.create H p (distinct f) with
    | Throw syntaxError =>
        ReplaceResult.mk false JavaScriptEngine.ENGINE_NAME (VString p)
          (VString (distinct f)) (VString t) (VString r) (VString t)
          (Some (JavaScriptEngine.createError syntaxError
                                              "pattern compilation"))
    | Return regex =>
        if JavaScriptEngine.timedOut clock 1 then
          ReplaceResult.mk false JavaScriptEngine.ENGINE_NAME (VString p)
            (VString (distinct f)) (VString t) (VString r) (VString t)
            (Some (JavaScriptEngine.createError
                     JavaScriptEngine.replacementTimeout
                     "replacement execution"))
        else
          ReplaceResult.mk true JavaScriptEngine.ENGINE_NAME (VString p)
            (VString (distinct f)) (VString t) (VString r)
            (VString (RegExp.replace H regex t r)) None
    end.
Proof.
  intros Hf. unfold JavaScriptEngine.replace. cbn [default_param].
  rewrite (js_sanitize f Hf). cbn [bind].
  destruct (RegExp.create H p (distinct f)) as [regex|e]; [|reflexivity].
  now destruct (JavaScriptEngine.timedOut clock 1).
Qed.
End OnStrings.

(** ** The empty pattern on the reference host *)

Lemma length_repeat_string (c : ascii) (n : nat) :
  String.length (Reference.repeat_string c n) = n.
Proof.
  unfold Reference.repeat_string. now rewrite length_str, repeat_length.
Qed.

(** The empty pattern matches the empty string at every position. *)
Lemma exec_empty_pattern (t : string) (i : nat) :
  i <= String.length t ->
  RegExp.exec Reference.host
    (RegExp.mkObject Reference.host (Reference.mkProgram [] false false)
                     "g" i) t
  = (Some (RegExp.mkMatchArray (substring t i i) i [] None t),
     RegExp.mkObject Reference.host (Reference.mkProgram [] false false)
                     "g" i).
Proof.
  intros Hi. unfold RegExp.exec.
  cbn [RegExp.flagsOf RegExp.lastIndex RegExp.code].
  replace (includes "g" "g") with true by reflexivity.
  replace (includes "g" "y") with false by reflexivity.
  cbn [orb].
  replace (String.length t + 1 - i) with (S (String.length t - i)) by lia.
  cbn [RegExp.search RegExp.matcher Reference.host].
  unfold Reference.matcher.
  replace (i <=? String.length t)%nat with true
    by (symmetry; now apply Nat.leb_le).
  cbn [Reference.items Reference.match_items RegExp.consumed
       RegExp.captures RegExp.groupsOf].
  replace (Nat.min (i + 0) (String.length t)) with i by lia.
  reflexivity.
Qed.

Lemma empty_pattern_exceeds_cap (t : string) (remaining : nat) :
  forall iterationCount i ms,
    i + remaining <= String.length t ->
    exists ms',
      JavaScriptEngine.findAll_loop Reference.host Reference.frozen t
        remaining iterationCount
        (RegExp.mkObject Reference.host (Reference.mkProgram [] false false)
                         "g" i) ms
      = (ms', Some JavaScriptEngine.tooManyMatches).
Proof.
  induction remaining as [|remaining IH]; intros count i ms Hi;
    cbn [JavaScriptEngine.findAll_loop];
    rewrite exec_empty_pattern by lia.
  - now exists ms.
  - replace (JavaScriptEngine.timedOut Reference.frozen (S count))
      with false by reflexivity.
    cbn [RegExp.index RegExp.lastIndex]. rewrite Nat.eqb_refl.
    unfold RegExp.set_lastIndex.
    cbn [RegExp.lastIndex RegExp.code RegExp.flagsOf].
    replace (String.length t <? i + 1)%nat with false
      by (symmetry; apply Nat.ltb_ge; lia).
    apply IH. lia.
Qed.

Lemma made_of_append (supported : list ascii) (f1 f2 : string) :
  made_of supported (f1 ++ f2)
  = made_of supported f1 && made_of supported f2.
Proof. unfold made_of. now rewrite chars_append, forallb_app. Qed.

(** C4.  When the scan of [findAll] goes past the cap of [MAX_ITERATIONS]
    matches, the result is a success that keeps the matches found so far,
    exactly [MAX_ITERATIONS] of them, and carries the error of the cap
    (the resource limit: "Too many matches found"). *)
Theorem C4_findAll_keeps_matches_at_cap
        (H : RegExp.Host) (clock : nat -> Z) (p t f : string)
        (regex : RegExp.object H) (ms : list Match.t) :
  made_of JavaScriptEngine.SUPPORTED_FLAGS f = true ->
  RegExp.create H p (JavaScriptEngine.globalFlagsOf (distinct f))
  = Return regex ->
  JavaScriptEngine.findAll_loop H clock t JavaScriptEngine.MAX_ITERATIONS 0
                                regex []
  = (ms, Some JavaScriptEngine.tooManyMatches) ->
  let r := JavaScriptEngine.findAll H clock (VString p) (VString t)
                                    (VString f) in
  Result.success r = true
  /\ Result.matches r = ms
  /\ List.length (Result.matches r) = JavaScriptEngine.MAX_ITERATIONS
  /\ Result.error r
     = Some (JavaScriptEngine.createError JavaScriptEngine.tooManyMatches
               "partial execution - some matches found")
  /\ option_map ErrorInfo.message (Result.error r)
     = Some "Too many matches found (>10000). Pattern may be too broad.".
Proof.
  intros Hf Ec El.
  pose proof (findAll_loop_cap H clock t _ _ _ _ _ El) as Hlen.
  simpl in Hlen.
  assert (Hpos : (0 <? List.length ms)%nat = true).
  { rewrite Hlen. vm_compute. reflexivity. }
  rewrite (js_findAll_on_strings H clock p t f Hf). cbv zeta.
  rewrite Ec, El, Hpos.
  cbn [Result.success Result.matches Result.error
       JavaScriptEngine.createResult].
  repeat split; try assumption.
Qed.

Lemma C4_witness :
  exists ms,
    JavaScriptEngine.findAll_loop Reference.host Reference.frozen
      (Reference.repeat_string "a" JavaScriptEngine.MAX_ITERATIONS)
      JavaScriptEngine.MAX_ITERATIONS 0
      (RegExp.mkObject Reference.host (Reference.mkProgram [] false false)
                       "g" 0) []
    = (ms, Some JavaScriptEngine.tooManyMatches)
    /\ let r := JavaScriptEngine.findAll Reference.host Reference.frozen
                  (VString "")
                  (VString (Reference.repeat_string "a"
                              JavaScriptEngine.MAX_ITERATIONS))
                  (VString "") in
       Result.success r = true
       /\ Result.matches r = ms
       /\ List.length (Result.matches r) = JavaScriptEngine.MAX_ITERATIONS
       /\ Result.error r
          = Some (JavaScriptEngine.createError
                    JavaScriptEngine.tooManyMatches
                    "partial execution - some matches found")
       /\ option_map ErrorInfo.message (Result.error r)
          = Some "Too many matches found (>10000). Pattern may be too broad.".
Proof.
  destruct (empty_pattern_exceeds_cap
              (Reference.repeat_string "a" JavaScriptEngine.MAX_ITERATIONS)
              JavaScriptEngine.MAX_ITERATIONS 0 0 [])
    as [ms Hms].
  { rewrite length_repeat_string. lia. }
  exists ms. split; [exact Hms|].
  exact (C4_findAll_keeps_matches_at_cap Reference.host Reference.frozen
           "" (Reference.repeat_string "a" JavaScriptEngine.MAX_ITERATIONS)
           "" _ ms eq_refl eq_refl Hms).
Defined.

(** C5.  [findAll] forces the global mode: for flags made of supported
    characters, the result for the flags [f] and for [f] with a [g]
    appended are the same result, and the regular expression is compiled
    with [g] whatever the caller's flags. *)
Theorem C5_findAll_global_is_implied
        (H : RegExp.Host) (clock : nat -> Z) (p t f : string) :
  made_of JavaScriptEngine.SUPPORTED_FLAGS f = true ->
  JavaScriptEngine.findAll H clock (VString p) (VString t) (VString f)
  = JavaScriptEngine.findAll H clock (VString p) (VString t)
                             (VString (f ++ "g"))
  /\ includes (JavaScriptEngine.globalFlagsOf (distinct f)) "g" = true.
Proof.
  intros Hf. split; [|apply globalFlagsOf_g].
  assert (Hfg : made_of JavaScriptEngine.SUPPORTED_FLAGS (f ++ "g") = true).
  { rewrite made_of_append, Hf. reflexivity. }
  rewrite (js_findAll_on_strings H clock p t f Hf).
  rewrite (js_findAll_on_strings H clock p t _ Hfg).
  now rewrite globalFlagsOf_append_g.
Qed.

Lemma C5_witness :
  made_of JavaScriptEngine.SUPPORTED_FLAGS "i" = true
  /\ JavaScriptEngine.findAll Reference.host Reference.frozen
       (VString "A") (VString "banana") (VString "i")
     = JavaScriptEngine.findAll Reference.host Reference.frozen
         (VString "A") (VString "banana") (VString "ig")
  /\ map Match.index
         (Result.matches
            (JavaScriptEngine.findAll Reference.host Reference.frozen
               (VString "A") (VString "banana") (VString "i")))
     = [1; 3; 5]%Z.
Proof.
  split; [reflexivity|].
  split; [|vm_compute; reflexivity].
  exact (proj1 (C5_findAll_global_is_implied Reference.host Reference.frozen
                  "A" "banana" "i" eq_refl)).
Defined.

(** ** [String.prototype.replace] substitutes the first match, or each one *)

Lemma append_empty_r (s : string) : (s ++ "")%string = s.
Proof. induction s as [|c s IH]; simpl; [reflexivity | now rewrite IH]. Qed.

Lemma append_assoc (s1 s2 s3 : string) :
  ((s1 ++ s2) ++ s3)%string = (s1 ++ s2 ++ s3)%string.
Proof. induction s1 as [|c s1 IH]; simpl; [reflexivity | now rewrite IH]. Qed.

Lemma substring_at_end (s : string) :
  substring s (String.length s) (String.length s) = "".
Proof.
  unfold substring. rewrite !Nat.min_id, Nat.max_id, Nat.sub_diag.
  reflexivity.
Qed.

Lemma chain_weaken (len from from' : nat) (rs : list RegExp.match_array) :
  from <= from' -> chain len from' rs -> chain len from rs.
Proof.
  destruct rs as [|m rs]; simpl; [easy|].
  intros Hle (H1 & H2 & H3). repeat split; try assumption. lia.
Qed.

Section Replace.
Variable H : RegExp.Host.
Variable t : string.

(** Beyond the end of the subject a global [exec] finds nothing. *)
Lemma exec_beyond_end (R : RegExp.object H) :
  includes (RegExp.flagsOf R) "g" = true ->
  String.length t < RegExp.lastIndex R ->
  fst (RegExp.exec H R t) = None.
Proof.
  intros Hg Hlt. unfold RegExp.exec. rewrite Hg. cbn [orb].
  replace (String.length t + 1 - RegExp.lastIndex R) with 0 by lia.
  reflexivity.
Qed.

Lemma collect_chain (fuel : nat) :
  forall (global : bool) (R : RegExp.object H),
    includes (RegExp.flagsOf R) "g" = global ->
    chain (String.length t) (if global then RegExp.lastIndex R else 0)
          (RegExp.collect H global t fuel R).
Proof.
  induction fuel as [|fuel IH]; intros global R Hg; simpl; [exact I|].
  destruct (RegExp.exec H R t) as [[m|] R1] eqn:E; [|exact I].
  apply exec_match in E.
  destruct E as (e & H1 & H2 & H3 & H4 & H5 & _ & H6).
  destruct global.
  - destruct (H6 Hg) as [H7 H8]. simpl.
    split; [assumption|]. split; [lia|].
    set (R2 := if String.eqb (RegExp.at0 m) "" then _ else R1).
    assert (HR2 : includes (RegExp.flagsOf R2) "g" = true
                  /\ e <= RegExp.lastIndex R2).
    { subst R2. destruct (String.eqb (RegExp.at0 m) ""); simpl;
        rewrite H5; split; try assumption; lia. }
    destruct HR2 as [Hg2 Hle].
    apply (chain_weaken _ _ (RegExp.lastIndex R2)); [lia|].
    exact (IH true R2 Hg2).
  - simpl. repeat split; lia.
Qed.

(** In global mode the fuel of [collect] is never used up: any two amounts
    of at least [length + 2 - lastIndex] give the same list. *)
Lemma collect_fuel_enough (fuel1 : nat) :
  forall fuel2 (R : RegExp.object H),
    includes (RegExp.flagsOf R) "g" = true ->
    String.length t + 2 - RegExp.lastIndex R <= fuel1 ->
    String.length t + 2 - RegExp.lastIndex R <= fuel2 ->
    RegExp.collect H true t fuel1 R = RegExp.collect H true t fuel2 R.
Proof.
  induction fuel1 as [|fuel1 IH]; intros fuel2 R Hg H1 H2.
  - pose proof (exec_beyond_end R Hg ltac:(lia)) as En.
    destruct fuel2 as [|fuel2]; simpl; [reflexivity|].
    destruct (RegExp.exec H R t) as [[m|] R1]; [discriminate En|reflexivity].
  - destruct fuel2 as [|fuel2].
    + pose proof (exec_beyond_end R Hg ltac:(lia)) as En. simpl.
      destruct (RegExp.exec H R t) as [[m|] R1];
        [discriminate En|reflexivity].
    + simpl. destruct (RegExp.exec H R t) as [[m|] R1] eqn:E; [|reflexivity].
      f_equal.
      apply exec_match in E.
      destruct E as (e & E1 & E2 & E3 & E4 & E5 & _ & E6).
      destruct (E6 Hg) as [E7 E8].
      destruct (String.eqb (RegExp.at0 m) "") eqn:Q.
      * apply IH; simpl; try lia. now rewrite E5.
      * assert (String.length (RegExp.at0 m) <> 0).
        { intros Z0. destruct (RegExp.at0 m); [|discriminate Z0].
          discriminate Q. }
        apply IH; try lia. now rewrite E5.
Qed.

Lemma assemble_chain (r : string) (rs : list RegExp.match_array) :
  forall acc next,
    next <= String.length t ->
    chain (String.length t) next rs ->
    RegExp.assemble t r rs acc next
    = (acc ++ substitute_each t r rs next)%string.
Proof.
  induction rs as [|m rs IH]; intros acc next Hn Hc; simpl.
  - destruct (String.length t <=? next)%nat eqn:Q; [|reflexivity].
    apply Nat.leb_le in Q.
    replace next with (String.length t) by lia.
    now rewrite substring_at_end, append_empty_r.
  - destruct Hc as (H1 & H2 & H3).
    replace (Nat.min (RegExp.index m) (String.length t))
      with (RegExp.index m) by lia.
    replace (next <=? RegExp.index m)%nat with true
      by (symmetry; now apply Nat.leb_le).
    rewrite IH; [|lia|assumption].
    now rewrite !append_assoc.
Qed.

(** [replace] on a freshly compiled regular expression. *)
Lemma replace_substitutes (R : RegExp.object H) (r : string) :
  RegExp.lastIndex R = 0 ->
  RegExp.replace H R t r
  = substitute_each t r
      (if includes (RegExp.flagsOf R) "g"
       then RegExp.collect H true t (String.length t + 2) R
       else match fst (RegExp.exec H R t) with
            | Some m => [m]
            | None => []
            end) 0.
Proof.
  intros H0. unfold RegExp.replace.
  assert (HR : RegExp.set_lastIndex R 0 = R).
  { destruct R as [c f l]. simpl in H0. subst l. reflexivity. }
  pose proof (collect_chain (String.length t + 2)
                (includes (RegExp.flagsOf R) "g") R eq_refl) as Hc.
  destruct (includes (RegExp.flagsOf R) "g") eqn:Hg.
  - rewrite HR. rewrite H0 in Hc.
    now rewrite assemble_chain by (lia || assumption).
  - rewrite assemble_chain by (lia || assumption).
    simpl. f_equal.
    replace (String.length t + 2) with (S (String.length t + 1)) by lia.
    simpl. now destruct (RegExp.exec H R t) as [[m|] R1].
Qed.
End Replace.

(** C8.  [replace] substitutes the first match only when the flags have no
    [g], and each match of the left-to-right scan when they have one: the
    text between the matches is kept.  With the pattern [a], the text [aaa]
    and the replacement [b] the result is [baa] without flags and [bbb] with
    [g]. *)
Theorem C8_replace_first_or_all
        (H : RegExp.Host) (clock : nat -> Z) (p t r f : string)
        (regex : RegExp.object H) :
  made_of JavaScriptEngine.SUPPORTED_FLAGS f = true ->
  RegExp.create H p (distinct f) = Return regex ->
  JavaScriptEngine.timedOut clock 1 = false ->
  (let res := JavaScriptEngine.replace H clock (VString p) (VString t)
                (VString r) (VString f) in
   ReplaceResult.success res = true
   /\ ReplaceResult.result res
      = VString
          (substitute_each t r
             (if includes f "g"
              then RegExp.collect H true t (String.length t + 2) regex
              else match fst (RegExp.exec H regex t) with
                   | Some m => [m]
                   | None => []
                   end) 0))
  /\ ReplaceResult.result
       (JavaScriptEngine.replace Reference.host Reference.frozen
          (VString "a") (VString "aaa") (VString "b") (VString ""))
     = VString "baa"
  /\ ReplaceResult.result
       (JavaScriptEngine.replace Reference.host Reference.frozen
          (VString "a") (VString "aaa") (VString "b") (VString "g"))
     = VString "bbb".
Proof.
  intros Hf Ec Ht.
  split; [|split; vm_compute; reflexivity].
  rewrite (js_replace_on_strings H clock p t r f Hf), Ec, Ht.
  cbn [ReplaceResult.success ReplaceResult.result].
  split; [reflexivity|]. f_equal.
  apply create_fresh in Ec. destruct Ec as [Ef E0].
  rewrite (replace_substitutes H t regex r E0), Ef.
  now rewrite includes_distinct.
Qed.

Lemma C8_witness :
  let res := JavaScriptEngine.replace Reference.host Reference.frozen
               (VString "\d") (VString "a1b22") (VString "<$&>")
               (VString "gg") in
  ReplaceResult.success res = true
  /\ ReplaceResult.result res = VString "a<1>b<2><2>".
Proof.
  pose proof (C8_replace_first_or_all Reference.host Reference.frozen
                "\d" "a1b22" "<$&>" "gg" _ eq_refl eq_refl eq_refl)
    as [[H1 H2] _].
  split; [exact H1|].
  rewrite H2. vm_compute. reflexivity.
Defined.

(** ** The factory *)




(** What [initialize] builds from a new factory. *)
Lemma initialize_new (H : RegExp.Host) (options : list (string * value)) :
  EngineFactory.initialize H (EngineFactory.new options)
  = Return
      (EngineFactory.mk
         [("javascript", Engine.javascript H); ("js", Engine.javascript H)]
         true [] false
         ([("quiet", VBool false); ("json", VBool false);
           ("debug", VBool false)] ++ options)).
Proof.
  unfold EngineFactory.initialize, EngineFactory.new.
  cbn [EngineFactory.initialized EngineFactory.engines
       EngineFactory.pcreTried EngineFactory.options].
  destruct (EngineFactory._silent _); reflexivity.
Qed.



Lemma C1_counterexample :
  match EngineFactory.initialize Reference.host (EngineFactory.new []) with
  | Return f =>
      EngineFactory.test Reference.frozen f (VString "javascript") VNull
                         (VString "abc") (VString "")
      = Throw (Error "Pattern cannot be null or undefined")
      /\ EngineFactory.findAll Reference.frozen f (VString "javascript")
                               (VString "a") (VNumber 42) (VString "")
         = Throw (Error "Text must be a string")
      /\ EngineFactory.replace Reference.frozen f (VString "javascript")
                               VUndefined (VString "abc") (VString "b")
                               (VString "")
         = Throw (Error "Pattern cannot be null or undefined")
  | Throw _ => False
  end.
Proof. vm_compute. repeat split. Qed.

(** C1.  The factory validates before it resolves the engine, and it
    validates by throwing: with a pattern or a text that is not a string,
    [test], [findAll] and [replace] throw the error of [validatePattern] or
    [validateText] (an [Error] whose message names the argument) and return
    no result.  With strings for the pattern, the text and the replacement,
    flags that [validateFlags] accepts and an engine that [getEngine]
    resolves, they do not throw: they return a result, and an exception of
    the engine's method is turned into a failed result that carries its
    message and type. *)
Theorem C1_facade_throws_on_malformed_input
        (clock : nat -> Z) (f : EngineFactory.t)
        (engineName pattern text replacement flags : value) :
  (is_string pattern = false ->
   exists e,
     EngineFactory.validatePattern pattern = Throw e
     /\ JS.name e = "Error"
     /\ (JS.message e = "Pattern cannot be null or undefined"
         \/ JS.message e = "Pattern must be a string")
     /\ EngineFactory.test clock f engineName pattern text flags = Throw e
     /\ EngineFactory.findAll clock f engineName pattern text flags = Throw e
     /\ EngineFactory.replace clock f engineName pattern text replacement
                              flags = Throw e)
  /\ (is_string pattern = true -> is_string text = false ->
      exists e,
        EngineFactory.validateText text = Throw e
        /\ JS.name e = "Error"
        /\ (JS.message e = "Text cannot be null or undefined"
            \/ JS.message e = "Text must be a string")
        /\ EngineFactory.test clock f engineName pattern text flags = Throw e
        /\ EngineFactory.findAll clock f engineName pattern text flags
           = Throw e
        /\ EngineFactory.replace clock f engineName pattern text replacement
                                 flags = Throw e)
  /\ (is_string pattern = true -> is_string text = true ->
      is_string replacement = true ->
      returned (EngineFactory.validateFlags flags) = true ->
      returned (EngineFactory.getEngine f engineName) = true ->
      returned (EngineFactory.test clock f engineName pattern text flags)
      = true
      /\ returned (EngineFactory.findAll clock f engineName pattern text
                                         flags) = true
      /\ returned (EngineFactory.replace clock f engineName pattern text
                                         replacement flags) = true)
  /\ (forall engine vf e,
         is_string pattern = true -> is_string text = true ->
         EngineFactory.validateFlags flags = Return vf ->
         EngineFactory.getEngine f engineName = Return engine ->
         Engine.test engine clock pattern text (VString vf) = Throw e ->
         EngineFactory.test clock f engineName pattern text flags
         = Return (Result.mk false (Engine.name engine) pattern (VString vf)
                             text []
                             (Some (ErrorInfo.mk (JS.message e) (JS.name e)
                                                 None))))
  /\ (forall engine vf e,
         is_string pattern = true -> is_string text = true ->
         EngineFactory.validateFlags flags = Return vf ->
         EngineFactory.getEngine f engineName = Return engine ->
         Engine.findAll engine clock pattern text (VString vf) = Throw e ->
         EngineFactory.findAll clock f engineName pattern text flags
         = Return (Result.mk false (Engine.name engine) pattern (VString vf)
                             text []
                             (Some (ErrorInfo.mk (JS.message e) (JS.name e)
                                                 None))))
  /\ (forall engine vf e,
         is_string pattern = true -> is_string text = true ->
         is_string replacement = true ->
         EngineFactory.validateFlags flags = Return vf ->
         EngineFactory.getEngine f engineName = Return engine ->
         Engine.replace engine clock pattern text replacement (VString vf)
         = Throw e ->
         EngineFactory.replace clock f engineName pattern text replacement
                               flags
         = Return (ReplaceResult.mk false (Engine.name engine) pattern
                                    (VString vf) text replacement text
                                    (Some (ErrorInfo.mk (JS.message e)
                                                        (JS.name e) None)))).
Proof.
  unfold EngineFactory.test, EngineFactory.findAll, EngineFactory.replace.
  split; [|split; [|split; [|split; [|split]]]].
  - intros Hp.
    destruct pattern as [| |b|z|s|o]; try discriminate Hp;
      eexists; (split; [reflexivity|]); cbn;
      repeat split; (now left) || (now right).
  - intros Hp Ht.
    destruct pattern as [| | | |p|]; try discriminate Hp.
    destruct text as [| |b|z|s|o]; try discriminate Ht;
      eexists; (split; [reflexivity|]); cbn;
      repeat split; (now left) || (now right).
  - intros Hp Ht Hr Hf He.
    destruct pattern as [| | | |p|]; try discriminate Hp.
    destruct text as [| | | |t|]; try discriminate Ht.
    destruct replacement as [| | | |r|]; try discriminate Hr.
    destruct (EngineFactory.validateFlags flags) as [vf|e];
      [|discriminate Hf].
    destruct (EngineFactory.getEngine f engineName) as [engine|e];
      [|discriminate He].
    cbn [bind EngineFactory.validatePattern EngineFactory.validateText].
    split; [|split].
    + now destruct (Engine.test engine clock _ _ _).
    + now destruct (Engine.findAll engine clock _ _ _).
    + now destruct (Engine.replace engine clock _ _ _ _).
  - intros engine vf e Hp Ht Hf He Hthrow.
    destruct pattern as [| | | |p|]; try discriminate Hp.
    destruct text as [| | | |t|]; try discriminate Ht.
    rewrite Hf, He.
    cbn [bind EngineFactory.validatePattern EngineFactory.validateText].
    now rewrite Hthrow.
  - intros engine vf e Hp Ht Hf He Hthrow.
    destruct pattern as [| | | |p|]; try discriminate Hp.
    destruct text as [| | | |t|]; try discriminate Ht.
    rewrite Hf, He.
    cbn [bind EngineFactory.validatePattern EngineFactory.validateText].
    now rewrite Hthrow.
  - intros engine vf e Hp Ht Hr Hf He Hthrow.
    destruct pattern as [| | | |p|]; try discriminate Hp.
    destruct text as [| | | |t|]; try discriminate Ht.
    destruct replacement as [| | | |r|]; try discriminate Hr.
    rewrite Hf, He.
    cbn [bind EngineFactory.validatePattern EngineFactory.validateText].
    now rewrite Hthrow.
Qed.

Lemma C1_witness :
  exists f,
    EngineFactory.initialize Reference.host (EngineFactory.new []) = Return f
    /\ (exists e,
           EngineFactory.validatePattern (VNumber 7) = Throw e
           /\ JS.message e = "Pattern must be a string"
           /\ EngineFactory.test Reference.frozen f (VString "js")
                (VNumber 7) (VString "abc") (VString "") = Throw e)
    /\ (exists e,
           EngineFactory.validateText VNull = Throw e
           /\ EngineFactory.findAll Reference.frozen f (VString "js")
                (VString "a") VNull (VString "") = Throw e)
    /\ returned (EngineFactory.test Reference.frozen f (VString "js")
                   (VString "(") (VString "abc") VNull) = true.
Proof.
  eexists. split; [apply initialize_new|].
  match goal with
  | |- context [EngineFactory.test _ ?f _ _ _ _] =>
      pose proof (C1_facade_throws_on_malformed_input Reference.frozen f
                    (VString "js") (VNumber 7) (VString "abc")
                    (VString "b") (VString "")) as (A & _ & _ & _);
      pose proof (C1_facade_throws_on_malformed_input Reference.frozen f
                    (VString "js") (VString "a") VNull
                    (VString "b") (VString "")) as (_ & B & _ & _);
      pose proof (C1_facade_throws_on_malformed_input Reference.frozen f
                    (VString "js") (VString "(") (VString "abc")
                    (VString "b") VNull) as (_ & _ & C & _)
  end.
  destruct (A eq_refl) as (e & A1 & _ & A3 & A4 & _).
  destruct (B eq_refl eq_refl) as (e' & B1 & _ & _ & _ & B5 & _).
  destruct (C eq_refl eq_refl eq_refl eq_refl eq_refl) as (C1 & _).
  split.
  - exists e. split; [exact A1|]. split; [|exact A4].
    injection A1 as <-. reflexivity.
  - split; [exists e'; split; assumption | exact C1].
Defined.

Lemma C2_counterexample :
  match EngineFactory.initialize Reference.host (EngineFactory.new []) with
  | Return f =>
      EngineFactory.getAvailableEngines f = Return ["javascript"]
      /\ EngineFactory.test Reference.frozen f (VString "pcre") (VString "a")
                            (VString "abc") (VString "")
         = Throw (Error
             "Engine 'pcre' not available. Available engines: javascript")
      /\ EngineFactory.test Reference.frozen f (VString "ruby") (VString "a")
                            (VString "abc") (VString "")
         = Throw (Error
             "Unknown engine: ruby. Available engines: javascript, pcre")
  | Throw _ => False
  end.
Proof. vm_compute. repeat split. Qed.

(** What the three operations do once the inputs are validated and the
    engine is not resolved: they throw the error of [getEngine]. *)
Lemma facade_unresolved (clock : nat -> Z) (f : EngineFactory.t)
      (engineName : value) (p t r flags : string) (e : JS.error) :
  EngineFactory.getEngine f engineName = Throw e ->
  EngineFactory.test clock f engineName (VString p) (VString t)
                     (VString flags) = Throw e
  /\ EngineFactory.findAll clock f engineName (VString p) (VString t)
                           (VString flags) = Throw e
  /\ EngineFactory.replace clock f engineName (VString p) (VString t)
                           (VString r) (VString flags) = Throw e.
Proof.
  intros He.
  unfold EngineFactory.test, EngineFactory.findAll, EngineFactory.replace.
  cbn. rewrite He. repeat split.
Qed.

(** C2.  An engine that is not registered is reported by throwing, not by
    a result.  When the name resolves through the alias table to a canonical
    name without a registered adapter, [test], [findAll] and [replace] throw
    "Engine '<name>' not available. Available engines: <list>", where the
    list is [getAvailableEngines()] at the time of the call.  When the name
    is not in the alias table, they throw "Unknown engine: <name>. Available
    engines: javascript, pcre": the canonical names of the alias table. *)
Theorem C2_unregistered_engine_throws
        (clock : nat -> Z) (f : EngineFactory.t)
        (name p t r flags : string) :
  EngineFactory.initialized f = true ->
  name <> "" ->
  (forall canonical available,
      EngineFactory.normalizeEngineName (VString name) = Return canonical ->
      EngineFactory.map_get (EngineFactory.engines f) canonical = None ->
      EngineFactory.getAvailableEngines f = Return available ->
      let e := Error ("Engine '" ++ name
                        ++ "' not available. Available engines: "
                        ++ join ", " available) in
      EngineFactory.test clock f (VString name) (VString p) (VString t)
                         (VString flags) = Throw e
      /\ EngineFactory.findAll clock f (VString name) (VString p)
                               (VString t) (VString flags) = Throw e
      /\ EngineFactory.replace clock f (VString name) (VString p)
                               (VString t) (VString r) (VString flags)
         = Throw e)
  /\ (EngineFactory.canonicalOf EngineFactory.ENGINE_ALIASES
                                (trim (toLowerCase name)) = None ->
      let e := Error ("Unknown engine: " ++ name
                        ++ ". Available engines: javascript, pcre") in
      EngineFactory.test clock f (VString name) (VString p) (VString t)
                         (VString flags) = Throw e
      /\ EngineFactory.findAll clock f (VString name) (VString p)
                               (VString t) (VString flags) = Throw e
      /\ EngineFactory.replace clock f (VString name) (VString p)
                               (VString t) (VString r) (VString flags)
         = Throw e).
Proof.
  intros Hi Hn. split.
  - intros canonical available Hc Hg Ha e.
    apply facade_unresolved. unfold EngineFactory.getEngine.
    rewrite Hi, Hc. cbn [negb bind]. now rewrite Hg, Ha.
  - intros Hc e.
    apply facade_unresolved. unfold EngineFactory.getEngine.
    rewrite Hi. cbn [negb]. unfold EngineFactory.normalizeEngineName.
    assert (Ht : truthy (VString name) = true).
    { cbn. apply negb_true_iff. now apply String.eqb_neq. }
    rewrite Ht, Hc. reflexivity.
Qed.

Lemma C2_witness :
  exists f,
    EngineFactory.initialize Reference.host (EngineFactory.new []) = Return f
    /\ EngineFactory.getAvailableEngines f = Return ["javascript"]
    /\ EngineFactory.findAll Reference.frozen f (VString " Perl ")
                             (VString "a") (VString "abc") (VString "g")
       = Throw (Error
           "Engine ' Perl ' not available. Available engines: javascript").
Proof.
  eexists. split; [apply initialize_new|].
  split; [reflexivity|].
  match goal with
  | |- EngineFactory.findAll _ ?f _ _ _ _ = _ =>
      pose proof (C2_unregistered_engine_throws Reference.frozen f
                    " Perl " "a" "abc" "b" "g" eq_refl
                    ltac:(discriminate)) as [A _]
  end.
  exact (proj1 (proj2 (A "pcre" ["javascript"] eq_refl eq_refl eq_refl))).
Defined.

(** ** Repeated flags *)

Section RepeatedFlagsJS.
Variable H : RegExp.Host.
Variable clock : nat -> Z.
Variables p t r f : string.
Hypothesis Hf : made_of JavaScriptEngine.SUPPORTED_FLAGS f = true.

Lemma js_repeated_flags :
  JavaScriptEngine.test H clock (VString p) (VString t) (VString f)
  = JavaScriptEngine.test H clock (VString p) (VString t)
                          (VString (distinct f))
  /\ JavaScriptEngine.findAll H clock (VString p) (VString t) (VString f)
     = JavaScriptEngine.findAll H clock (VString p) (VString t)
                                (VString (distinct f))
  /\ JavaScriptEngine.replace H clock (VString p) (VString t) (VString r)
                              (VString f)
     = JavaScriptEngine.replace H clock (VString p) (VString t) (VString r)
                                (VString (distinct f)).
Proof.
  pose proof (made_of_distinct _ _ Hf) as Hd.
  rewrite (js_test_on_strings H clock p t f Hf).
  rewrite (js_test_on_strings H clock p t _ Hd).
  rewrite (js_findAll_on_strings H clock p t f Hf).
  rewrite (js_findAll_on_strings H clock p t _ Hd).
  rewrite (js_replace_on_strings H clock p t r f Hf).
  rewrite (js_replace_on_strings H clock p t r _ Hd).
  rewrite distinct_idempotent. repeat split.
Qed.

Lemma js_echoed_flags :
  Result.flags
    (JavaScriptEngine.test H clock (VString p) (VString t) (VString f))
  = VString (distinct f)
  /\ Result.flags
       (JavaScriptEngine.findAll H clock (VString p) (VString t) (VString f))
     = VString (JavaScriptEngine.globalFlagsOf (distinct f))
  /\ ReplaceResult.flags
       (JavaScriptEngine.replace H clock (VString p) (VString t) (VString r)
                                 (VString f))
     = VString (distinct f).
Proof.
  rewrite (js_test_on_strings H clock p t f Hf).
  rewrite (js_findAll_on_strings H clock p t f Hf).
  rewrite (js_replace_on_strings H clock p t r f Hf).
  cbv zeta.
  split; [|split].
  - destruct (RegExp.create H p (distinct f)) as [regex|e]; [|reflexivity].
    destruct (JavaScriptEngine.timedOut clock 1); [reflexivity|].
    now destruct (fst (RegExp.exec H regex t)).
  - destruct (RegExp.create H p _) as [regex|e]; [|reflexivity].
    destruct (JavaScriptEngine.findAll_loop H clock t _ 0 regex [])
      as [ms [e|]]; [|reflexivity].
    now destruct (0 <? List.length ms)%nat.
  - destruct (RegExp.create H p (distinct f)) as [regex|e]; [|reflexivity].
    now destruct (JavaScriptEngine.timedOut clock 1).
Qed.
End RepeatedFlagsJS.

Section RepeatedFlagsPCRE.
Variable P : PCREEngine.Host.
Variable this : PCREEngine.engine.
Variable clock : nat -> Z.
Variables p t r f : string.
Hypothesis Hf : made_of PCREEngine.SUPPORTED_FLAGS f = true.
Hypothesis Hinit : PCREEngine.initialized this = true.

(** A result returned from inside the scan loop echoes the sanitized
    flags. *)
Lemma pcre_loop_flags (regex : PCREEngine.compiled P) (s : string)
      (remaining : nat) :
  forall iterationCount offset ms res,
    PCREEngine.findAll_loop P clock regex (VString p) s t remaining
                            iterationCount offset ms
    = PCREEngine.Returned res ->
    Result.flags res = VString s.
Proof.
  induction remaining as [|remaining IH]; intros count offset ms res;
    cbn [PCREEngine.findAll_loop];
    destruct (negb (offset <? Z.of_nat (String.length t))%Z);
    try discriminate.
  destruct (PCREEngine.timedOut clock (S count)).
  { destruct (0 <? List.length ms)%nat; intros X; injection X as <-;
      reflexivity. }
  destruct (PCREEngine.exec P regex t offset) as [[x|]|e];
    try discriminate.
  - destruct (PCREEngine.succeeded x); [|discriminate].
    destruct (_ <? _)%Z; [discriminate|]. apply IH.
  - destruct (0 <? List.length ms)%nat; intros X; injection X as <-;
      reflexivity.
Qed.

Lemma pcre_test_repeated_flags :
  PCREEngine.test P this clock (VString p) (VString t) (VString f)
  = PCREEngine.test P this clock (VString p) (VString t)
                    (VString (distinct f))
  /\ Result.flags
       (PCREEngine.test P this clock (VString p) (VString t) (VString f))
     = VString (distinct f).
Proof.
  pose proof (made_of_distinct _ _ Hf) as Hd.
  unfold PCREEngine.test, PCREEngine._ensureInitialized.
  cbn [default_param]. rewrite Hinit. cbn [bind].
  rewrite (pcre_sanitize f Hf), (pcre_sanitize _ Hd), distinct_idempotent.
  cbn [bind].
  destruct (PCREEngine.quickMatch P p t _) as [[x|]|e];
    destruct (PCREEngine.timedOut clock 1);
    try destruct (PCREEngine.succeeded x); split; reflexivity.
Qed.

Lemma pcre_findAll_repeated_flags :
  PCREEngine.findAll P this clock (VString p) (VString t) (VString f)
  = PCREEngine.findAll P this clock (VString p) (VString t)
                       (VString (distinct f))
  /\ Result.flags
       (PCREEngine.findAll P this clock (VString p) (VString t) (VString f))
     = VString (distinct f).
Proof.
  pose proof (made_of_distinct _ _ Hf) as Hd.
  unfold PCREEngine.findAll, PCREEngine._ensureInitialized.
  generalize PCREEngine.MAX_ITERATIONS. intros cap.
  cbn [default_param]. rewrite Hinit. cbn [bind].
  rewrite (pcre_sanitize f Hf), (pcre_sanitize _ Hd), distinct_idempotent.
  cbn [bind].
  destruct (PCREEngine.compile P p _) as [regex|e]; [|split; reflexivity].
  destruct (PCREEngine.findAll_loop P clock regex (VString p) (distinct f) t
                                    cap 0 0 []) as [res|ms count] eqn:El.
  - split; [reflexivity|]. exact (pcre_loop_flags _ _ _ _ _ _ _ El).
  - destruct (_ && _); split; reflexivity.
Qed.

Lemma pcre_replace_repeated_flags :
  ReplaceResult.success
    (PCREEngine.replace P this clock (VString p) (VString t) (VString r)
                        (VString f)) = true ->
  PCREEngine.replace P this clock (VString p) (VString t) (VString r)
                     (VString f)
  = PCREEngine.replace P this clock (VString p) (VString t) (VString r)
                       (VString (distinct f))
  /\ ReplaceResult.flags
       (PCREEngine.replace P this clock (VString p) (VString t) (VString r)
                           (VString f))
     = VString (distinct f).
Proof.
  pose proof (made_of_distinct _ _ Hf) as Hd.
  unfold PCREEngine.replace, PCREEngine._ensureInitialized.
  generalize PCREEngine.REPLACE_MAX_ITERATIONS. intros cap.
  cbn [default_param]. rewrite Hinit. cbn [bind].
  rewrite (pcre_sanitize f Hf), (pcre_sanitize _ Hd), distinct_idempotent.
  cbn [bind].
  destruct (PCREEngine.compile P p _) as [regex|e]; [|discriminate].
  destruct (PCREEngine.replace_loop P clock regex t _ cap 0 0 [])
    as [ms|e]; cbn [bind]; [|discriminate].
  intros _. split; reflexivity.
Qed.
End RepeatedFlagsPCRE.

Lemma C10_counterexample :
  made_of PCREEngine.SUPPORTED_FLAGS "gg" = true
  /\ Result.flags
       (PCREEngine.test Reference.pcre (PCREEngine.mkEngine false None)
          Reference.frozen (VString "a") (VString "a") (VString "gg"))
     = VString "gg"
  /\ ReplaceResult.flags
       (PCREEngine.replace Reference.pcre Reference.ready Reference.slow
          (VString "a") (VString "a") (VString "b") (VString "gg"))
     = VString "gg"
  /\ PCREEngine.replace Reference.pcre Reference.ready Reference.slow
       (VString "a") (VString "a") (VString "b") (VString "gg")
     <> PCREEngine.replace Reference.pcre Reference.ready Reference.slow
          (VString "a") (VString "a") (VString "b") (VString "g")
  /\ ~ echoes_once
       (ReplaceResult.flags
          (PCREEngine.replace Reference.pcre Reference.ready Reference.slow
             (VString "a") (VString "a") (VString "b") (VString "gg"))).
Proof.
  split; [reflexivity|].
  split; [vm_compute; reflexivity|].
  split; [vm_compute; reflexivity|].
  split.
  - intros X. apply (f_equal ReplaceResult.flags) in X.
    vm_compute in X. discriminate X.
  - intros (s & Es & Hnd). vm_compute in Es. injection Es as <-.
    inversion Hnd as [|x l Hin _]. apply Hin. now left.
Qed.

(** C10.  Flags made of supported characters are accepted with their
    repetitions and are sanitized to their distinct characters before the
    pattern is compiled; sanitizing is idempotent.  With strings for the
    other arguments, the three methods of the JavaScript adapter, and [test]
    and [findAll] of an initialized PCRE adapter, give the same result for
    the flags and for their distinct characters, and echo flags without a
    repeated character; so does [replace] of the PCRE adapter when it
    succeeds. *)
Theorem C10_repeated_flags
        (H : RegExp.Host) (P : PCREEngine.Host) (this : PCREEngine.engine)
        (clock : nat -> Z) (p t r f : string) :
  let js_test := JavaScriptEngine.test H clock (VString p) (VString t) in
  let js_findAll := JavaScriptEngine.findAll H clock (VString p) (VString t) in
  let js_replace :=
    JavaScriptEngine.replace H clock (VString p) (VString t) (VString r) in
  let pcre_test := PCREEngine.test P this clock (VString p) (VString t) in
  let pcre_findAll :=
    PCREEngine.findAll P this clock (VString p) (VString t) in
  let pcre_replace :=
    PCREEngine.replace P this clock (VString p) (VString t) (VString r) in
  (made_of JavaScriptEngine.SUPPORTED_FLAGS f = true ->
   JavaScriptEngine.validateAndSanitizeFlags (VString f)
   = Return (distinct f)
   /\ JavaScriptEngine.validateAndSanitizeFlags (VString (distinct f))
      = Return (distinct f)
   /\ js_test (VString f) = js_test (VString (distinct f))
   /\ js_findAll (VString f) = js_findAll (VString (distinct f))
   /\ js_replace (VString f) = js_replace (VString (distinct f))
   /\ echoes_once (Result.flags (js_test (VString f)))
   /\ echoes_once (Result.flags (js_findAll (VString f)))
   /\ echoes_once (ReplaceResult.flags (js_replace (VString f))))
  /\ (made_of PCREEngine.SUPPORTED_FLAGS f = true ->
      PCREEngine.initialized this = true ->
      PCREEngine.validateAndSanitizeFlags (VString f) = Return (distinct f)
      /\ PCREEngine.validateAndSanitizeFlags (VString (distinct f))
         = Return (distinct f)
      /\ pcre_test (VString f) = pcre_test (VString (distinct f))
      /\ pcre_findAll (VString f) = pcre_findAll (VString (distinct f))
      /\ echoes_once (Result.flags (pcre_test (VString f)))
      /\ echoes_once (Result.flags (pcre_findAll (VString f)))
      /\ (ReplaceResult.success (pcre_replace (VString f)) = true ->
          pcre_replace (VString f) = pcre_replace (VString (distinct f))
          /\ echoes_once (ReplaceResult.flags (pcre_replace (VString f))))).
Proof.
  cbv zeta. split.
  - intros Hf.
    pose proof (js_repeated_flags H clock p t r f Hf) as (E1 & E2 & E3).
    pose proof (js_echoed_flags H clock p t r f Hf) as (F1 & F2 & F3).
    split; [now apply js_sanitize|].
    split; [rewrite js_sanitize by (now apply made_of_distinct);
            now rewrite distinct_idempotent|].
    do 3 (split; [assumption|]).
    split; [|split].
    + exists (distinct f). split; [assumption | apply distinct_NoDup].
    + exists (JavaScriptEngine.globalFlagsOf (distinct f)).
      split; [assumption | apply globalFlagsOf_NoDup].
    + exists (distinct f). split; [assumption | apply distinct_NoDup].
  - intros Hf Hinit.
    pose proof (pcre_test_repeated_flags P this clock p t f Hf Hinit)
      as (E1 & F1).
    pose proof (pcre_findAll_repeated_flags P this clock p t f Hf Hinit)
      as (E2 & F2).
    split; [now apply pcre_sanitize|].
    split; [rewrite pcre_sanitize by (now apply made_of_distinct);
            now rewrite distinct_idempotent|].
    do 2 (split; [assumption|]).
    split; [exists (distinct f); split;
            [assumption | apply distinct_NoDup]|].
    split; [exists (distinct f); split;
            [assumption | apply distinct_NoDup]|].
    intros Hs.
    destruct (pcre_replace_repeated_flags P this clock p t r f Hf Hinit Hs)
      as (E3 & F3).
    split; [assumption|].
    exists (distinct f). split; [assumption | apply distinct_NoDup].
Qed.

Lemma C10_witness :
  distinct "gigg" = "gi"
  /\ JavaScriptEngine.test Reference.host Reference.frozen
       (VString "A") (VString "banana") (VString "gigg")
     = JavaScriptEngine.test Reference.host Reference.frozen
         (VString "A") (VString "banana") (VString "gi")
  /\ echoes_once
       (Result.flags
          (JavaScriptEngine.findAll Reference.host Reference.frozen
             (VString "A") (VString "banana") (VString "gigg")))
  /\ PCREEngine.replace Reference.pcre Reference.ready Reference.frozen
       (VString "A") (VString "banana") (VString "o") (VString "gigg")
     = PCREEngine.replace Reference.pcre Reference.ready Reference.frozen
         (VString "A") (VString "banana") (VString "o") (VString "gi")
  /\ ReplaceResult.result
       (PCREEngine.replace Reference.pcre Reference.ready Reference.frozen
          (VString "A") (VString "banana") (VString "o") (VString "gigg"))
     = VString "bonono".
Proof.
  pose proof (C10_repeated_flags Reference.host Reference.pcre
                Reference.ready Reference.frozen "A" "banana" "o" "gigg")
    as [J Q].
  destruct (J eq_refl) as (_ & _ & J1 & _ & _ & _ & J2 & _).
  destruct (Q eq_refl eq_refl) as (_ & _ & _ & _ & _ & _ & Q1).
  destruct (Q1 eq_refl) as (Q2 & _).
  split; [reflexivity|].
  split; [exact J1|].
  split; [exact J2|].
  split; [exact Q2 | vm_compute; reflexivity].
Defined.

(* ================================================================== *)
(** * Further properties of the factory *)

Lemma smem_In (x : string) (l : list string) : smem x l = true <-> In x l.
Proof.
  unfold smem. rewrite existsb_exists. split.
  - intros [y [Hin Heq]]. apply String.eqb_eq in Heq. now subst.
  - intros Hin. exists x. split; [assumption | apply String.eqb_refl].
Qed.

Lemma lower_char_idempotent (c : ascii) :
  lower_char (lower_char c) = lower_char c.
Proof.
  destruct c as [[] [] [] [] [] [] [] []]; vm_compute; reflexivity.
Qed.

Lemma toLowerCase_idempotent (s : string) :
  toLowerCase (toLowerCase s) = toLowerCase s.
Proof.
  unfold toLowerCase. rewrite chars_str, map_map. f_equal.
  apply map_ext. intros c. apply lower_char_idempotent.
Qed.

Lemma toLowerCase_append (s1 s2 : string) :
  toLowerCase (s1 ++ s2) = (toLowerCase s1 ++ toLowerCase s2)%string.
Proof.
  unfold toLowerCase. rewrite chars_append, map_app.
  rewrite <- (str_chars (str _ ++ str _)).
  now rewrite chars_append, !chars_str.
Qed.

Lemma toLowerCase_empty (s : string) : toLowerCase s = "" -> s = "".
Proof. destruct s; [reflexivity | discriminate]. Qed.

Lemma drop_space_snoc (l : list ascii) (c : ascii) :
  is_space c = true ->
  drop_space (l ++ [c])
  = match drop_space l with [] => [] | _ => drop_space l ++ [c] end.
Proof.
  intros Hc. induction l as [|x l IH]; simpl.
  - now rewrite Hc.
  - destruct (is_space x); [exact IH | reflexivity].
Qed.

(** White space around a string does not change what [trim] returns. *)
Lemma trim_space_left (c : ascii) (s : string) :
  is_space c = true -> trim (String c s) = trim s.
Proof. intros Hc. unfold trim. simpl. now rewrite Hc. Qed.

Lemma trim_space_right (c : ascii) (s : string) :
  is_space c = true -> trim (s ++ String c "") = trim s.
Proof.
  intros Hc. unfold trim. rewrite chars_append. simpl (chars (String c "")).
  rewrite (drop_space_snoc _ _ Hc).
  destruct (drop_space (chars s)) as [|x l] eqn:E; [reflexivity|].
  rewrite rev_app_distr. simpl rev at 1. simpl app. simpl drop_space.
  now rewrite Hc.
Qed.

Lemma canonicalOf_range (x c : string) :
  EngineFactory.canonicalOf EngineFactory.ENGINE_ALIASES x = Some c ->
  c = "javascript" \/ c = "pcre".
Proof.
  unfold EngineFactory.ENGINE_ALIASES.
  cbn [EngineFactory.canonicalOf].
  destruct (smem x ["javascript"; "js"]);
    [intros E; injection E as <-; now left|].
  destruct (smem x ["pcre"; "perl"]);
    [intros E; injection E as <-; now right|].
  discriminate.
Qed.

Lemma normalizeEngineName_string (name : value) (c : string) :
  EngineFactory.normalizeEngineName name = Return c ->
  exists n, name = VString n /\ n <> ""
            /\ EngineFactory.canonicalOf EngineFactory.ENGINE_ALIASES
                 (trim (toLowerCase n)) = Some c.
Proof.
  unfold EngineFactory.normalizeEngineName.
  destruct name as [| | | |n|]; try discriminate.
  destruct (truthy (VString n)) eqn:T; cbn [negb]; [|discriminate].
  destruct (EngineFactory.canonicalOf EngineFactory.ENGINE_ALIASES
              (trim (toLowerCase n))) as [c'|] eqn:E; [|discriminate].
  intros X. injection X as <-. exists n.
  split; [reflexivity|]. split; [|exact E].
  simpl in T. apply negb_true_iff in T. now apply String.eqb_neq.
Qed.

Lemma normalizeEngineName_of_canonical (n c : string) :
  n <> "" ->
  EngineFactory.canonicalOf EngineFactory.ENGINE_ALIASES
    (trim (toLowerCase n)) = Some c ->
  EngineFactory.normalizeEngineName (VString n) = Return c.
Proof.
  intros Hn Hc. unfold EngineFactory.normalizeEngineName.
  assert (T : truthy (VString n) = true).
  { simpl. apply negb_true_iff. now apply String.eqb_neq. }
  now rewrite T, Hc.
Qed.

(** X1.  A name that [normalizeEngineName] accepts resolves to one of the
    two canonical names, which resolve to themselves; the case of the
    letters and white space around the name do not matter. *)
Theorem X1_normalizeEngineName_canonical (n c : string) :
  EngineFactory.normalizeEngineName (VString n) = Return c ->
  (c = "javascript" \/ c = "pcre")
  /\ EngineFactory.normalizeEngineName (VString c) = Return c
  /\ EngineFactory.normalizeEngineName (VString (toLowerCase n)) = Return c
  /\ EngineFactory.normalizeEngineName (VString (" " ++ n ++ " ")) = Return c.
Proof.
  intros E. apply normalizeEngineName_string in E.
  destruct E as (n' & En & Hn & Hc). injection En as <-.
  pose proof (canonicalOf_range _ _ Hc) as Hr.
  split; [assumption|]. split; [|split].
  - destruct Hr as [-> | ->]; reflexivity.
  - apply normalizeEngineName_of_canonical.
    + intros Z0. apply Hn. now apply toLowerCase_empty.
    + now rewrite toLowerCase_idempotent.
  - apply normalizeEngineName_of_canonical; [discriminate|].
    rewrite !toLowerCase_append.
    change (toLowerCase " ") with " ".
    change (" " ++ toLowerCase n ++ " ")%string
      with (String " " (toLowerCase n ++ String " " "")).
    rewrite trim_space_left by reflexivity.
    now rewrite trim_space_right by reflexivity.
Qed.

Lemma X1_witness :
  EngineFactory.normalizeEngineName (VString "Perl") = Return "pcre"
  /\ EngineFactory.normalizeEngineName (VString " Perl ") = Return "pcre".
Proof.
  split; [reflexivity|].
  exact (proj2 (proj2 (proj2
           (X1_normalizeEngineName_canonical "Perl" "pcre" eq_refl)))).
Defined.

(** ** The engine map *)

Lemma map_get_set_same (m : list (string * Engine.t)) (k : string)
      (v : Engine.t) :
  EngineFactory.map_get (EngineFactory.map_set m k v) k = Some v.
Proof.
  induction m as [|[k0 v0] m IH]; simpl.
  - now rewrite String.eqb_refl.
  - destruct (String.eqb k0 k) eqn:E; simpl; rewrite E; [reflexivity|].
    exact IH.
Qed.

Lemma map_get_set_other (m : list (string * Engine.t)) (k k' : string)
      (v : Engine.t) :
  k' <> k ->
  EngineFactory.map_get (EngineFactory.map_set m k v) k'
  = EngineFactory.map_get m k'.
Proof.
  intros Hne. induction m as [|[k0 v0] m IH]; simpl.
  - destruct (String.eqb k k') eqn:E; [|reflexivity].
    apply String.eqb_eq in E. congruence.
  - destruct (String.eqb k0 k) eqn:E; simpl.
    + apply String.eqb_eq in E. subst k0.
      destruct (String.eqb k k') eqn:E'; [|reflexivity].
      apply String.eqb_eq in E'. congruence.
    + now rewrite IH.
Qed.

Lemma map_set_not_empty (m : list (string * Engine.t)) (k : string)
      (v : Engine.t) :
  (List.length (EngineFactory.map_set m k v) =? 0)%nat = false.
Proof.
  destruct m as [|[k0 v0] m]; simpl; [reflexivity|].
  now destruct (String.eqb k0 k).
Qed.

Lemma canonicalNames_returns (keys : list string) :
  forall seen,
    returned (EngineFactory.canonicalNames keys seen)
    = forallb known_alias keys.
Proof.
  induction keys as [|k keys IH]; intros seen; [reflexivity|].
  cbn [EngineFactory.canonicalNames forallb]. unfold known_alias at 1.
  destruct (EngineFactory.normalizeEngineName (VString k)) as [c|e];
    cbn [bind returned andb]; [apply IH | reflexivity].
Qed.

Lemma map_set_keys (m : list (string * Engine.t)) (k : string)
      (v : Engine.t) :
  known_alias k = true ->
  forallb known_alias (map fst (EngineFactory.map_set m k v))
  = forallb known_alias (map fst m).
Proof.
  intros Hk. induction m as [|[k0 v0] m IH].
  - cbn. now rewrite Hk.
  - cbn [EngineFactory.map_set]. destruct (String.eqb k0 k) eqn:E.
    + reflexivity.
    + cbn [map fst forallb]. now rewrite IH.
Qed.

(** What [initialize] does to a factory that is not initialized: the
    factory it builds, and the closing log line. *)
Lemma initialize_uninitialized (H : RegExp.Host) (f : EngineFactory.t) :
  EngineFactory.initialized f = false ->
  exists f0,
    EngineFactory.initialize H f
    = (if EngineFactory._silent f
          || forallb known_alias (map fst (EngineFactory.engines f))
       then Return f0
       else EngineFactory.initialize H f)
    /\ returned (EngineFactory.initialize H f)
       = EngineFactory._silent f
         || forallb known_alias (map fst (EngineFactory.engines f))
    /\ EngineFactory.initialized f0 = true
    /\ EngineFactory.map_get (EngineFactory.engines f0) "javascript"
       = Some (Engine.javascript H)
    /\ EngineFactory.map_get (EngineFactory.engines f0) "js"
       = Some (Engine.javascript H)
    /\ (forall k, k <> "javascript" -> k <> "js" ->
                  EngineFactory.map_get (EngineFactory.engines f0) k
                  = EngineFactory.map_get (EngineFactory.engines f) k)
    /\ EngineFactory.initializationErrors f0 = []
    /\ EngineFactory.options f0 = EngineFactory.options f
    /\ EngineFactory.initialize H f0 = Return f0.
Proof.
  intros Hi.
  set (f0 := EngineFactory.mk
               (EngineFactory.map_set
                  (EngineFactory.map_set (EngineFactory.engines f)
                     "javascript" (Engine.javascript H))
                  "js" (Engine.javascript H))
               true [] (EngineFactory.pcreTried f) (EngineFactory.options f)).
  assert (E : EngineFactory.initialize H f
              = if EngineFactory._silent f then Return f0
                else (_ <- EngineFactory.getAvailableEngines f0 ;;
                      Return f0)).
  { unfold EngineFactory.initialize. rewrite Hi.
    change (EngineFactory.aliasesOf "javascript") with ["javascript"; "js"].
    cbn [fold_left]. rewrite map_set_not_empty. reflexivity. }
  assert (R : returned (EngineFactory.getAvailableEngines f0)
              = forallb known_alias (map fst (EngineFactory.engines f))).
  { unfold EngineFactory.getAvailableEngines. cbn [EngineFactory.initialized
      f0 negb EngineFactory.engines].
    rewrite canonicalNames_returns.
    now rewrite !map_set_keys by reflexivity. }
  exists f0. split; [|split].
  - rewrite E. destruct (EngineFactory._silent f); [reflexivity|].
    cbn [orb]. rewrite <- R.
    now destruct (EngineFactory.getAvailableEngines f0).
  - rewrite E. destruct (EngineFactory._silent f); [reflexivity|].
    cbn [orb]. rewrite <- R.
    now destruct (EngineFactory.getAvailableEngines f0).
  - cbn [f0 EngineFactory.initialized EngineFactory.engines
         EngineFactory.initializationErrors EngineFactory.options].
    split; [reflexivity|].
    split; [rewrite map_get_set_other by discriminate;
            apply map_get_set_same|].
    split; [apply map_get_set_same|].
    split; [intros k H1 H2; now rewrite !map_get_set_other by assumption|].
    repeat split.
Qed.

(** X2.  From a factory that is not initialized, [initialize] can fail only
    in its closing log line: it returns exactly when logging is silenced or
    every key already in the map is an alias that the factory knows.  When
    it returns, it has registered the JavaScript engine under [javascript]
    and [js], kept the other keys and the options, cleared the errors and
    marked the factory initialized; on the result (as on any initialized
    factory) it changes nothing. *)
Theorem X2_initialize_registers_javascript
        (H : RegExp.Host) (f : EngineFactory.t) :
  EngineFactory.initialized f = false ->
  returned (EngineFactory.initialize H f)
  = EngineFactory._silent f
    || forallb known_alias (map fst (EngineFactory.engines f))
  /\ forall f',
      EngineFactory.initialize H f = Return f' ->
      EngineFactory.initialized f' = true
      /\ EngineFactory.map_get (EngineFactory.engines f') "javascript"
         = Some (Engine.javascript H)
      /\ EngineFactory.map_get (EngineFactory.engines f') "js"
         = Some (Engine.javascript H)
      /\ (forall k, k <> "javascript" -> k <> "js" ->
                    EngineFactory.map_get (EngineFactory.engines f') k
                    = EngineFactory.map_get (EngineFactory.engines f) k)
      /\ EngineFactory.initializationErrors f' = []
      /\ EngineFactory.options f' = EngineFactory.options f
      /\ EngineFactory.initialize H f' = Return f'.
Proof.
  intros Hi.
  destruct (initialize_uninitialized H f Hi) as (f0 & E & R & P).
  split; [exact R|].
  intros f' E'. rewrite E' in R. cbn [returned] in R.
  rewrite <- R in E. rewrite E' in E. injection E as ->. exact P.
Qed.

Lemma X2_witness :
  (exists f',
      EngineFactory.initialize Reference.host
        (EngineFactory.destroy
           (EngineFactory.mk [("js", Engine.javascript Reference.host)]
                             true [] true [])) = Return f'
      /\ EngineFactory.initialized f' = true
      /\ EngineFactory.getAllEngineNames f' = ["javascript"; "js"])
  /\ returned
       (EngineFactory.initialize Reference.host
          (EngineFactory.mk [("ruby", Engine.javascript Reference.host)]
                            false [] false [])) = false
  /\ returned
       (EngineFactory.initialize Reference.host
          (EngineFactory.mk [("ruby", Engine.javascript Reference.host)]
                            false [] false [("quiet", VBool true)])) = true.
Proof.
  split; [|split].
  - destruct (X2_initialize_registers_javascript Reference.host
                (EngineFactory.destroy
                   (EngineFactory.mk
                      [("js", Engine.javascript Reference.host)]
                      true [] true [])) eq_refl) as [_ P].
    eexists. split; [reflexivity|].
    split; [exact (proj1 (P _ eq_refl)) | reflexivity].
  - exact (proj1 (X2_initialize_registers_javascript Reference.host
                    (EngineFactory.mk
                       [("ruby", Engine.javascript Reference.host)]
                       false [] false []) eq_refl)).
  - exact (proj1 (X2_initialize_registers_javascript Reference.host
                    (EngineFactory.mk
                       [("ruby", Engine.javascript Reference.host)]
                       false [] false [("quiet", VBool true)]) eq_refl)).
Defined.

(** ** Available engines *)

Lemma canonicalNames_spec (keys : list string) :
  forall seen names,
    NoDup seen ->
    EngineFactory.canonicalNames keys seen = Return names ->
    NoDup names
    /\ (forall c, In c names <->
                  In c seen
                  \/ exists k, In k keys
                               /\ EngineFactory.normalizeEngineName
                                    (VString k) = Return c).
Proof.
  induction keys as [|k keys IH]; intros seen names Hnd;
    cbn [EngineFactory.canonicalNames].
  - intros E. injection E as <-. split; [assumption|].
    intros c. split; [now left | intros [Hc | (k & [] & _)]; assumption].
  - destruct (EngineFactory.normalizeEngineName (VString k))
      as [c0|e] eqn:En; cbn [bind]; [|intros E; discriminate E].
    intros E. apply IH in E.
    + destruct E as [Hn Hiff]. split; [assumption|].
      intros c. rewrite Hiff. split.
      * intros [Hc | (k' & Hk' & Ek')].
        -- destruct (smem c0 seen) eqn:Q; [now left|].
           apply in_app_or in Hc. destruct Hc as [Hc | [<- | []]];
             [now left|]. right. exists k. split; [now left | assumption].
        -- right. exists k'. split; [now right | assumption].
      * intros [Hc | (k' & [<- | Hk'] & Ek')].
        -- left. destruct (smem c0 seen); [assumption|].
           apply in_or_app. now left.
        -- left. rewrite En in Ek'. injection Ek' as ->.
           destruct (smem c seen) eqn:Q; [now apply smem_In|].
           apply in_or_app. right. now left.
        -- right. exists k'. split; assumption.
    + destruct (smem c0 seen) eqn:Q; [assumption|].
      apply NoDup_app; [assumption | repeat constructor; easy |].
      intros x Hx [<- | []]. apply smem_In in Hx. congruence.
Qed.

Lemma getAvailableEngines_NoDup (f : EngineFactory.t)
      (names : list string) :
  EngineFactory.getAvailableEngines f = Return names -> NoDup names.
Proof.
  unfold EngineFactory.getAvailableEngines.
  destruct (negb (EngineFactory.initialized f)).
  - intros E. injection E as <-. constructor.
  - intros E. apply canonicalNames_spec in E; [|constructor]. apply E.
Qed.

(** X3.  The list of [getAvailableEngines] has no repetition and holds
    exactly the canonical names of the registered keys: each is
    [javascript] or [pcre]. *)
Theorem X3_getAvailableEngines_canonical_once
        (f : EngineFactory.t) (names : list string) :
  EngineFactory.initialized f = true ->
  EngineFactory.getAvailableEngines f = Return names ->
  NoDup names
  /\ (forall c, In c names -> c = "javascript" \/ c = "pcre")
  /\ (forall c, In c names <->
                exists k, In k (EngineFactory.getAllEngineNames f)
                          /\ EngineFactory.normalizeEngineName (VString k)
                             = Return c).
Proof.
  intros Hi. unfold EngineFactory.getAvailableEngines,
               EngineFactory.getAllEngineNames.
  rewrite Hi. cbn [negb]. intros E.
  apply canonicalNames_spec in E; [|constructor].
  destruct E as [Hn Hiff]. split; [assumption|].
  assert (Hiff' : forall c, In c names <->
            exists k, In k (map fst (EngineFactory.engines f))
                      /\ EngineFactory.normalizeEngineName (VString k)
                         = Return c).
  { intros c. rewrite Hiff. split; [intros [[] | X]; exact X | now right]. }
  split; [|exact Hiff'].
  intros c Hc. apply Hiff' in Hc. destruct Hc as (k & _ & Ek).
  apply normalizeEngineName_string in Ek.
  destruct Ek as (n & _ & _ & Hc). exact (canonicalOf_range _ _ Hc).
Qed.

Lemma X3_witness :
  exists f,
    EngineFactory.initialize Reference.host (EngineFactory.new []) = Return f
    /\ EngineFactory.getAvailableEngines f = Return ["javascript"]
    /\ EngineFactory.getAllEngineNames f = ["javascript"; "js"]
    /\ NoDup ["javascript"].
Proof.
  eexists. split; [apply initialize_new|].
  split; [reflexivity|]. split; [reflexivity|].
  match goal with
  | |- NoDup ?l =>
      exact (proj1 (X3_getAvailableEngines_canonical_once
                      (EngineFactory.mk
                         [("javascript", Engine.javascript Reference.host);
                          ("js", Engine.javascript Reference.host)]
                         true [] false []) l eq_refl eq_refl))
  end.
Defined.

(** X4.  On an initialized factory [isEngineAvailable] tells whether
    [getEngine] returns an engine: it is [true] exactly when [getEngine]
    does not throw, and two names with the same canonical name get the same
    engine.  [isEngineAvailable] itself never throws: a name that is not a
    string, empty or unknown is not available. *)
Theorem X4_isEngineAvailable_decides_getEngine
        (f : EngineFactory.t) (name : value) :
  EngineFactory.initialized f = true ->
  (EngineFactory.isEngineAvailable f name
   = returned (EngineFactory.getEngine f name))
  /\ (forall name' c,
         EngineFactory.normalizeEngineName name = Return c ->
         EngineFactory.normalizeEngineName name' = Return c ->
         EngineFactory.isEngineAvailable f name = true ->
         EngineFactory.getEngine f name' = EngineFactory.getEngine f name)
  /\ (is_string name = false ->
      EngineFactory.isEngineAvailable f name = false).
Proof.
  intros Hi. unfold EngineFactory.isEngineAvailable, EngineFactory.getEngine,
               EngineFactory.map_has.
  rewrite Hi. cbn [negb]. split; [|split].
  - destruct (EngineFactory.normalizeEngineName name) as [c|e];
      cbn [bind returned]; [|reflexivity].
    destruct (EngineFactory.map_get (EngineFactory.engines f) c);
      [reflexivity|].
    now destruct (EngineFactory.getAvailableEngines f).
  - intros name' c E E'. rewrite E, E'. cbn [bind].
    destruct (EngineFactory.map_get (EngineFactory.engines f) c);
      [reflexivity | discriminate].
  - intros Hs. destruct name; try reflexivity. discriminate Hs.
Qed.

Lemma X4_witness :
  exists f,
    EngineFactory.initialize Reference.host (EngineFactory.new []) = Return f
    /\ EngineFactory.isEngineAvailable f (VString "JS") = true
    /\ EngineFactory.isEngineAvailable f (VString "perl") = false
    /\ returned (EngineFactory.getEngine f (VString "perl")) = false.
Proof.
  eexists. split; [apply initialize_new|].
  split; [reflexivity|]. split; [reflexivity|].
  match goal with
  | |- returned (EngineFactory.getEngine ?f ?n) = _ =>
      rewrite <- (proj1 (X4_isEngineAvailable_decides_getEngine f n eq_refl))
  end.
  reflexivity.
Defined.

Lemma getEngine_not_initialized (f : EngineFactory.t) (name : value) :
  EngineFactory.initialized f = false ->
  EngineFactory.getEngine f name
  = Throw (Error "EngineFactory not initialized. Call initialize() first.").
Proof. intros Hi. unfold EngineFactory.getEngine. now rewrite Hi. Qed.

(** X5.  After [destroy] no engine is left: the three matching operations
    throw "EngineFactory not initialized" on valid inputs, no name is
    available, the lists of names are empty, and [compare] returns an empty
    object without throwing.  [initialize] brings the JavaScript engine
    back. *)
Theorem X5_destroy_unregisters_everything
        (H : RegExp.Host) (clock : nat -> Z) (clocks : nat -> nat -> Z)
        (f : EngineFactory.t) (name : value) (p t r flags : string) :
  let d := EngineFactory.destroy f in
  let e := Error "EngineFactory not initialized. Call initialize() first." in
  EngineFactory.test clock d name (VString p) (VString t) (VString flags)
  = Throw e
  /\ EngineFactory.findAll clock d name (VString p) (VString t)
                           (VString flags) = Throw e
  /\ EngineFactory.replace clock d name (VString p) (VString t) (VString r)
                           (VString flags) = Throw e
  /\ EngineFactory.isEngineAvailable d name = false
  /\ EngineFactory.getAvailableEngines d = Return []
  /\ EngineFactory.getAllEngineNames d = []
  /\ EngineFactory.compare clocks d (VString p) (VString t) (VString flags)
     = Return []
  /\ exists f',
      EngineFactory.initialize H d = Return f'
      /\ EngineFactory.isEngineAvailable f' (VString "javascript") = true.
Proof.
  intros d e.
  destruct (facade_unresolved clock d name p t r flags e
              (getEngine_not_initialized d name eq_refl)) as (E1 & E2 & E3).
  do 3 (split; [assumption|]).
  split.
  { unfold EngineFactory.isEngineAvailable.
    now destruct (EngineFactory.normalizeEngineName name). }
  do 3 (split; [reflexivity|]).
  destruct (initialize_uninitialized H d eq_refl)
    as (f' & E & _ & _ & Hjs & _).
  change (forallb known_alias (map fst (EngineFactory.engines d)))
    with true in E.
  rewrite orb_true_r in E.
  exists f'. split; [exact E|].
  unfold EngineFactory.isEngineAvailable, EngineFactory.map_has.
  assert (N : EngineFactory.normalizeEngineName (VString "javascript")
              = Return "javascript") by reflexivity.
  now rewrite N, Hjs.
Qed.

(** X6.  [maybeLazyLoadEngine] never loads anything: it returns [false],
    leaves the engine map and the [initialized] flag as they are, so that
    every name is as available after the call as before, and a second call
    with the same name changes nothing at all. *)
Theorem X6_maybeLazyLoadEngine_loads_nothing
        (f : EngineFactory.t) (name : string) (other : value) :
  let r := EngineFactory.maybeLazyLoadEngine f name in
  fst r = false
  /\ EngineFactory.engines (snd r) = EngineFactory.engines f
  /\ EngineFactory.initialized (snd r) = EngineFactory.initialized f
  /\ EngineFactory.isEngineAvailable (snd r) other
     = EngineFactory.isEngineAvailable f other
  /\ EngineFactory.maybeLazyLoadEngine (snd r) name = (false, snd r).
Proof.
  unfold EngineFactory.maybeLazyLoadEngine at 1. cbv zeta.
  destruct (negb (String.eqb (toLowerCase name) "pcre")) eqn:T.
  { cbn [fst snd]. unfold EngineFactory.maybeLazyLoadEngine.
    rewrite T. repeat split. }
  destruct (EngineFactory.isEngineAvailable f (VString "pcre")) eqn:A.
  { cbn [fst snd]. unfold EngineFactory.maybeLazyLoadEngine.
    rewrite T, A. repeat split. }
  destruct (EngineFactory.pcreTried f) eqn:P.
  { cbn [fst snd]. unfold EngineFactory.maybeLazyLoadEngine.
    rewrite T, A, P. repeat split. }
  cbn [fst snd EngineFactory.engines EngineFactory.initialized].
  unfold EngineFactory.maybeLazyLoadEngine.
  cbn [EngineFactory.pcreTried].
  rewrite T.
  assert (A' : forall o,
    EngineFactory.isEngineAvailable
      (EngineFactory.mk (EngineFactory.engines f)
         (EngineFactory.initialized f) (EngineFactory.initializationErrors f)
         true (EngineFactory.options f)) o
    = EngineFactory.isEngineAvailable f o) by reflexivity.
  rewrite !A', A. repeat split.
Qed.

(** ** [compare] *)

Lemma obj_set_fresh (o : list (string * Result.t)) (k : string)
      (v : Result.t) :
  ~ In k (map fst o) -> EngineFactory.obj_set o k v = o ++ [(k, v)].
Proof.
  induction o as [|[k0 v0] o IH]; simpl; [reflexivity|].
  intros Hn. destruct (String.eqb k0 k) eqn:E.
  - apply String.eqb_eq in E. exfalso. apply Hn. now left.
  - rewrite IH; [reflexivity|]. intros Hin. apply Hn. now right.
Qed.

Lemma compare_loop_entries (clocks : nat -> nat -> Z) (f : EngineFactory.t)
      (pattern text : value) (vf : string) (names : list string) :
  forall call results,
    NoDup (map fst results ++ names) ->
    exists added,
      EngineFactory.compare_loop clocks f pattern text vf names call results
      = results ++ added
      /\ map fst added = names
      /\ forall i name,
          nth_error names i = Some name ->
          nth_error added i
          = Some (name,
                  compare_entry (clocks (call + i)) f pattern text vf name).
Proof.
  induction names as [|n names IH]; intros call results Hnd.
  - exists []. simpl. rewrite app_nil_r. repeat split.
    intros i name Hi. destruct i; discriminate Hi.
  - cbn [EngineFactory.compare_loop]. cbv zeta.
    fold (compare_entry (clocks call) f pattern text vf n).
    rewrite obj_set_fresh.
    2:{ apply NoDup_remove_2 in Hnd. intros Hin. apply Hnd.
        apply in_or_app. now left. }
    destruct (IH (S call)
                 (results
                    ++ [(n, compare_entry (clocks call) f pattern text vf n)]))
      as (added & E & Hk & He).
    { rewrite map_app, <- app_assoc. exact Hnd. }
    exists ((n, compare_entry (clocks call) f pattern text vf n) :: added).
    split; [rewrite E, <- app_assoc; reflexivity|].
    split; [simpl; now rewrite Hk|].
    intros i name Hi. destruct i as [|i]; simpl in *.
    + injection Hi as <-. now rewrite Nat.add_0_r.
    + rewrite (He i name Hi). now rewrite Nat.add_succ_r.
Qed.

(** X7.  With a string pattern and text, [compare] throws only if
    [getAvailableEngines] does.  Its result has one entry per available
    engine, in the order of [getAvailableEngines]: the result of [test] for
    that engine, or, when [test] throws, a failed result of type
    [EngineError] with the message of the exception. *)
Theorem X7_compare_one_entry_per_engine
        (clocks : nat -> nat -> Z) (f : EngineFactory.t)
        (p t flags : string) (names : list string) :
  EngineFactory.getAvailableEngines f = Return names ->
  exists results,
    EngineFactory.compare clocks f (VString p) (VString t) (VString flags)
    = Return results
    /\ map fst results = names
    /\ forall i name,
        nth_error names i = Some name ->
        nth_error results i
        = Some (name,
                compare_entry (clocks i) f (VString p) (VString t) flags
                              name).
Proof.
  intros Ha.
  pose proof (getAvailableEngines_NoDup f names Ha) as Hnd.
  unfold EngineFactory.compare. cbn. rewrite Ha. cbn [bind].
  destruct (compare_loop_entries clocks f (VString p) (VString t) flags
              names 0 [] Hnd) as (added & E & Hk & He).
  exists added. split; [now rewrite E|]. split; [assumption|].
  exact He.
Qed.

Lemma X7_witness :
  exists results,
    EngineFactory.compare (fun _ => Reference.steady) Reference.factory
      (VString "a") (VString "banana") (VString "g") = Return results
    /\ map fst results = ["javascript"].
Proof.
  destruct (X7_compare_one_entry_per_engine
              (fun _ => Reference.steady) Reference.factory
              "a" "banana" "g" ["javascript"] eq_refl)
    as (results & E & K & _).
  exists results. split; assumption.
Defined.

(* ================================================================== *)
(** * The facade over the JavaScript adapter *)

Lemma getEngine_registered (f : EngineFactory.t) (engineName : value)
      (c : string) (engine : Engine.t) :
  EngineFactory.initialized f = true ->
  EngineFactory.normalizeEngineName engineName = Return c ->
  EngineFactory.map_get (EngineFactory.engines f) c = Some engine ->
  EngineFactory.getEngine f engineName = Return engine.
Proof.
  intros Hi Hn Hm. unfold EngineFactory.getEngine.
  rewrite Hi, Hn. cbn [negb bind]. now rewrite Hm.
Qed.

(** X8.  When the engine name resolves to a registered JavaScript adapter,
    the facade returns exactly what the adapter returns for the validated
    flags: with a string pattern and text, [test], [findAll] and [replace]
    of the factory never throw, and their own [catch] blocks are never
    entered. *)
Theorem X8_facade_returns_adapter_result
        (H : RegExp.Host) (clock : nat -> Z) (f : EngineFactory.t)
        (engineName flags : value) (c vf p t r : string) :
  EngineFactory.initialized f = true ->
  EngineFactory.normalizeEngineName engineName = Return c ->
  EngineFactory.map_get (EngineFactory.engines f) c
  = Some (Engine.javascript H) ->
  EngineFactory.validateFlags flags = Return vf ->
  EngineFactory.test clock f engineName (VString p) (VString t) flags
  = Return (JavaScriptEngine.test H clock (VString p) (VString t)
                                  (VString vf))
  /\ EngineFactory.findAll clock f engineName (VString p) (VString t) flags
     = Return (JavaScriptEngine.findAll H clock (VString p) (VString t)
                                        (VString vf))
  /\ EngineFactory.replace clock f engineName (VString p) (VString t)
                           (VString r) flags
     = Return (JavaScriptEngine.replace H clock (VString p) (VString t)
                                        (VString r) (VString vf)).
Proof.
  intros Hi Hn Hm Hf.
  pose proof (getEngine_registered f engineName c _ Hi Hn Hm) as G.
  unfold EngineFactory.test, EngineFactory.findAll, EngineFactory.replace.
  cbn [EngineFactory.validatePattern EngineFactory.validateText bind].
  rewrite Hf, G. cbn [bind Engine.javascript Engine.test Engine.findAll
                           Engine.replace].
  repeat split.
Qed.

Lemma X8_witness :
  EngineFactory.test Reference.steady Reference.factory (VString " JS ")
                     (VString "a+") (VString "banana") VUndefined
  = Return (JavaScriptEngine.test Reference.host Reference.steady
              (VString "a+") (VString "banana") (VString "")).
Proof.
  exact (proj1 (X8_facade_returns_adapter_result
                  Reference.host Reference.steady Reference.factory
                  (VString " JS ") VUndefined "javascript" "" "a+" "banana"
                  "" eq_refl eq_refl eq_refl eq_refl)).
Defined.

(* ================================================================== *)
(** * Flags that an adapter does not support *)

Lemma js_reject (f : string) :
  made_of JavaScriptEngine.SUPPORTED_FLAGS f = false ->
  JavaScriptEngine.validateAndSanitizeFlags (VString f)
  = Throw (Error ("Unsupported flags for JavaScript engine: "
                    ++ str (filter
                              (fun c =>
                                 negb (mem c JavaScriptEngine.SUPPORTED_FLAGS))
                              (chars f))
                    ++ ". Supported: igmsuy")).
Proof.
  intros Hf. unfold JavaScriptEngine.validateAndSanitizeFlags.
  cbn [default_param].
  rewrite (filter_nil_forallb
             (fun c => mem c JavaScriptEngine.SUPPORTED_FLAGS)).
  unfold made_of in Hf. rewrite Hf. reflexivity.
Qed.

Lemma pcre_reject (f : string) :
  made_of PCREEngine.SUPPORTED_FLAGS f = false ->
  PCREEngine.validateAndSanitizeFlags (VString f)
  = Throw (Error ("Unsupported flags for PCRE engine: "
                    ++ str (filter
                              (fun c =>
                                 negb (mem c PCREEngine.SUPPORTED_FLAGS))
                              (chars f))
                    ++ ". Supported: imsxug")).
Proof.
  intros Hf. unfold PCREEngine.validateAndSanitizeFlags.
  cbn [default_param].
  rewrite (filter_nil_forallb (fun c => mem c PCREEngine.SUPPORTED_FLAGS)).
  unfold made_of in Hf. rewrite Hf. reflexivity.
Qed.

(** X9.  A flag outside [igmsuy] makes every operation of the JavaScript
    adapter fail before the pattern is compiled: whatever the host, the
    result is unsuccessful, has no match, echoes the flags as they were
    given, leaves the text of [replace] unchanged, and its error lists the
    offending flags, in the order and as often as they were given. *)
Theorem X9_js_unsupported_flags_rejected
        (H : RegExp.Host) (clock : nat -> Z) (p t r f : string) :
  made_of JavaScriptEngine.SUPPORTED_FLAGS f = false ->
  let message :=
    ("Unsupported flags for JavaScript engine: "
       ++ str (filter (fun c => negb (mem c JavaScriptEngine.SUPPORTED_FLAGS))
                      (chars f))
       ++ ". Supported: igmsuy")%string in
  JavaScriptEngine.test H clock (VString p) (VString t) (VString f)
  = Result.mk false "JavaScript" (VString p) (VString f) (VString t) []
              (Some (ErrorInfo.mk message "Error" (Some "test operation")))
  /\ JavaScriptEngine.findAll H clock (VString p) (VString t) (VString f)
     = Result.mk false "JavaScript" (VString p) (VString f) (VString t) []
                 (Some (ErrorInfo.mk message "Error"
                                     (Some "findAll operation")))
  /\ JavaScriptEngine.replace H clock (VString p) (VString t) (VString r)
                              (VString f)
     = ReplaceResult.mk false "JavaScript" (VString p) (VString f)
                        (VString t) (VString r) (VString t)
                        (Some (ErrorInfo.mk message "Error"
                                            (Some "replace operation")))
  /\ JavaScriptEngine.validatePattern H (VString p) (VString f)
     = Validation.mk false (VString p) (VString f)
                     (Some (ErrorInfo.mk message "Error"
                                         (Some "pattern validation"))).
Proof.
  intros Hf message.
  unfold JavaScriptEngine.test, JavaScriptEngine.findAll,
    JavaScriptEngine.replace, JavaScriptEngine.validatePattern.
  cbn [default_param]. rewrite (js_reject f Hf). cbn [bind].
  repeat split.
Qed.

Lemma X9_witness :
  JavaScriptEngine.test Reference.host Reference.frozen
    (VString "a") (VString "banana") (VString "gxix")
  = Result.mk false "JavaScript" (VString "a") (VString "gxix")
      (VString "banana") []
      (Some (ErrorInfo.mk
               "Unsupported flags for JavaScript engine: xx. Supported: igmsuy"
               "Error" (Some "test operation"))).
Proof.
  exact (proj1 (X9_js_unsupported_flags_rejected
                  Reference.host Reference.frozen "a" "banana" "" "gxix"
                  eq_refl)).
Defined.

(** X10.  A flag outside [imsxug] makes every operation of an initialized
    PCRE adapter fail before the library is called: whatever the library,
    the result is unsuccessful, has no match, echoes the flags as they were
    given, and its error lists the offending flags. *)
Theorem X10_pcre_unsupported_flags_rejected
        (P : PCREEngine.Host) (this : PCREEngine.engine) (clock : nat -> Z)
        (p t r f : string) :
  PCREEngine.initialized this = true ->
  made_of PCREEngine.SUPPORTED_FLAGS f = false ->
  let message :=
    ("Unsupported flags for PCRE engine: "
       ++ str (filter (fun c => negb (mem c PCREEngine.SUPPORTED_FLAGS))
                      (chars f))
       ++ ". Supported: imsxug")%string in
  PCREEngine.test P this clock (VString p) (VString t) (VString f)
  = Result.mk false "PCRE" (VString p) (VString f) (VString t) []
              (Some (ErrorInfo.mk message "Error" (Some "test operation")))
  /\ PCREEngine.findAll P this clock (VString p) (VString t) (VString f)
     = Result.mk false "PCRE" (VString p) (VString f) (VString t) []
                 (Some (ErrorInfo.mk message "Error"
                                     (Some "findAll operation")))
  /\ PCREEngine.replace P this clock (VString p) (VString t) (VString r)
                        (VString f)
     = ReplaceResult.mk false "PCRE" (VString p) (VString f)
                        (VString t) (VString r) (VString t)
                        (Some (ErrorInfo.mk message "Error"
                                            (Some "replace operation")))
  /\ PCREEngine.validatePattern P this (VString p) (VString f)
     = Validation.mk false (VString p) (VString f)
                     (Some (ErrorInfo.mk message "Error"
                                         (Some "pattern validation"))).
Proof.
  intros Hi Hf message.
  unfold PCREEngine.test, PCREEngine.findAll, PCREEngine.replace,
    PCREEngine.validatePattern, PCREEngine._ensureInitialized.
  cbn [default_param]. rewrite Hi. cbn [bind].
  rewrite (pcre_reject f Hf). cbn [bind].
  repeat split.
Qed.

Lemma X10_witness :
  PCREEngine.findAll Reference.pcre Reference.ready Reference.frozen
    (VString "a") (VString "banana") (VString "gy")
  = Result.mk false "PCRE" (VString "a") (VString "gy")
      (VString "banana") []
      (Some (ErrorInfo.mk
               "Unsupported flags for PCRE engine: y. Supported: imsxug"
               "Error" (Some "findAll operation"))).
Proof.
  exact (proj1 (proj2 (X10_pcre_unsupported_flags_rejected
                         Reference.pcre Reference.ready Reference.frozen
                         "a" "banana" "" "gy" eq_refl eq_refl))).
Defined.

(* ================================================================== *)
(** * The life cycle of the PCRE adapter *)

(** X11.  An adapter that is not initialized never calls the library:
    whatever the library, the flags and the clock, every operation on a
    string pattern and text fails with the message of
    [_ensureInitialized], which quotes the initialization error when there
    is one. *)
Theorem X11_pcre_uninitialized_fails
        (P : PCREEngine.Host) (this : PCREEngine.engine) (clock : nat -> Z)
        (p t r : string) (flags : value) :
  PCREEngine.initialized this = false ->
  let message :=
    match PCREEngine.initializationError this with
    | Some e =>
        ("PCRE engine initialization failed: " ++ JS.message e)%string
    | None => "PCRE engine not initialized. Call initialize() first."
    end in
  let echoed := default_param flags (VString "") in
  PCREEngine.test P this clock (VString p) (VString t) flags
  = Result.mk false "PCRE" (VString p) echoed (VString t) []
              (Some (ErrorInfo.mk message "Error" (Some "test operation")))
  /\ PCREEngine.findAll P this clock (VString p) (VString t) flags
     = Result.mk false "PCRE" (VString p) echoed (VString t) []
                 (Some (ErrorInfo.mk message "Error"
                                     (Some "findAll operation")))
  /\ PCREEngine.replace P this clock (VString p) (VString t) (VString r)
                        flags
     = ReplaceResult.mk false "PCRE" (VString p) echoed
                        (VString t) (VString r) (VString t)
                        (Some (ErrorInfo.mk message "Error"
                                            (Some "replace operation")))
  /\ PCREEngine.validatePattern P this (VString p) flags
     = Validation.mk false (VString p) echoed
                     (Some (ErrorInfo.mk message "Error"
                                         (Some "pattern validation"))).
Proof.
  intros Hi message echoed. subst message echoed.
  unfold PCREEngine.test, PCREEngine.findAll, PCREEngine.replace,
    PCREEngine.validatePattern, PCREEngine._ensureInitialized.
  rewrite Hi.
  destruct (PCREEngine.initializationError this) as [e|];
    cbn [bind]; repeat split.
Qed.

Lemma X11_witness :
  PCREEngine.initialized (PCREEngine.destroy Reference.ready) = false
  /\ PCREEngine.test Reference.pcre (PCREEngine.destroy Reference.ready)
       Reference.frozen (VString "a") (VString "banana") VUndefined
     = Result.mk false "PCRE" (VString "a") (VString "") (VString "banana")
         []
         (Some (ErrorInfo.mk
                  "PCRE engine not initialized. Call initialize() first."
                  "Error" (Some "test operation"))).
Proof.
  split; [reflexivity|].
  exact (proj1 (X11_pcre_uninitialized_fails
                  Reference.pcre (PCREEngine.destroy Reference.ready)
                  Reference.frozen "a" "banana" "" VUndefined eq_refl)).
Defined.

(** X12.  [initialize] of the PCRE adapter returns exactly when the adapter
    is initialized afterwards.  A failure is remembered: every later call
    throws the same error without trying the library again, whatever the
    library would answer.  After [destroy] the library is tried again. *)
Theorem X12_pcre_initialize_life_cycle
        (init : completion unit) (this : PCREEngine.engine) :
  returned (fst (PCREEngine.initialize init this))
  = PCREEngine.initialized (snd (PCREEngine.initialize init this))
  /\ (forall e init',
         fst (PCREEngine.initialize init this) = Throw e ->
         PCREEngine.initialize init'
           (snd (PCREEngine.initialize init this))
         = (Throw e, snd (PCREEngine.initialize init this)))
  /\ (forall init',
         PCREEngine.initialize init'
           (PCREEngine.destroy (snd (PCREEngine.initialize init this)))
         = match init' with
           | Return _ => (Return tt, PCREEngine.mkEngine true None)
           | Throw error =>
               let e := Error ("Failed to initialize PCRE engine: "
                                 ++ JS.message error) in
               (Throw e, PCREEngine.mkEngine false (Some e))
           end).
Proof.
  unfold PCREEngine.initialize.
  destruct this as [i [e0|]]; destruct i; destruct init as [u|err];
    cbn [fst snd returned PCREEngine.initialized
         PCREEngine.initializationError PCREEngine.destroy];
    (split; [reflexivity|]);
    (split; [|intros init'; reflexivity]);
    intros e init' E; try discriminate E;
    injection E as <-; reflexivity.
Qed.

(* ================================================================== *)
(** * The shape of the results *)

Lemma js_test_shape (H : RegExp.Host) (clock : nat -> Z)
      (pattern text flags : value) :
  Result.success (JavaScriptEngine.test H clock pattern text flags)
  = (0 <? List.length
            (Result.matches
               (JavaScriptEngine.test H clock pattern text flags)))%nat
  /\ List.length
       (Result.matches (JavaScriptEngine.test H clock pattern text flags))
     <= 1
  /\ Result.pattern (JavaScriptEngine.test H clock pattern text flags)
     = pattern
  /\ Result.text (JavaScriptEngine.test H clock pattern text flags) = text.
Proof.
  unfold JavaScriptEngine.test.
  destruct pattern as [| | | |p|]; try (cbn; repeat split; lia).
  all: destruct text as [| | | |t|]; try (cbn; repeat split; lia).
  destruct (JavaScriptEngine.validateAndSanitizeFlags _) as [s|e];
    [|cbn; repeat split; lia].
  cbn [bind].
  destruct (RegExp.create H p s) as [regex|e]; [|cbn; repeat split; lia].
  destruct (JavaScriptEngine.timedOut clock 1); [cbn; repeat split; lia|].
  destruct (fst (RegExp.exec H regex t)); cbn; repeat split; lia.
Qed.

Lemma js_findAll_shape (H : RegExp.Host) (clock : nat -> Z)
      (pattern text flags : value) :
  Result.success (JavaScriptEngine.findAll H clock pattern text flags)
  = (0 <? List.length
            (Result.matches
               (JavaScriptEngine.findAll H clock pattern text flags)))%nat
  /\ Result.pattern (JavaScriptEngine.findAll H clock pattern text flags)
     = pattern
  /\ Result.text (JavaScriptEngine.findAll H clock pattern text flags)
     = text.
Proof.
  unfold JavaScriptEngine.findAll.
  generalize JavaScriptEngine.MAX_ITERATIONS. intros cap.
  destruct pattern as [| | | |p|]; try solve [cbn; repeat split].
  all: destruct text as [| | | |t|]; try solve [cbn; repeat split].
  destruct (JavaScriptEngine.validateAndSanitizeFlags _) as [s|e];
    [|solve [cbn; repeat split]].
  cbn [bind].
  destruct (RegExp.create H p _) as [regex|e]; [|solve [cbn; repeat split]].
  destruct (JavaScriptEngine.findAll_loop H clock t cap 0 regex [])
    as [ms [e|]]; destruct ms as [|m ms]; solve [cbn; repeat split].
Qed.

(** X13.  In every result of [test] and [findAll] of the JavaScript
    adapter, whatever the arguments, [success] tells whether there is a
    match; [test] reports at most one match; the pattern and the text are
    echoed as they were given. *)
Theorem X13_js_success_iff_match
        (H : RegExp.Host) (clock : nat -> Z) (pattern text flags : value) :
  let r := JavaScriptEngine.test H clock pattern text flags in
  let a := JavaScriptEngine.findAll H clock pattern text flags in
  Result.success r = (0 <? List.length (Result.matches r))%nat
  /\ List.length (Result.matches r) <= 1
  /\ Result.success a = (0 <? List.length (Result.matches a))%nat
  /\ Result.pattern r = pattern /\ Result.text r = text
  /\ Result.pattern a = pattern /\ Result.text a = text.
Proof.
  intros r a. subst r a.
  destruct (js_test_shape H clock pattern text flags) as (T1 & T2 & T3 & T4).
  destruct (js_findAll_shape H clock pattern text flags) as (A1 & A2 & A3).
  repeat split; assumption.
Qed.

Lemma pcre_test_shape (P : PCREEngine.Host) (this : PCREEngine.engine)
      (clock : nat -> Z) (pattern text flags : value) :
  Result.success (PCREEngine.test P this clock pattern text flags)
  = (0 <? List.length
            (Result.matches
               (PCREEngine.test P this clock pattern text flags)))%nat
  /\ List.length
       (Result.matches (PCREEngine.test P this clock pattern text flags))
     <= 1
  /\ Result.pattern (PCREEngine.test P this clock pattern text flags)
     = pattern
  /\ Result.text (PCREEngine.test P this clock pattern text flags) = text.
Proof.
  unfold PCREEngine.test.
  destruct pattern as [| | | |p|]; try (cbn; repeat split; lia).
  all: destruct text as [| | | |t|]; try (cbn; repeat split; lia).
  destruct (PCREEngine._ensureInitialized this) as [[]|e];
    [|cbn; repeat split; lia].
  cbn [bind].
  destruct (PCREEngine.validateAndSanitizeFlags _) as [s|e];
    [|cbn; repeat split; lia].
  cbn [bind].
  destruct (PCREEngine.quickMatch P p t _) as [[r|]|e];
    [| |cbn; repeat split; lia].
  - destruct (PCREEngine.timedOut clock 1); [cbn; repeat split; lia|].
    destruct (PCREEngine.succeeded r); cbn; repeat split; lia.
  - destruct (PCREEngine.timedOut clock 1); cbn; repeat split; lia.
Qed.

Lemma pcre_findAll_loop_carried (P : PCREEngine.Host) (clock : nat -> Z)
      (regex : PCREEngine.compiled P) (pattern : value) (s t : string)
      (remaining : nat) :
  forall iterationCount offset ms,
    (exists added,
        carried (PCREEngine.findAll_loop P clock regex pattern s t remaining
                                         iterationCount offset ms)
        = ms ++ added
        /\ List.length added <= remaining)
    /\ match PCREEngine.findAll_loop P clock regex pattern s t remaining
                                     iterationCount offset ms with
       | PCREEngine.Returned r =>
           Result.success r = (0 <? List.length (Result.matches r))%nat
           /\ Result.pattern r = pattern /\ Result.text r = VString t
       | PCREEngine.Left _ _ => True
       end.
Proof.
  assert (Hnone : forall ms k, exists added : list Match.t,
             ms = ms ++ added /\ List.length added <= k).
  { intros ms k. exists []. rewrite app_nil_r. split; [reflexivity|].
    apply Nat.le_0_l. }
  induction remaining as [|remaining IH]; intros count offset ms;
    cbn [PCREEngine.findAll_loop];
    destruct (negb (offset <? Z.of_nat (String.length t))%Z);
    try (split; [apply Hnone | exact I]).
  assert (Hpartial : forall e op,
    (exists added,
        carried
          (if (0 <? List.length ms)%nat
           then PCREEngine.Returned
                  (PCREEngine.createResult true pattern (VString s)
                     (VString t) ms
                     (Some (PCREEngine.createError e
                              "partial execution - some matches found")))
           else PCREEngine.Returned
                  (PCREEngine.createResult false pattern (VString s)
                     (VString t) []
                     (Some (PCREEngine.createError e op))))
        = ms ++ added
        /\ List.length added <= S remaining)
    /\ match
         (if (0 <? List.length ms)%nat
          then PCREEngine.Returned
                 (PCREEngine.createResult true pattern (VString s)
                    (VString t) ms
                    (Some (PCREEngine.createError e
                             "partial execution - some matches found")))
          else PCREEngine.Returned
                 (PCREEngine.createResult false pattern (VString s)
                    (VString t) []
                    (Some (PCREEngine.createError e op))))
       with
       | PCREEngine.Returned r =>
           Result.success r = (0 <? List.length (Result.matches r))%nat
           /\ Result.pattern r = pattern /\ Result.text r = VString t
       | PCREEngine.Left _ _ => True
       end).
  { intros e op. destruct ms as [|m ms]; cbn.
    - split; [|repeat split]. exists []. split; [reflexivity|].
      apply Nat.le_0_l.
    - split; [|repeat split]. exists []. rewrite app_nil_r.
      split; [reflexivity|]. apply Nat.le_0_l. }
  destruct (PCREEngine.timedOut clock (S count)); [apply Hpartial|].
  destruct (PCREEngine.exec P regex t offset) as [[r|]|e];
    [| split; [apply Hnone | exact I] | apply Hpartial].
  destruct (PCREEngine.succeeded r); [|split; [apply Hnone | exact I]].
  destruct (Z.of_nat (String.length t) <? PCREEngine.nextOffset r)%Z.
  - split; [|exact I]. exists [PCREEngine.formatMatch r t].
    split; [reflexivity|]. cbn. lia.
  - destruct (IH (S count) (PCREEngine.nextOffset r)
                 (ms ++ [PCREEngine.formatMatch r t]))
      as [(added & E & L) R].
    split; [|exact R].
    exists (PCREEngine.formatMatch r t :: added).
    rewrite E, <- app_assoc. split; [reflexivity|]. cbn. lia.
Qed.

Lemma pcre_findAll_shape (P : PCREEngine.Host) (this : PCREEngine.engine)
      (clock : nat -> Z) (pattern text flags : value) :
  Result.success (PCREEngine.findAll P this clock pattern text flags)
  = (0 <? List.length
            (Result.matches
               (PCREEngine.findAll P this clock pattern text flags)))%nat
  /\ Result.pattern (PCREEngine.findAll P this clock pattern text flags)
     = pattern
  /\ Result.text (PCREEngine.findAll P this clock pattern text flags) = text
  /\ List.length
       (Result.matches (PCREEngine.findAll P this clock pattern text flags))
     <= PCREEngine.MAX_ITERATIONS.
Proof.
  unfold PCREEngine.findAll.
  generalize PCREEngine.MAX_ITERATIONS. intros cap.
  destruct pattern as [| | | |p|];
    try (cbn; repeat split; apply Nat.le_0_l).
  all: destruct text as [| | | |t|];
    try (cbn; repeat split; apply Nat.le_0_l).
  destruct (PCREEngine._ensureInitialized this) as [[]|e];
    [|cbn; repeat split; apply Nat.le_0_l].
  cbn [bind].
  destruct (PCREEngine.validateAndSanitizeFlags _) as [s|e];
    [|cbn; repeat split; apply Nat.le_0_l].
  cbn [bind].
  destruct (PCREEngine.compile P p _) as [regex|e];
    [|cbn; repeat split; apply Nat.le_0_l].
  destruct (pcre_findAll_loop_carried P clock regex (VString p) s t cap
              0 0%Z []) as [(added & E & L) R].
  destruct (PCREEngine.findAll_loop P clock regex (VString p) s t cap 0 0 [])
    as [r|ms count]; cbn [carried] in E.
  - destruct R as (R1 & R2 & R3). cbn [app] in E. rewrite E.
    repeat split; try assumption.
    now rewrite <- E.
  - cbn [app] in E. subst ms.
    destruct added as [|m added].
    + rewrite andb_false_r. cbn. repeat split. exact L.
    + destruct (cap <=? count)%nat; cbn; repeat split; exact L.
Qed.

(** X14.  In every result of [test] and [findAll] of the PCRE adapter,
    whatever the library and the arguments, [success] tells whether there
    is a match; [test] reports at most one match; the pattern and the text
    are echoed as they were given. *)
Theorem X14_pcre_success_iff_match
        (P : PCREEngine.Host) (this : PCREEngine.engine) (clock : nat -> Z)
        (pattern text flags : value) :
  let r := PCREEngine.test P this clock pattern text flags in
  let a := PCREEngine.findAll P this clock pattern text flags in
  Result.success r = (0 <? List.length (Result.matches r))%nat
  /\ List.length (Result.matches r) <= 1
  /\ Result.success a = (0 <? List.length (Result.matches a))%nat
  /\ Result.pattern r = pattern /\ Result.text r = text
  /\ Result.pattern a = pattern /\ Result.text a = text.
Proof.
  intros r a. subst r a.
  destruct (pcre_test_shape P this clock pattern text flags)
    as (T1 & T2 & T3 & T4).
  destruct (pcre_findAll_shape P this clock pattern text flags)
    as (A1 & A2 & A3 & _).
  repeat split; assumption.
Qed.

(* ================================================================== *)
(** * The cap and the timeout of the scan loops *)

Lemma findAll_loop_extends (H : RegExp.Host) (clock : nat -> Z) (t : string)
      (remaining : nat) :
  forall iterationCount regex ms,
    exists added,
      fst (JavaScriptEngine.findAll_loop H clock t remaining iterationCount
                                         regex ms)
      = ms ++ added
      /\ List.length added <= remaining.
Proof.
  induction remaining as [|remaining IH]; intros count regex ms;
    cbn [JavaScriptEngine.findAll_loop];
    destruct (RegExp.exec H regex t) as [[m|] regex1];
    try (exists []; rewrite app_nil_r; split;
         [reflexivity | apply Nat.le_0_l]).
  destruct (JavaScriptEngine.timedOut clock (S count));
    [exists []; rewrite app_nil_r; split; [reflexivity | apply Nat.le_0_l]|].
  match goal with
  | |- context [if (String.length t <? ?x)%nat then _ else _] =>
      destruct (String.length t <? x)%nat
  end.
  - exists [JavaScriptEngine.formatMatch m]. split; [reflexivity|].
    cbn. lia.
  - match goal with
    | |- context [JavaScriptEngine.findAll_loop H clock t remaining
                    (S count) ?r ?l] =>
        destruct (IH (S count) r l) as (added & E & L)
    end.
    exists (JavaScriptEngine.formatMatch m :: added).
    rewrite E, <- app_assoc. split; [reflexivity|]. cbn. lia.
Qed.

(** What [findAll] reports is what its scan loop collected. *)
Lemma js_findAll_matches_shape (H : RegExp.Host)
      (pattern text flags : value) :
  (forall clock,
      Result.matches (JavaScriptEngine.findAll H clock pattern text flags)
      = [])
  \/ exists t regex,
      text = VString t
      /\ forall clock,
          Result.matches
            (JavaScriptEngine.findAll H clock pattern text flags)
          = fst (JavaScriptEngine.findAll_loop H clock t
                   JavaScriptEngine.MAX_ITERATIONS 0 regex []).
Proof.
  unfold JavaScriptEngine.findAll.
  generalize JavaScriptEngine.MAX_ITERATIONS. intros cap.
  destruct pattern as [| | | |p|]; try (left; reflexivity).
  all: destruct text as [| | | |t|]; try (left; reflexivity).
  destruct (JavaScriptEngine.validateAndSanitizeFlags _) as [s|e];
    [|left; reflexivity].
  cbn [bind].
  destruct (RegExp.create H p _) as [regex|e]; [|left; reflexivity].
  right. exists t, regex. split; [reflexivity|]. intros clock.
  destruct (JavaScriptEngine.findAll_loop H clock t cap 0 regex [])
    as [ms [e|]]; destruct ms as [|m ms]; reflexivity.
Qed.

(** X15.  [findAll] never reports more matches than the cap of its scan
    loop, whatever the host, the clock and the arguments: 10000 for the
    JavaScript adapter, 5000 for the PCRE adapter. *)
Theorem X15_findAll_bounded_by_cap
        (H : RegExp.Host) (P : PCREEngine.Host) (this : PCREEngine.engine)
        (clock : nat -> Z) (pattern text flags : value) :
  List.length
    (Result.matches (JavaScriptEngine.findAll H clock pattern text flags))
  <= JavaScriptEngine.MAX_ITERATIONS
  /\ List.length
       (Result.matches (PCREEngine.findAll P this clock pattern text flags))
     <= PCREEngine.MAX_ITERATIONS.
Proof.
  split; [|apply pcre_findAll_shape].
  destruct (js_findAll_matches_shape H pattern text flags)
    as [E | (t & regex & _ & E)]; rewrite E; [apply Nat.le_0_l|].
  destruct (findAll_loop_extends H clock t JavaScriptEngine.MAX_ITERATIONS
              0 regex []) as (added & E' & L).
  rewrite E'. exact L.
Qed.

Lemma findAll_loop_prefix (H : RegExp.Host) (clock clock' : nat -> Z)
      (t : string) (remaining : nat) :
  (forall k, JavaScriptEngine.timedOut clock' k = false) ->
  forall iterationCount regex ms,
    exists rest,
      fst (JavaScriptEngine.findAll_loop H clock' t remaining iterationCount
                                         regex ms)
      = fst (JavaScriptEngine.findAll_loop H clock t remaining
                                           iterationCount regex ms)
          ++ rest.
Proof.
  intros Hc.
  induction remaining as [|remaining IH]; intros count regex ms;
    cbn [JavaScriptEngine.findAll_loop];
    destruct (RegExp.exec H regex t) as [[m|] regex1];
    try (exists []; now rewrite app_nil_r).
  rewrite (Hc (S count)).
  destruct (JavaScriptEngine.timedOut clock (S count)).
  - match goal with
    | |- context [if (String.length t <? ?x)%nat then _ else _] =>
        destruct (String.length t <? x)%nat
    end.
    + exists [JavaScriptEngine.formatMatch m]. reflexivity.
    + match goal with
      | |- context [JavaScriptEngine.findAll_loop H clock' t remaining
                      (S count) ?r ?l] =>
          destruct (findAll_loop_extends H clock' t remaining (S count) r l)
            as (added & E & _)
      end.
      rewrite E. exists ([JavaScriptEngine.formatMatch m] ++ added).
      cbn [fst]. now rewrite <- app_assoc.
  - match goal with
    | |- context [if (String.length t <? ?x)%nat then _ else _] =>
        destruct (String.length t <? x)%nat
    end.
    + exists []. now rewrite app_nil_r.
    + apply IH.
Qed.

(** X16.  A timeout only cuts the list of [findAll] short: the matches
    reported when the clock runs out are the first matches of the run that
    is never timed out, in the same order. *)
Theorem X16_js_timeout_keeps_a_prefix
        (H : RegExp.Host) (clock clock' : nat -> Z)
        (pattern text flags : value) :
  (forall k, JavaScriptEngine.timedOut clock' k = false) ->
  exists rest,
    Result.matches (JavaScriptEngine.findAll H clock' pattern text flags)
    = Result.matches (JavaScriptEngine.findAll H clock pattern text flags)
        ++ rest.
Proof.
  intros Hc.
  destruct (js_findAll_matches_shape H pattern text flags)
    as [E | (t & regex & _ & E)]; rewrite !E.
  - exists []. reflexivity.
  - apply findAll_loop_prefix. exact Hc.
Qed.

Lemma X16_witness :
  exists rest,
    Result.matches
      (JavaScriptEngine.findAll Reference.host Reference.frozen
         (VString "a") (VString "banana") (VString ""))
    = Result.matches
        (JavaScriptEngine.findAll Reference.host
           (fun k => (2000 * Z.of_nat k)%Z)
           (VString "a") (VString "banana") (VString ""))
        ++ rest.
Proof.
  apply X16_js_timeout_keeps_a_prefix. intros k. reflexivity.
Defined.

Lemma findAll_loop_first (H : RegExp.Host) (clock : nat -> Z) (t : string)
      (n : nat) (regex : RegExp.object H) :
  JavaScriptEngine.timedOut clock 1 = false ->
  firstn 1 (fst (JavaScriptEngine.findAll_loop H clock t (S n) 0 regex []))
  = match fst (RegExp.exec H regex t) with
    | Some m => [JavaScriptEngine.formatMatch m]
    | None => []
    end.
Proof.
  intros Ht. cbn [JavaScriptEngine.findAll_loop].
  destruct (RegExp.exec H regex t) as [[m|] regex1]; cbn [fst];
    [|reflexivity].
  rewrite Ht.
  match goal with
  | |- context [if (String.length t <? ?x)%nat then _ else _] =>
      destruct (String.length t <? x)%nat
  end; [reflexivity|].
  match goal with
  | |- context [JavaScriptEngine.findAll_loop H clock t n 1 ?r ?l] =>
      destruct (findAll_loop_extends H clock t n 1 r l) as (added & E & _)
  end.
  rewrite E. reflexivity.
Qed.

(** X17.  With the flag [g] among valid flags and no timeout at the first
    reading of the clock, the match of [test] is the first match of
    [findAll], and [test] finds a match exactly when [findAll] does. *)
Theorem X17_js_test_is_first_of_findAll
        (H : RegExp.Host) (clock : nat -> Z) (p t f : string) :
  made_of JavaScriptEngine.SUPPORTED_FLAGS f = true ->
  includes f "g" = true ->
  JavaScriptEngine.timedOut clock 1 = false ->
  Result.matches
    (JavaScriptEngine.test H clock (VString p) (VString t) (VString f))
  = firstn 1
      (Result.matches
         (JavaScriptEngine.findAll H clock (VString p) (VString t)
                                   (VString f))).
Proof.
  intros Hf Hg Ht.
  rewrite (js_test_on_strings H clock p t f Hf).
  rewrite (js_findAll_on_strings H clock p t f Hf). cbv zeta.
  assert (G : JavaScriptEngine.globalFlagsOf (distinct f) = distinct f).
  { unfold JavaScriptEngine.globalFlagsOf.
    now rewrite includes_distinct, Hg. }
  rewrite G.
  destruct (RegExp.create H p (distinct f)) as [regex|e]; [|reflexivity].
  rewrite Ht.
  assert (Hcap : exists n, JavaScriptEngine.MAX_ITERATIONS = S n).
  { exists (pred JavaScriptEngine.MAX_ITERATIONS). reflexivity. }
  destruct Hcap as [n Hcap]. rewrite Hcap. clear Hcap.
  pose proof (findAll_loop_first H clock t n regex Ht) as F.
  destruct (JavaScriptEngine.findAll_loop H clock t (S n) 0 regex [])
    as [ms [e|]]; cbn [fst] in F.
  - destruct ms as [|m ms]; cbn [List.length Nat.ltb Nat.leb].
    + destruct (fst (RegExp.exec H regex t)); [discriminate F|reflexivity].
    + destruct (fst (RegExp.exec H regex t)); cbn in *;
        [now rewrite F | discriminate F].
  - destruct (fst (RegExp.exec H regex t)); cbn in *; now rewrite F.
Qed.

Lemma X17_witness :
  Result.matches
    (JavaScriptEngine.test Reference.host Reference.steady
       (VString "an") (VString "banana") (VString "gi"))
  = firstn 1
      (Result.matches
         (JavaScriptEngine.findAll Reference.host Reference.steady
            (VString "an") (VString "banana") (VString "gi"))).
Proof.
  apply X17_js_test_is_first_of_findAll; reflexivity.
Defined.

(* ================================================================== *)
(** * Replacement *)

Lemma js_replace_shape (H : RegExp.Host) (clock : nat -> Z)
      (pattern text replacement flags : value) :
  if ReplaceResult.success
       (JavaScriptEngine.replace H clock pattern text replacement flags)
  then
    ReplaceResult.error
      (JavaScriptEngine.replace H clock pattern text replacement flags)
    = None
    /\ is_string
         (ReplaceResult.result
            (JavaScriptEngine.replace H clock pattern text replacement
                                      flags)) = true
  else
    ReplaceResult.result
      (JavaScriptEngine.replace H clock pattern text replacement flags)
    = text
    /\ ReplaceResult.error
         (JavaScriptEngine.replace H clock pattern text replacement flags)
       <> None.
Proof.
  unfold JavaScriptEngine.replace.
  destruct pattern as [| | | |p|]; try solve [cbn; split; congruence].
  all: destruct text as [| | | |t|]; try solve [cbn; split; congruence].
  all: destruct replacement as [| | | |r|];
    try solve [cbn; split; congruence].
  destruct (JavaScriptEngine.validateAndSanitizeFlags _) as [s|e];
    [|solve [cbn; split; congruence]].
  cbn [bind].
  destruct (RegExp.create H p s) as [regex|e];
    [|solve [cbn; split; congruence]].
  destruct (JavaScriptEngine.timedOut clock 1);
    solve [cbn; split; congruence].
Qed.

Lemma pcre_replace_shape (P : PCREEngine.Host) (this : PCREEngine.engine)
      (clock : nat -> Z) (pattern text replacement flags : value) :
  if ReplaceResult.success
       (PCREEngine.replace P this clock pattern text replacement flags)
  then
    ReplaceResult.error
      (PCREEngine.replace P this clock pattern text replacement flags)
    = None
    /\ is_string
         (ReplaceResult.result
            (PCREEngine.replace P this clock pattern text replacement
                                flags)) = true
  else
    ReplaceResult.result
      (PCREEngine.replace P this clock pattern text replacement flags)
    = text
    /\ ReplaceResult.error
         (PCREEngine.replace P this clock pattern text replacement flags)
       <> None.
Proof.
  unfold PCREEngine.replace.
  generalize PCREEngine.REPLACE_MAX_ITERATIONS. intros cap.
  destruct pattern as [| | | |p|]; try solve [cbn; split; congruence].
  all: destruct text as [| | | |t|]; try solve [cbn; split; congruence].
  all: destruct replacement as [| | | |r|];
    try solve [cbn; split; congruence].
  destruct (PCREEngine._ensureInitialized this) as [[]|e];
    [|solve [cbn; split; congruence]].
  cbn [bind].
  destruct (PCREEngine.validateAndSanitizeFlags _) as [s|e];
    [|solve [cbn; split; congruence]].
  cbn [bind].
  destruct (PCREEngine.compile P p _) as [regex|e];
    [|solve [cbn; split; congruence]].
  destruct (PCREEngine.replace_loop P clock regex t _ cap 0 0 [])
    as [ms|e]; solve [cbn; split; congruence].
Qed.

(** X18.  [replace] of either adapter, whatever the arguments, either
    succeeds with a string and no error, or fails with an error and hands
    the text back as it was given. *)
Theorem X18_replace_failure_returns_text
        (H : RegExp.Host) (P : PCREEngine.Host) (this : PCREEngine.engine)
        (clock : nat -> Z) (pattern text replacement flags : value) :
  let j := JavaScriptEngine.replace H clock pattern text replacement flags in
  let q := PCREEngine.replace P this clock pattern text replacement flags in
  (if ReplaceResult.success j
   then ReplaceResult.error j = None
        /\ is_string (ReplaceResult.result j) = true
   else ReplaceResult.result j = text /\ ReplaceResult.error j <> None)
  /\ (if ReplaceResult.success q
      then ReplaceResult.error q = None
           /\ is_string (ReplaceResult.result q) = true
      else ReplaceResult.result q = text /\ ReplaceResult.error q <> None).
Proof.
  intros j q. subst j q. split.
  - apply js_replace_shape.
  - apply pcre_replace_shape.
Qed.

Lemma replace_without_match (H : RegExp.Host) (t r : string)
      (R : RegExp.object H) :
  RegExp.lastIndex R = 0 ->
  fst (RegExp.exec H R t) = None ->
  RegExp.replace H R t r = t.
Proof.
  intros H0 En. rewrite (replace_substitutes H t R r H0).
  replace (String.length t + 2) with (S (String.length t + 1)) by lia.
  cbn [RegExp.collect]. rewrite En.
  destruct (RegExp.exec H R t) as [[m|] R1]; [discriminate En|].
  destruct (includes (RegExp.flagsOf R) "g");
    cbn [substitute_each]; apply substring_all.
Qed.

(** X19.  When [test] of the JavaScript adapter reports no match and no
    error, [replace] with the same pattern, text, flags and clock succeeds
    and returns the text unchanged, whatever the replacement. *)
Theorem X19_js_replace_without_match
        (H : RegExp.Host) (clock : nat -> Z) (p t r f : string) :
  made_of JavaScriptEngine.SUPPORTED_FLAGS f = true ->
  Result.success
    (JavaScriptEngine.test H clock (VString p) (VString t) (VString f))
  = false ->
  Result.error
    (JavaScriptEngine.test H clock (VString p) (VString t) (VString f))
  = None ->
  JavaScriptEngine.replace H clock (VString p) (VString t) (VString r)
                           (VString f)
  = ReplaceResult.mk true "JavaScript" (VString p) (VString (distinct f))
                     (VString t) (VString r) (VString t) None.
Proof.
  intros Hf.
  rewrite (js_test_on_strings H clock p t f Hf).
  rewrite (js_replace_on_strings H clock p t r f Hf).
  destruct (RegExp.create H p (distinct f)) as [regex|e] eqn:Ec;
    [|intros _ X; discriminate X].
  destruct (JavaScriptEngine.timedOut clock 1);
    [intros _ X; discriminate X|].
  destruct (fst (RegExp.exec H regex t)) as [m|] eqn:En;
    [intros X; discriminate X|].
  intros _ _.
  apply create_fresh in Ec. destruct Ec as [_ H0].
  now rewrite (replace_without_match H t r regex H0 En).
Qed.

Lemma X19_witness :
  JavaScriptEngine.replace Reference.host Reference.steady
    (VString "\d+") (VString "banana") (VString "[$&]") (VString "gg")
  = ReplaceResult.mk true "JavaScript" (VString "\d+") (VString "g")
      (VString "banana") (VString "[$&]") (VString "banana") None.
Proof.
  exact (X19_js_replace_without_match
           Reference.host Reference.steady "\d+" "banana" "[$&]" "gg"
           eq_refl eq_refl eq_refl).
Defined.

Lemma collect_beyond_end (H : RegExp.Host) (t : string) (fuel : nat)
      (R : RegExp.object H) :
  includes (RegExp.flagsOf R) "g" = true ->
  String.length t < RegExp.lastIndex R ->
  RegExp.collect H true t fuel R = [].
Proof.
  intros Hg Hlt. pose proof (exec_beyond_end H t R Hg Hlt) as En.
  destruct fuel as [|fuel]; cbn [RegExp.collect]; [reflexivity|].
  destruct (RegExp.exec H R t) as [[m|] R1]; [discriminate En|reflexivity].
Qed.

(** A scan of [findAll] that ends without error has pushed the matches
    that the replacement of the platform collects. *)
Lemma findAll_loop_collect (H : RegExp.Host) (clock : nat -> Z) (t : string)
      (remaining : nat) :
  forall iterationCount regex ms ms' fuel,
    includes (RegExp.flagsOf regex) "g" = true ->
    String.length t + 2 - RegExp.lastIndex regex <= fuel ->
    JavaScriptEngine.findAll_loop H clock t remaining iterationCount
                                  regex ms = (ms', None) ->
    ms' = ms ++ map JavaScriptEngine.formatMatch
                    (RegExp.collect H true t fuel regex).
Proof.
  induction remaining as [|remaining IH];
    intros count regex ms ms' fuel Hg Hfuel;
    cbn [JavaScriptEngine.findAll_loop];
    destruct (RegExp.exec H regex t) as [[m|] regex1] eqn:E.
  - intros X. apply (f_equal snd) in X. discriminate X.
  - intros X. apply (f_equal fst) in X. cbn [fst] in X. subst ms'.
    destruct fuel as [|fuel]; cbn [RegExp.collect]; [|rewrite E];
      cbn [map]; now rewrite app_nil_r.
  - destruct (JavaScriptEngine.timedOut clock (S count));
      [intros X; apply (f_equal snd) in X; discriminate X|].
    pose proof (exec_match H regex regex1 t m E) as M.
    destruct M as (e & M1 & M2 & M3 & M4 & M5 & _ & M6).
    destruct (M6 Hg) as [M7 M8].
    destruct fuel as [|fuel]; [lia|].
    cbn [RegExp.collect]. rewrite E.
    assert (Q : (RegExp.index m =? RegExp.lastIndex regex1)%nat
                = String.eqb (RegExp.at0 m) "").
    { rewrite M8. destruct (RegExp.at0 m) as [|c s] eqn:A.
      - cbn in M4. apply Nat.eqb_eq. lia.
      - cbn in M4. apply Nat.eqb_neq. cbn. lia. }
    rewrite Q.
    set (regex2 := if String.eqb (RegExp.at0 m) ""
                   then RegExp.set_lastIndex regex1
                          (RegExp.lastIndex regex1 + 1)
                   else regex1).
    assert (G2 : includes (RegExp.flagsOf regex2) "g" = true
                 /\ RegExp.lastIndex regex < RegExp.lastIndex regex2).
    { subst regex2. rewrite <- Q.
      destruct (RegExp.index m =? RegExp.lastIndex regex1)%nat eqn:B.
      - cbn. rewrite M5. split; [assumption|]. lia.
      - rewrite M5. split; [assumption|].
        apply Nat.eqb_neq in B. lia. }
    destruct G2 as [G2 L2].
    destruct (String.length t <? RegExp.lastIndex regex2)%nat eqn:B.
    + intros X. apply (f_equal fst) in X. cbn [fst] in X. subst ms'.
      apply Nat.ltb_lt in B.
      now rewrite (collect_beyond_end H t fuel regex2 G2 B).
    + intros X. apply (IH _ _ _ _ fuel G2) in X; [|lia].
      rewrite X. cbn [map]. now rewrite <- app_assoc.
  - intros X. apply (f_equal fst) in X. cbn [fst] in X. subst ms'.
    destruct fuel as [|fuel]; cbn [RegExp.collect]; [|rewrite E];
      cbn [map]; now rewrite app_nil_r.
Qed.

(** X20.  With the flag [g] among valid flags, when [findAll] of the
    JavaScript adapter ends without error, [replace] substitutes exactly
    the matches that [findAll] reports: each of them is replaced by its
    expansion of the replacement, and the text between them is kept. *)
Theorem X20_js_replace_all_follows_findAll
        (H : RegExp.Host) (clock : nat -> Z) (p t r f : string) :
  made_of JavaScriptEngine.SUPPORTED_FLAGS f = true ->
  includes f "g" = true ->
  Result.error
    (JavaScriptEngine.findAll H clock (VString p) (VString t) (VString f))
  = None ->
  JavaScriptEngine.timedOut clock 1 = false ->
  exists results,
    Result.matches
      (JavaScriptEngine.findAll H clock (VString p) (VString t) (VString f))
    = map JavaScriptEngine.formatMatch results
    /\ JavaScriptEngine.replace H clock (VString p) (VString t) (VString r)
                                (VString f)
       = ReplaceResult.mk true "JavaScript" (VString p)
           (VString (distinct f)) (VString t) (VString r)
           (VString (substitute_each t r results 0)) None.
Proof.
  intros Hf Hg.
  rewrite (js_findAll_on_strings H clock p t f Hf).
  rewrite (js_replace_on_strings H clock p t r f Hf). cbv zeta.
  assert (G : JavaScriptEngine.globalFlagsOf (distinct f) = distinct f).
  { unfold JavaScriptEngine.globalFlagsOf.
    now rewrite includes_distinct, Hg. }
  rewrite G. generalize JavaScriptEngine.MAX_ITERATIONS. intros cap.
  destruct (RegExp.create H p (distinct f)) as [regex|e] eqn:Ec;
    [|intros X; discriminate X].
  apply create_fresh in Ec. destruct Ec as [Ef E0].
  assert (Hg' : includes (RegExp.flagsOf regex) "g" = true).
  { now rewrite Ef, includes_distinct. }
  destruct (JavaScriptEngine.findAll_loop H clock t cap 0 regex [])
    as [ms [e|]] eqn:El.
  - destruct (0 <? List.length ms)%nat; intros X; discriminate X.
  - intros _ Ht. rewrite Ht.
    exists (RegExp.collect H true t (String.length t + 2) regex).
    apply findAll_loop_collect
      with (fuel := String.length t + 2) in El; [|assumption|lia].
    cbn [app] in El. split; [exact El|].
    rewrite (replace_substitutes H t regex r E0), Hg'. reflexivity.
Qed.

Lemma X20_witness :
  exists results,
    Result.matches
      (JavaScriptEngine.findAll Reference.host Reference.steady
         (VString "an") (VString "banana") (VString "g"))
    = map JavaScriptEngine.formatMatch results
    /\ JavaScriptEngine.replace Reference.host Reference.steady
         (VString "an") (VString "banana") (VString "<$&>") (VString "g")
       = ReplaceResult.mk true "JavaScript" (VString "an")
           (VString (distinct "g")) (VString "banana") (VString "<$&>")
           (VString (substitute_each "banana" "<$&>" results 0)) None.
Proof.
  exact (X20_js_replace_all_follows_findAll
           Reference.host Reference.steady "an" "banana" "<$&>" "g"
           eq_refl eq_refl eq_refl eq_refl).
Defined.

(** X21.  [validatePattern] of the JavaScript adapter foretells [test] and
    [replace] on the same pattern and flags.  When it rejects them, [test]
    and [replace] fail with the same error message.  When it accepts them,
    it echoes the flags that [test] echoes, and the only error left to
    [test] and [replace] is the timeout. *)
Theorem X21_js_validatePattern_foretells
        (H : RegExp.Host) (clock : nat -> Z) (p t r : string)
        (flags : value) :
  let v := JavaScriptEngine.validatePattern H (VString p) flags in
  let a := JavaScriptEngine.test H clock (VString p) (VString t) flags in
  let b := JavaScriptEngine.replace H clock (VString p) (VString t)
                                    (VString r) flags in
  if Validation.valid v then
    Validation.error v = None
    /\ Result.flags a = Validation.flags v
    /\ ReplaceResult.flags b = Validation.flags v
    /\ option_map ErrorInfo.message (Result.error a)
       = (if JavaScriptEngine.timedOut clock 1
          then Some (JS.message JavaScriptEngine.executionTimeout)
          else None)
    /\ option_map ErrorInfo.message (ReplaceResult.error b)
       = (if JavaScriptEngine.timedOut clock 1
          then Some (JS.message JavaScriptEngine.replacementTimeout)
          else None)
  else
    Validation.error v <> None
    /\ Result.success a = false
    /\ ReplaceResult.success b = false
    /\ option_map ErrorInfo.message (Result.error a)
       = option_map ErrorInfo.message (Validation.error v)
    /\ option_map ErrorInfo.message (ReplaceResult.error b)
       = option_map ErrorInfo.message (Validation.error v).
Proof.
  intros v a b. subst v a b.
  unfold JavaScriptEngine.validatePattern, JavaScriptEngine.test,
    JavaScriptEngine.replace.
  destruct (JavaScriptEngine.validateAndSanitizeFlags _) as [s|e];
    [|solve [cbn; repeat split; congruence]].
  cbn [bind].
  destruct (RegExp.create H p s) as [regex|e];
    [|solve [cbn; repeat split; congruence]].
  cbn [bind].
  destruct (JavaScriptEngine.timedOut clock 1);
    [solve [cbn; repeat split; congruence]|].
  destruct (fst (RegExp.exec H regex t));
    solve [cbn; repeat split; congruence].
Qed.

(* ================================================================== *)
(** * The PCRE adapter: the flag [g], the empty text and the cap of
      [replace] *)

Lemma includes_append_other (f : string) (c : ascii) :
  Ascii.eqb c "g" = false ->
  includes (f ++ "g") c = includes f c.
Proof.
  intros Hc. unfold includes. rewrite chars_append, mem_app.
  unfold mem at 2. cbn [chars list_ascii_of_string existsb].
  rewrite Hc. cbn [orb]. apply orb_false_r.
Qed.

Lemma pcre_convertFlags_g (P : PCREEngine.Host) (f : string) :
  PCREEngine._convertFlags P (distinct (f ++ "g"))
  = PCREEngine._convertFlags P (distinct f).
Proof.
  unfold PCREEngine._convertFlags.
  rewrite !includes_distinct.
  now rewrite !includes_append_other by reflexivity.
Qed.

Lemma pcre_findAll_loop_flags (P : PCREEngine.Host) (clock : nat -> Z)
      (regex : PCREEngine.compiled P) (pattern : value) (s1 s2 t : string)
      (remaining : nat) :
  forall iterationCount offset ms,
    carried (PCREEngine.findAll_loop P clock regex pattern s1 t remaining
                                     iterationCount offset ms)
    = carried (PCREEngine.findAll_loop P clock regex pattern s2 t remaining
                                       iterationCount offset ms).
Proof.
  induction remaining as [|remaining IH]; intros count offset ms;
    cbn [PCREEngine.findAll_loop];
    destruct (negb (offset <? Z.of_nat (String.length t))%Z);
    try reflexivity.
  destruct (PCREEngine.timedOut clock (S count));
    [destruct ms; reflexivity|].
  destruct (PCREEngine.exec P regex t offset) as [[r|]|e];
    [| reflexivity | destruct ms; reflexivity].
  destruct (PCREEngine.succeeded r); [|reflexivity].
  destruct (Z.of_nat (String.length t) <? PCREEngine.nextOffset r)%Z;
    [reflexivity|].
  apply IH.
Qed.

(** X22.  The flag [g] changes nothing in what [test] and [findAll] of the
    PCRE adapter find: with [g] appended to valid flags the matches are
    the same, whatever the library, the state of the adapter and the
    clock. *)
Theorem X22_pcre_global_flag_is_ignored
        (P : PCREEngine.Host) (this : PCREEngine.engine) (clock : nat -> Z)
        (p t f : string) :
  made_of PCREEngine.SUPPORTED_FLAGS f = true ->
  Result.matches
    (PCREEngine.test P this clock (VString p) (VString t)
                     (VString (f ++ "g")))
  = Result.matches
      (PCREEngine.test P this clock (VString p) (VString t) (VString f))
  /\ Result.matches
       (PCREEngine.findAll P this clock (VString p) (VString t)
                           (VString (f ++ "g")))
     = Result.matches
         (PCREEngine.findAll P this clock (VString p) (VString t)
                             (VString f)).
Proof.
  intros Hf.
  assert (Hfg : made_of PCREEngine.SUPPORTED_FLAGS (f ++ "g") = true).
  { rewrite made_of_append, Hf. reflexivity. }
  unfold PCREEngine.test, PCREEngine.findAll.
  generalize PCREEngine.MAX_ITERATIONS. intros cap.
  cbn [default_param].
  destruct (PCREEngine._ensureInitialized this) as [[]|e];
    [|split; reflexivity].
  cbn [bind].
  rewrite (pcre_sanitize f Hf), (pcre_sanitize (f ++ "g") Hfg).
  cbn [bind]. rewrite pcre_convertFlags_g. split.
  - destruct (PCREEngine.quickMatch P p t _) as [[r|]|e];
      [| |reflexivity];
      destruct (PCREEngine.timedOut clock 1); try reflexivity.
    destruct (PCREEngine.succeeded r); reflexivity.
  - destruct (PCREEngine.compile P p _) as [regex|e]; [|reflexivity].
    pose proof (pcre_findAll_loop_flags P clock regex (VString p)
                  (distinct (f ++ "g")) (distinct f) t cap 0 0%Z []) as C.
    destruct (PCREEngine.findAll_loop P clock regex (VString p)
                (distinct (f ++ "g")) t cap 0 0 []) as [r1|ms1 c1];
      destruct (PCREEngine.findAll_loop P clock regex (VString p)
                  (distinct f) t cap 0 0 []) as [r2|ms2 c2];
      cbn [carried] in C;
      repeat match goal with
             | |- context [if ?b then _ else _] => destruct b
             end;
      exact C.
Qed.

Lemma X22_witness :
  Result.matches
    (PCREEngine.findAll Reference.pcre Reference.ready Reference.frozen
       (VString "an") (VString "banana") (VString ("i" ++ "g")))
  = Result.matches
      (PCREEngine.findAll Reference.pcre Reference.ready Reference.frozen
         (VString "an") (VString "banana") (VString "i")).
Proof.
  exact (proj2 (X22_pcre_global_flag_is_ignored
                  Reference.pcre Reference.ready Reference.frozen
                  "an" "banana" "i" eq_refl)).
Defined.

Lemma pcre_findAll_loop_empty (P : PCREEngine.Host) (clock : nat -> Z)
      (regex : PCREEngine.compiled P) (pattern : value) (s : string)
      (remaining : nat) :
  PCREEngine.findAll_loop P clock regex pattern s "" remaining 0 0 []
  = PCREEngine.Left [] 0.
Proof. destruct remaining; reflexivity. Qed.

Lemma pcre_replace_loop_empty (P : PCREEngine.Host) (clock : nat -> Z)
      (regex : PCREEngine.compiled P) (isGlobal : bool) (remaining : nat) :
  PCREEngine.replace_loop P clock regex "" isGlobal remaining 0 0 []
  = Return [].
Proof. destruct remaining; reflexivity. Qed.

(** X23.  The PCRE adapter never searches an empty text: when the pattern
    compiles, [findAll] on the empty text reports no match and no error,
    and [replace] returns the empty text, even for a pattern that matches
    the empty string; the clock and [exec] of the library are not
    consulted. *)
Theorem X23_pcre_empty_text_is_not_searched
        (P : PCREEngine.Host) (this : PCREEngine.engine) (clock : nat -> Z)
        (p r f : string) (regex : PCREEngine.compiled P) :
  PCREEngine.initialized this = true ->
  made_of PCREEngine.SUPPORTED_FLAGS f = true ->
  PCREEngine.compile P p (PCREEngine._convertFlags P (distinct f))
  = inl regex ->
  PCREEngine.findAll P this clock (VString p) (VString "") (VString f)
  = Result.mk false "PCRE" (VString p) (VString (distinct f)) (VString "")
              [] None
  /\ PCREEngine.replace P this clock (VString p) (VString "") (VString r)
                        (VString f)
     = ReplaceResult.mk true "PCRE" (VString p) (VString (distinct f))
                        (VString "") (VString r) (VString "") None.
Proof.
  intros Hi Hf Hc.
  unfold PCREEngine.findAll, PCREEngine.replace,
    PCREEngine._ensureInitialized.
  cbn [default_param]. rewrite Hi. cbn [bind].
  rewrite (pcre_sanitize f Hf). cbn [bind]. rewrite Hc.
  rewrite pcre_findAll_loop_empty, pcre_replace_loop_empty.
  rewrite andb_false_r. split; reflexivity.
Qed.

Lemma X23_witness :
  Result.matches
    (PCREEngine.findAll Reference.pcre Reference.ready Reference.frozen
       (VString "a*") (VString "") (VString "")) = []
  /\ List.length
       (Result.matches
          (JavaScriptEngine.findAll Reference.host Reference.frozen
             (VString "a*") (VString "") (VString ""))) = 1.
Proof.
  split; [|reflexivity].
  destruct (PCREEngine.compile Reference.pcre "a*"
              (PCREEngine._convertFlags Reference.pcre (distinct "")))
    as [regex|e] eqn:Ec; [|discriminate Ec].
  now rewrite (proj1 (X23_pcre_empty_text_is_not_searched
                        Reference.pcre Reference.ready Reference.frozen
                        "a*" "" "" regex eq_refl eq_refl Ec)).
Defined.

Lemma pcre_replace_loop_bound (P : PCREEngine.Host) (clock : nat -> Z)
      (regex : PCREEngine.compiled P) (t : string) (isGlobal : bool)
      (remaining : nat) :
  forall iterationCount offset ms,
    match PCREEngine.replace_loop P clock regex t isGlobal remaining
                                  iterationCount offset ms with
    | Return out =>
        exists added,
          out = ms ++ added
          /\ List.length added <= (if isGlobal then remaining else 1)
    | Throw _ => True
    end.
Proof.
  assert (Hnone : forall (ms : list PCREEngine.exec_result) k,
             exists added, ms = ms ++ added /\ List.length added <= k).
  { intros ms k. exists []. rewrite app_nil_r. split; [reflexivity|].
    apply Nat.le_0_l. }
  induction remaining as [|remaining IH]; intros count offset ms;
    cbn [PCREEngine.replace_loop];
    destruct (negb (offset <? Z.of_nat (String.length t))%Z);
    try apply Hnone.
  destruct (PCREEngine.timedOut clock (S count)); [exact I|].
  destruct (PCREEngine.exec P regex t offset) as [[m|]|e]; cbn [bind];
    [| apply Hnone | exact I].
  destruct (PCREEngine.succeeded m); [|apply Hnone].
  destruct isGlobal; cbn [negb].
  - match goal with
    | |- context [PCREEngine.replace_loop P clock regex t true remaining
                    (S count) ?o ?l] =>
        pose proof (IH (S count) o l) as B;
        destruct (PCREEngine.replace_loop P clock regex t true remaining
                    (S count) o l) as [out|e]; [|exact I]
    end.
    destruct B as (added & E & L). exists (m :: added).
    rewrite E, <- app_assoc. split; [reflexivity|]. cbn. lia.
  - exists [m]. split; [reflexivity|]. cbn. lia.
Qed.

(** X24.  The scan of [replace] of the PCRE adapter collects at most 1000
    matches to substitute, and at most one without the flag [g]; reaching
    the cap is not an error. *)
Theorem X24_pcre_replace_scan_is_capped
        (P : PCREEngine.Host) (clock : nat -> Z)
        (regex : PCREEngine.compiled P) (t : string) (isGlobal : bool) :
  match PCREEngine.replace_loop P clock regex t isGlobal
                                PCREEngine.REPLACE_MAX_ITERATIONS 0 0 [] with
  | Return matches =>
      List.length matches
      <= (if isGlobal then PCREEngine.REPLACE_MAX_ITERATIONS else 1)
  | Throw e => e = PCREEngine.replacementTimeout \/ exists offset,
                 PCREEngine.exec P regex t offset = Throw e
  end.
Proof.
  generalize PCREEngine.REPLACE_MAX_ITERATIONS. intros cap.
  pose proof (pcre_replace_loop_bound P clock regex t isGlobal cap 0 0%Z [])
    as B.
  assert (T : forall remaining count offset ms e,
             PCREEngine.replace_loop P clock regex t isGlobal remaining
                                     count offset ms = Throw e ->
             e = PCREEngine.replacementTimeout
             \/ exists offset, PCREEngine.exec P regex t offset = Throw e).
  { induction remaining as [|remaining IH]; intros count offset ms e;
      cbn [PCREEngine.replace_loop];
      destruct (negb (offset <? Z.of_nat (String.length t))%Z);
      try discriminate.
    destruct (PCREEngine.timedOut clock (S count));
      [intros X; injection X as <-; now left|].
    destruct (PCREEngine.exec P regex t offset) as [[m|]|e'] eqn:E;
      cbn [bind]; [| discriminate |].
    - destruct (PCREEngine.succeeded m); [|discriminate].
      destruct (negb isGlobal); [discriminate|]. apply IH.
    - intros X. injection X as <-. right. now exists offset. }
  destruct (PCREEngine.replace_loop P clock regex t isGlobal cap 0 0 [])
    as [out|e] eqn:E.
  - destruct B as (added & Eo & L). cbn [app] in Eo. now subst out.
  - exact (T _ _ _ _ _ E).
Qed.

(* ================================================================== *)
(** * From the command line to the adapters *)

Lemma set_of_fresh (l : list ascii) : NoDup l -> set_of l = l.
Proof. intros Hn. unfold set_of. now rewrite set_add_all_fresh. Qed.

Lemma filter_not_mem (x : ascii) (l : list ascii) :
  mem x l = false -> filter (fun c => negb (Ascii.eqb c x)) l = l.
Proof.
  induction l as [|c l IH]; [reflexivity|].
  unfold mem. cbn [existsb filter]. intros Hm.
  apply orb_false_elim in Hm. destruct Hm as [Hc Hl].
  rewrite Ascii.eqb_sym in Hc. rewrite Hc. cbn [negb].
  f_equal. apply IH. exact Hl.
Qed.

Lemma valid_flag_without_x (c : ascii) :
  mem c ArgParser.VALID_FLAGS = true ->
  Ascii.eqb c "x" = false ->
  mem c JavaScriptEngine.SUPPORTED_FLAGS = true.
Proof.
  unfold mem, ArgParser.VALID_FLAGS, JavaScriptEngine.SUPPORTED_FLAGS.
  cbn [existsb]. intros Hv Hx. rewrite Hx in Hv.
  rewrite !orb_false_r in Hv. rewrite orb_false_r.
  rewrite !orb_assoc in *. exact Hv.
Qed.

Lemma validateFlags_returns (fl v : string) :
  ArgParser.validateFlags fl = Return v ->
  NoDup (chars v)
  /\ forallb (fun c => mem c ArgParser.VALID_FLAGS) (chars v) = true.
Proof.
  unfold ArgParser.validateFlags.
  destruct (truthy (VString fl)); cbn [negb].
  - rewrite (filter_nil_forallb (fun c => mem c ArgParser.VALID_FLAGS)).
    destruct (forallb _ (chars fl)) eqn:A; cbn [negb]; [|discriminate].
    intros X. injection X as <-. rewrite chars_str.
    split; [apply set_of_NoDup | now apply forallb_set_of].
  - intros X. injection X as <-. split; [constructor | reflexivity].
Qed.

(** X25.  Flags that the command line accepts ([validateFlags] of the
    argument parser) and that [runCLI] prepares for an engine other than
    [pcre] are always accepted by the JavaScript adapter, and are echoed
    unchanged: the [x] that the parser lets through is removed on the
    way. *)
Theorem X25_cli_flags_reach_the_js_adapter (fl v engine : string) :
  ArgParser.validateFlags fl = Return v ->
  String.eqb engine "pcre" = false ->
  JavaScriptEngine.validateAndSanitizeFlags
    (VString (RegexPlayApp.executionFlags v engine))
  = Return (RegexPlayApp.executionFlags v engine)
  /\ includes (RegexPlayApp.executionFlags v engine) "x" = false
  /\ forall c, Ascii.eqb c "x" = false ->
               includes (RegexPlayApp.executionFlags v engine) c
               = includes fl c.
Proof.
  intros Hv He.
  assert (Hfl : forall c, includes v c = includes fl c).
  { intros c. revert Hv. unfold ArgParser.validateFlags.
    destruct (truthy (VString fl)) eqn:T; cbn [negb].
    - destruct (0 <? _)%nat; [discriminate|].
      intros X. injection X as <-. apply includes_distinct.
    - intros X. injection X as <-.
      destruct fl; [reflexivity | discriminate T]. }
  apply validateFlags_returns in Hv. destruct Hv as [Hn Ha].
  set (keep := fun c => negb (Ascii.eqb c "x")).
  assert (E : RegexPlayApp.executionFlags v engine
              = str (filter keep (chars v))).
  { unfold RegexPlayApp.executionFlags. rewrite He. cbn [negb].
    rewrite andb_true_r. unfold includes.
    destruct (mem "x" (chars v)) eqn:M; [reflexivity|].
    subst keep. now rewrite (filter_not_mem _ _ M), str_chars. }
  rewrite E.
  assert (Hm : made_of JavaScriptEngine.SUPPORTED_FLAGS
                       (str (filter keep (chars v))) = true).
  { unfold made_of. rewrite chars_str. apply forallb_forall.
    intros c Hc. apply filter_In in Hc. destruct Hc as [Hc Hk].
    rewrite forallb_forall in Ha. apply valid_flag_without_x.
    - now apply Ha.
    - subst keep. cbn in Hk. now apply negb_true_iff in Hk. }
  split; [|split].
  - rewrite (js_sanitize _ Hm). unfold distinct. rewrite chars_str.
    rewrite set_of_fresh; [reflexivity|]. now apply NoDup_filter.
  - rewrite includes_str.
    destruct (mem "x" (filter keep (chars v))) eqn:M; [|reflexivity].
    apply mem_In in M. apply filter_In in M. destruct M as [_ M].
    discriminate M.
  - intros c Hc. rewrite includes_str, <- Hfl. unfold includes.
    destruct (mem c (chars v)) eqn:M.
    + apply mem_In. apply filter_In. split; [now apply mem_In|].
      subst keep. cbn. now rewrite Hc.
    + destruct (mem c (filter keep (chars v))) eqn:M'; [|reflexivity].
      apply mem_In in M'. apply filter_In in M'. destruct M' as [M' _].
      apply mem_In in M'. congruence.
Qed.

Lemma X25_witness :
  ArgParser.validateFlags "gxig" = Return "gxi"
  /\ RegexPlayApp.executionFlags "gxi" "javascript" = "gi"
  /\ JavaScriptEngine.validateAndSanitizeFlags
       (VString (RegexPlayApp.executionFlags "gxi" "javascript"))
     = Return (RegexPlayApp.executionFlags "gxi" "javascript").
Proof.
  split; [reflexivity|]. split; [reflexivity|].
  exact (proj1 (X25_cli_flags_reach_the_js_adapter
                  "gxig" "gxi" "javascript" eq_refl eq_refl)).
Defined.

(** X26.  An engine name that the argument parser accepts is known to the
    factory, which gives it the same canonical name: [javascript] or
    [pcre]. *)
Theorem X26_validateEngine_agrees_with_factory (engine c : string) :
  ArgParser.validateEngine engine = Return c ->
  EngineFactory.normalizeEngineName (VString engine) = Return c
  /\ (c = "javascript" \/ c = "pcre").
Proof.
  unfold ArgParser.validateEngine.
  destruct (smem (toLowerCase engine) ArgParser.SUPPORTED_ENGINES) eqn:S;
    cbn [negb]; [|discriminate].
  intros X. injection X as <-.
  apply smem_In in S. unfold ArgParser.SUPPORTED_ENGINES in S.
  assert (Hne : engine <> "").
  { intros ->. cbn in S. destruct S as [S|[S|[S|[]]]]; discriminate S. }
  destruct S as [S|[S|[S|[]]]]; rewrite <- S; cbn [String.eqb Ascii.eqb];
    (split; [|auto]);
    apply normalizeEngineName_of_canonical; try assumption;
    rewrite <- S; reflexivity.
Qed.

Lemma X26_witness :
  ArgParser.validateEngine "JS" = Return "javascript"
  /\ EngineFactory.normalizeEngineName (VString "JS") = Return "javascript".
Proof.
  split; [reflexivity|].
  exact (proj1 (X26_validateEngine_agrees_with_factory
                  "JS" "javascript" eq_refl)).
Defined.

(** X27.  On an initialized application whose factory has a JavaScript
    adapter under the engine name, [testPattern] and [findAllMatches]
    return exactly what the adapter returns, except for the empty pattern,
    which they refuse although the adapter would accept it. *)
Theorem X27_app_returns_adapter_result
        (H : RegExp.Host) (initialize : RegexPlayApp.t
                                        -> completion RegexPlayApp.t)
        (nullAccess : JS.error) (clock : nat -> Z)
        (this : RegexPlayApp.t) (f : EngineFactory.t)
        (engineName : value) (c p t fl : string) :
  RegexPlayApp.initialized this = true ->
  RegexPlayApp.engineFactory this = Some f ->
  EngineFactory.initialized f = true ->
  EngineFactory.normalizeEngineName engineName = Return c ->
  EngineFactory.map_get (EngineFactory.engines f) c
  = Some (Engine.javascript H) ->
  RegexPlayApp.testPattern initialize nullAccess clock this engineName
                           (VString p) (VString t) (VString fl)
  = (if (String.length p =? 0)%nat
     then Throw (Error "Pattern cannot be empty")
     else Return (JavaScriptEngine.test H clock (VString p) (VString t)
                                        (VString fl)))
  /\ RegexPlayApp.findAllMatches initialize nullAccess clock this engineName
                                 (VString p) (VString t) (VString fl)
     = (if (String.length p =? 0)%nat
        then Throw (Error "Pattern cannot be empty")
        else Return (JavaScriptEngine.findAll H clock (VString p)
                                              (VString t) (VString fl))).
Proof.
  intros Hi Hf Hfi Hn Hm.
  pose proof (getEngine_registered f engineName c _ Hfi Hn Hm) as G.
  unfold RegexPlayApp.testPattern, RegexPlayApp.findAllMatches,
    RegexPlayApp.checkInputs.
  cbn [default_param]. rewrite Hi. cbn [bind].
  destruct (String.length p =? 0)%nat; cbn [bind];
    [split; reflexivity|].
  rewrite Hf.
  unfold EngineFactory.test, EngineFactory.findAll.
  cbn [EngineFactory.validatePattern EngineFactory.validateText
       EngineFactory.validateFlags default_param bind].
  rewrite G. cbn [bind Engine.javascript Engine.test Engine.findAll].
  split; reflexivity.
Qed.

Lemma X27_witness :
  RegexPlayApp.testPattern (fun app => Return app) (Error "null")
    Reference.steady (RegexPlayApp.mk true (Some Reference.factory))
    (VString "js") (VString "an") (VString "banana") (VString "")
  = Return (JavaScriptEngine.test Reference.host Reference.steady
              (VString "an") (VString "banana") (VString "")).
Proof.
  exact (proj1 (X27_app_returns_adapter_result
                  Reference.host (fun app => Return app) (Error "null")
                  Reference.steady
                  (RegexPlayApp.mk true (Some Reference.factory))
                  Reference.factory (VString "js") "javascript" "an"
                  "banana" "" eq_refl eq_refl eq_refl eq_refl eq_refl)).
Defined.

(* ================================================================== *)
(** * The order of the matches of the PCRE adapter *)

Lemma reference_search_from (p : Reference.program) (t : string)
      (fuel : nat) :
  forall i r,
    Reference.pcre_search p t fuel i = Some r ->
    (Z.of_nat i <= PCREEngine.start r)%Z.
Proof.
  induction fuel as [|fuel IH]; intros i r; simpl; [discriminate|].
  destruct (Reference.matcher p t i) as [st|].
  - intros X. injection X as <-. cbn. lia.
  - intros X. apply IH in X. lia.
Qed.

Lemma reference_library_advances : library_advances Reference.pcre.
Proof.
  intros regex t offset r E _. cbn in E. unfold Reference.pcre_exec in E.
  injection E as E. apply reference_search_from in E. lia.
Qed.

Lemma pcre_nextOffset_after (t : string) (r : PCREEngine.exec_result) :
  result_ok t r ->
  before (Z.to_nat (PCREEngine.nextOffset r)) (PCREEngine.formatMatch r t)
  /\ (PCREEngine.start r < PCREEngine.nextOffset r)%Z
  /\ Match.index (PCREEngine.formatMatch r t) = PCREEngine.start r.
Proof.
  intros (R1 & R2 & R3 & _).
  unfold before, PCREEngine.formatMatch, PCREEngine.nextOffset, num_or.
  cbn [Match.index Match.length]. cbv zeta.
  destruct (Z.eqb_spec (PCREEngine.start r) 0);
    destruct (Z.eqb_spec (PCREEngine.end_ r) 0);
    destruct (Z.eqb_spec (PCREEngine.start r) (PCREEngine.end_ r));
    repeat split; lia.
Qed.

Lemma pcre_findAll_loop_ordered (P : PCREEngine.Host) (clock : nat -> Z)
      (regex : PCREEngine.compiled P) (pattern : value) (s t : string)
      (remaining : nat) :
  library_ok P -> library_advances P ->
  forall iterationCount offset ms,
    ordered ms ->
    Forall (before (Z.to_nat offset)) ms ->
    ordered (carried (PCREEngine.findAll_loop P clock regex pattern s t
                        remaining iterationCount offset ms)).
Proof.
  intros [Hok _] Hadv.
  induction remaining as [|remaining IH]; intros count offset ms Ho Hb;
    cbn [PCREEngine.findAll_loop];
    destruct (negb (offset <? Z.of_nat (String.length t))%Z) eqn:Q;
    try exact Ho.
  destruct (PCREEngine.timedOut clock (S count));
    [destruct ms; [apply ordered_nil | exact Ho]|].
  destruct (PCREEngine.exec P regex t offset) as [[r|]|e] eqn:E;
    [| exact Ho | destruct ms; [apply ordered_nil | exact Ho]].
  destruct (PCREEngine.succeeded r) eqn:Es; [|exact Ho].
  pose proof (Hok _ _ _ _ E Es) as Hr.
  pose proof (Hadv _ _ _ _ E Es) as Ha.
  destruct (pcre_nextOffset_after t r Hr) as (N1 & N2 & N3).
  destruct Hr as (R1 & R2 & R3 & _).
  assert (Ho' : ordered (ms ++ [PCREEngine.formatMatch r t])).
  { apply (ordered_snoc ms _ (Z.to_nat offset) Ho Hb).
    rewrite N3. lia. }
  destruct (Z.of_nat (String.length t) <? PCREEngine.nextOffset r)%Z;
    [exact Ho'|].
  apply IH; [exact Ho'|].
  apply Forall_app. split.
  - apply (Forall_before_mono ms (Z.to_nat offset)); [lia | exact Hb].
  - constructor; [exact N1 | constructor].
Qed.

(** X28.  When the library reports spans inside the text and never finds
    a match before the offset it was asked to search from, the matches of
    [findAll] of the PCRE adapter start at strictly increasing positions
    and do not overlap. *)
Theorem X28_pcre_findAll_matches_strictly_increasing
        (P : PCREEngine.Host) (this : PCREEngine.engine) (clock : nat -> Z)
        (pattern : value) (t : string) (flags : value) :
  library_ok P ->
  library_advances P ->
  ordered (Result.matches
             (PCREEngine.findAll P this clock pattern (VString t) flags)).
Proof.
  intros Hok Hadv.
  unfold PCREEngine.findAll.
  generalize PCREEngine.MAX_ITERATIONS. intros cap.
  destruct pattern as [| | | |p|]; try apply ordered_nil.
  destruct (PCREEngine._ensureInitialized this) as [[]|e];
    [|apply ordered_nil].
  cbn [bind].
  destruct (PCREEngine.validateAndSanitizeFlags _) as [s|e];
    [|apply ordered_nil].
  cbn [bind].
  destruct (PCREEngine.compile P p _) as [regex|e]; [|apply ordered_nil].
  pose proof (pcre_findAll_loop_ordered P clock regex (VString p) s t cap
                Hok Hadv 0 0%Z [] ordered_nil (Forall_nil _)) as Hend.
  destruct (PCREEngine.findAll_loop P clock regex (VString p) s t cap 0 0 [])
    as [r|ms count]; [exact Hend|].
  destruct (_ && _); exact Hend.
Qed.

Lemma X28_witness :
  map Match.index
      (Result.matches
         (PCREEngine.findAll Reference.pcre Reference.ready Reference.frozen
            (VString "\d+") (VString "Order #123 and #45") (VString "")))
  = [7; 16]%Z
  /\ ordered (Result.matches
                (PCREEngine.findAll Reference.pcre Reference.ready
                   Reference.frozen (VString "\d+")
                   (VString "Order #123 and #45") (VString ""))).
Proof.
  split; [vm_compute; reflexivity|].
  apply X28_pcre_findAll_matches_strictly_increasing.
  - exact reference_library_ok.
  - exact reference_library_advances.
Defined.
